(** * Job orchestration of the ML service: training, batch prediction, validation

    Shallow embedding of [app/services/training_service.py],
    [app/services/prediction_service.py] and
    [app/services/validation_service.py], with the pydantic records of
    [app/models/*.py].

    - A job table ([Dict[str, Job]]) is a [gmap string Job]; every access
      under [job_lock] is one atomic function on the table.
    - A Python exception is represented by [str(e)], the only thing the
      services ever read from a caught exception.
    - A worker ([_train_model], [_run_batch_prediction], [_run_validation])
      never reads the job table: given the answers of its collaborators
      (file system, pandas, the estimator) it issues a fixed sequence of
      atomic actions.  That sequence is computed in a small writer/error
      monad; a scheduler then interleaves it with cancellation requests.
    - [datetime.now()] is a reading of a clock supplied with every step.
    - [progress] is a Python float; every value the services write is a
      finite number and is represented by its exact rational value. *)

From Stdlib Require Import ZArith QArith Lia Lqa Ascii.
From stdpp Require Import base option strings pretty gmap list.

Local Open Scope Z_scope.

(** ** Python values *)

(** A float as far as comparisons see it (IEEE 754 order, [nan] unordered). *)
Inductive pyfloat : Type :=
| NaN
| NegInf
| PosInf
| Fin (q : Q).

(** [a < b] on floats. *)
Definition float_lt (a b : pyfloat) : bool :=
  match a, b with
  | NaN, _ | _, NaN => false
  | _, NegInf => false
  | NegInf, _ => true
  | PosInf, _ => false
  | Fin _, PosInf => true
  | Fin x, Fin y => negb (Qle_bool y x)
  end.

(** [a > b] on floats. *)
Definition float_gt (a b : pyfloat) : bool := float_lt b a.

(** [typing.Any], as far as hyperparameters use it. *)
Inductive Any : Type :=
| AnyNone
| AnyBool (b : bool)
| AnyInt (z : Z)
| AnyFloat (x : pyfloat)
| AnyStr (s : string).

(** [datetime.now()] *)
Definition datetime : Type := Z.

(** The outcome of a call that may raise; [Raise text] carries [str(e)]. *)
Inductive result (A : Type) : Type :=
| Ok (a : A)
| Raise (text : string).
Arguments Ok {A} a.
Arguments Raise {A} text.

(** [os.path.join(dir, name)] for the relative directories the services use. *)
Definition os_path_join (dir name : string) : string := dir +:+ "/" +:+ name.

(** [str(KeyError(key))] for a string key. *)
Definition str_KeyError (key : string) : string := "'" +:+ key +:+ "'".

(** Truth value of an [Optional[str]]: [None] and [''] are false. *)
Definition truthy_str (s : option string) : bool :=
  match s with
  | Some t => negb (String.eqb t "")
  | None => false
  end.

(** ** The worker monad: the actions issued so far, and a value or an exception *)

Definition worker (E A : Type) : Type := list E * result A.

Definition wret {E A} (a : A) : worker E A := ([], Ok a).

Definition wbind {E A B} (m : worker E A) (k : A -> worker E B) : worker E B :=
  match m with
  | (evs, Ok a) => let '(evs', r) := k a in (evs ++ evs', r)
  | (evs, Raise text) => (evs, Raise text)
  end.

(** One atomic action. *)
Definition emit {E} (e : E) : worker E unit := ([e], Ok tt).

(** A call to a collaborator: the call is recorded, then its outcome decides. *)
Definition call {E A} (e : E) (outcome : result A) : worker E A := ([e], outcome).

(** [raise Exception(text)] *)
Definition wraise {E A} (text : string) : worker E A := ([], Raise text).

(** [try: body  except Exception as e: handler(str(e))] *)
Definition try_except {E} (body : worker E unit) (handler : string -> list E) : list E :=
  match body with
  | (evs, Ok _) => evs
  | (evs, Raise text) => evs ++ handler text
  end.

#[global] Instance result_ret : MRet result := fun A a => Ok a.
#[global] Instance result_bind : MBind result :=
  fun A B k m => match m with Ok a => k a | Raise text => Raise text end.

#[global] Instance worker_ret {E} : MRet (worker E) := fun A a => wret a.
#[global] Instance worker_bind {E} : MBind (worker E) := fun A B k m => wbind m k.

(** ** One worker and its job table, under cancellation requests

    [exec job_id now e jobs] performs the atomic action [e] of the worker of
    job [job_id]; an action that raises inside the worker's [try] hands over
    to the [except] clause.  The only action of that clause, the guarded
    [_fail_job], cannot raise. *)

Record sys (Job E : Type) : Type := Sys {
  jobs : gmap string Job;
  todo : list E
}.
Arguments Sys {Job E} jobs todo.
Arguments jobs {Job E} s.
Arguments todo {Job E} s.

Inductive tick : Type :=
| Work (now : datetime)      (* the worker thread performs its next action *)
| Cancel (now : datetime).   (* a caller invokes cancel_*_job(job_id) *)

Section Scheduler.
Context {Job E : Type}.
Variable exec : string -> datetime -> E -> gmap string Job -> result (gmap string Job).
Variable on_exception : string -> list E.
Variable cancel_job : gmap string Job -> string -> datetime -> gmap string Job * bool.

Definition step (job_id : string) (t : tick) (s : sys Job E) : sys Job E :=
  match t with
  | Work now =>
      match todo s with
      | [] => s
      | e :: rest =>
          match exec job_id now e (jobs s) with
          | Ok jobs' => Sys jobs' rest
          | Raise text => Sys (jobs s) (on_exception text)
          end
      end
  | Cancel now => Sys (fst (cancel_job (jobs s) job_id now)) (todo s)
  end.

(** The state after a schedule. *)
Fixpoint run (job_id : string) (sched : list tick) (s : sys Job E) : sys Job E :=
  match sched with
  | [] => s
  | t :: sched' => run job_id sched' (step job_id t s)
  end.

(** Every state a schedule passes through, the first one included. *)
Fixpoint history (job_id : string) (sched : list tick) (s : sys Job E) : list (sys Job E) :=
  match sched with
  | [] => [s]
  | t :: sched' => s :: history job_id sched' (step job_id t s)
  end.

End Scheduler.

(** What successive status reads of job [job_id] return for [field], one per
    state of a history. *)
Definition readings {Job E A : Type} (field : Job -> A) (job_id : string)
    (hist : list (sys Job E)) : list A :=
  omap (fun s => field <$> jobs s !! job_id) hist.

(** Every value of a list is related to the next one. *)
Fixpoint chain {A : Type} (R : A -> A -> Prop) (l : list A) : Prop :=
  match l with
  | a :: rest =>
      match rest with
      | b :: _ => R a b /\ chain R rest
      | [] => True
      end
  | [] => True
  end.

(** What the three job records have in common. *)
Record view : Type := View {
  v_status : string;
  v_progress : Q;
  v_payload : bool;               (* is the result payload populated? *)
  v_error : option string
}.

(* ================================================================== *)
(** ** The protocol of a worker, on the common view

    An action of any of the three workers does one of four things to the
    common view of its job record. *)

Inductive kind : Type :=
| KUpdate (status : string) (progress : Q)    (* _update_job_status *)
| KComplete                                   (* the completion write *)
| KFail (text : string)                       (* _fail_job *)
| KSilent.                                    (* nothing the view shows *)

Definition apply_kind (k : kind) (v : view) : view :=
  match k with
  | KUpdate status0 progress0 => View status0 progress0 (v_payload v) (v_error v)
  | KComplete => View "completed" 100 true (v_error v)
  | KFail text => View "failed" (v_progress v) (v_payload v) (Some text)
  | KSilent => v
  end.

(** What a cancellation request does to the view; [running] is the name of
    the running state, ["training"] for training jobs. *)
Definition cancel_view (running : string) (v : view) : view :=
  if bool_decide (v_status v ∈ ["queued"; running])
  then View "cancelled" (v_progress v) (v_payload v) (v_error v)
  else v.

Definition view_step (running : string) (t : tick) (a : view * list kind)
  : view * list kind :=
  match t with
  | Work _ =>
      match snd a with
      | [] => a
      | k :: rest => (apply_kind k (fst a), rest)
      end
  | Cancel _ => (cancel_view running (fst a), snd a)
  end.

(** The progress values a sequence of actions writes. *)
Fixpoint writes (ks : list kind) : list Q :=
  match ks with
  | [] => []
  | KUpdate _ p :: rest => p :: writes rest
  | KComplete :: rest => 100%Q :: writes rest
  | _ :: rest => writes rest
  end.

Fixpoint nondecreasing_from (lo : Q) (l : list Q) : Prop :=
  match l with
  | [] => True
  | x :: rest => (lo <= x)%Q /\ nondecreasing_from x rest
  end.

Definition is_final (k : kind) : Prop :=
  match k with
  | KComplete | KFail _ => True
  | _ => False
  end.

Definition is_inner (running : string) (k : kind) : Prop :=
  match k with
  | KUpdate status0 _ => status0 = running
  | KSilent => True
  | _ => False
  end.

(** Inner actions, closed by exactly one final write. *)
Fixpoint closed (running : string) (ks : list kind) : Prop :=
  match ks with
  | [] => False
  | k :: rest =>
      match rest with
      | [] => is_final k
      | _ => is_inner running k /\ closed running rest
      end
  end.

(** The texts a sequence of actions may record as error message. *)
Fixpoint fail_texts (ks : list kind) : list string :=
  match ks with
  | [] => []
  | KFail text :: rest => text :: fail_texts rest
  | _ :: rest => fail_texts rest
  end.

(** What a worker's whole sequence of actions must look like. *)
Definition protocol (running : string) (ks : list kind) : Prop :=
  (exists p rest, ks = KUpdate running p :: rest) /\
  closed running ks /\
  nondecreasing_from 0 (writes ks).

(** The status changes one step may make. *)
Definition transition (running : string) (a b : string) : Prop :=
  a = b \/
  (a = "queued" /\ (b = running \/ b = "cancelled")) \/
  (a = running /\ (b = "completed" \/ b = "failed" \/ b = "cancelled")) \/
  (a = "cancelled" /\ (b = running \/ b = "completed" \/ b = "failed")).

(** The invariant of a job and the rest of its worker. *)
Record job_inv (running : string) (good : string -> Prop) (v : view) (ks : list kind)
  : Prop := JobInv {
  inv_status : v_status v ∈ ["queued"; running; "completed"; "failed"; "cancelled"];
  inv_queued : v_status v = "queued" -> exists p rest, ks = KUpdate running p :: rest;
  inv_done : v_status v = "completed" \/ v_status v = "failed" -> ks = [];
  inv_closed : ks = [] \/ closed running ks;
  inv_payload : v_payload v = true <-> v_status v = "completed";
  inv_error : v_status v = "failed" -> exists text, v_error v = Some text /\ good text;
  inv_texts : Forall good (fail_texts ks);
  inv_progress : nondecreasing_from (v_progress v) (writes ks)
}.

(* ================================================================== *)
(** ** app/services/training_service.py *)

Module Training.

(** [TrainingAlgorithm(str, Enum)]; a member is equal to its string value. *)
Inductive TrainingAlgorithm : Type :=
| XGBOOST
| LIGHTGBM
| RANDOM_FOREST
| GRADIENT_BOOSTING
| LINEAR_REGRESSION.

Definition value (a : TrainingAlgorithm) : string :=
  match a with
  | XGBOOST => "xgboost"
  | LIGHTGBM => "lightgbm"
  | RANDOM_FOREST => "random_forest"
  | GRADIENT_BOOSTING => "gradient_boosting"
  | LINEAR_REGRESSION => "linear_regression"
  end.

(** [TrainingAlgorithm(v)]: the member whose value is [v]; for any other
    string there is none. *)
Definition TrainingAlgorithm_of (v : string) : option TrainingAlgorithm :=
  if bool_decide (v = "xgboost") then Some XGBOOST
  else if bool_decide (v = "lightgbm") then Some LIGHTGBM
  else if bool_decide (v = "random_forest") then Some RANDOM_FOREST
  else if bool_decide (v = "gradient_boosting") then Some GRADIENT_BOOSTING
  else if bool_decide (v = "linear_regression") then Some LINEAR_REGRESSION
  else None.

Record TrainingRequest : Type := {
  dataset_id : string;
  algorithm : TrainingAlgorithm;
  target_column : string;
  feature_columns : list string;
  test_size : Q;
  random_state : Z;
  hyperparameters : option (gmap string Any)
}.

(** The keyword arguments of [TrainingRequest(...)], before the model has
    validated them: [raw_algorithm] is the identifier as the caller wrote it,
    and an argument with a default may be left out. *)
Record TrainingPayload : Type := {
  raw_dataset_id : string;
  raw_algorithm : string;
  raw_target_column : string;
  raw_feature_columns : list string;
  raw_test_size : option Q;
  raw_random_state : option Z;
  raw_hyperparameters : option (gmap string Any)
}.

(** [TrainingRequest( **payload )]: the field [algorithm: TrainingAlgorithm] is
    validated against the enum; [None] is the [ValidationError] raised for an
    identifier that is not the value of a member. *)
Definition TrainingRequest_new (payload : TrainingPayload) : option TrainingRequest :=
  match TrainingAlgorithm_of (raw_algorithm payload) with
  | Some a =>
      Some {| dataset_id := raw_dataset_id payload;
              algorithm := a;
              target_column := raw_target_column payload;
              feature_columns := raw_feature_columns payload;
              test_size := default (1 # 5)%Q (raw_test_size payload);
              random_state := default 42 (raw_random_state payload);
              hyperparameters := raw_hyperparameters payload |}
  | None => None
  end.

Record TrainingResponse : Type := {
  resp_job_id : string;
  resp_status : string;
  resp_message : string;
  resp_created_at : datetime;
  resp_estimated_duration : option Z
}.

Record TrainingStatus : Type := {
  job_id : string;
  status : string;
  progress : Q;
  metrics : option (gmap string pyfloat);
  error_message : option string;
  started_at : option datetime;
  completed_at : option datetime;
  model_path : option string
}.

Record TrainingResult : Type := {
  res_job_id : string;
  res_model_id : string;
  res_algorithm : string;
  res_metrics : gmap string pyfloat;
  feature_importance : option (gmap string pyfloat);
  training_duration : Q;
  model_size : Z;
  res_created_at : datetime
}.

Definition models_dir : string := "models".
Definition data_dir : string := "data".

(** The collaborators of the training pipeline. *)
Record world : Type := {
  Frame : Type;                                       (* DataFrame, Series, ndarray *)
  Estimator : Type;
  os_path_exists : string -> bool;
  pd_read_csv : string -> result Frame;
  getitem_columns : Frame -> list string -> result Frame;          (* df[columns] *)
  getitem_column : Frame -> string -> result Frame;                (* df[column] *)
  train_test_split : Frame -> Frame -> Q -> Z -> result (Frame * Frame * Frame * Frame);
  construct : TrainingAlgorithm -> gmap string Any -> result Estimator;   (* Cls( **params ) *)
  fit : Estimator -> Frame -> Frame -> result Estimator;
  predict : Estimator -> Frame -> result Frame;
  mean_squared_error : Frame -> Frame -> result pyfloat;
  mean_absolute_error : Frame -> Frame -> result pyfloat;
  r2_score : Frame -> Frame -> result pyfloat;
  np_sqrt : pyfloat -> pyfloat;
  uuid4 : string;
  joblib_dump : Estimator -> string -> result unit;
  (* [None]: the attribute is absent; [Some (Raise _)]: reading or
     converting it raises; [Some (Ok l)]: its values as floats *)
  feature_importances_ : Estimator -> option (result (list pyfloat));
  coef_ : Estimator -> option (result (list pyfloat))
}.

(** Calls that leave the job table alone. *)
Inductive external : Type :=
| OsPathExists (path : string)
| PdReadCsv (path : string)
| GetItem
| TrainTestSplit
| Construct (a : TrainingAlgorithm)
| ModelFit
| ModelPredict
| SklearnMetric (name : string)
| JoblibDump (path : string)
| ReadAttribute (name : string).

(** The atomic actions of [_train_model]. *)
Inductive event : Type :=
| UpdateJobStatus (status : string) (progress : Q)
| CompleteJob (model_id model_path : string) (metrics : gmap string pyfloat)
    (feature_importance : option (gmap string pyfloat))
| FailJob (error_message : string)
| External (c : external).

(** [start_training], up to the submission of the worker. *)
Definition start_training (training_jobs : gmap string TrainingStatus)
    (new_job_id : string) (now : datetime) (request : TrainingRequest)
  : gmap string TrainingStatus * TrainingResponse :=
  let job_status :=
    {| job_id := new_job_id; status := "queued"; progress := 0;
       metrics := None; error_message := None;
       started_at := Some now; completed_at := None; model_path := None |} in
  (<[new_job_id := job_status]> training_jobs,
   {| resp_job_id := new_job_id; resp_status := "queued";
      resp_message := "Training job has been queued";
      resp_created_at := now; resp_estimated_duration := Some 300 |}).

Definition _update_job_status (training_jobs : gmap string TrainingStatus)
    (job_id0 status0 : string) (progress0 : Q) (error_message0 : option string)
  : gmap string TrainingStatus :=
  match training_jobs !! job_id0 with
  | Some job =>
      <[job_id0 :=
          {| job_id := job_id job; status := status0; progress := progress0;
             metrics := metrics job;
             error_message :=
               if truthy_str error_message0 then error_message0 else error_message job;
             started_at := started_at job; completed_at := completed_at job;
             model_path := model_path job |}]> training_jobs
  | None => training_jobs
  end.

Definition _complete_job (training_jobs : gmap string TrainingStatus)
    (job_id0 : string) (now : datetime) (model_id model_path0 : string)
    (metrics0 : gmap string pyfloat) (feature_importance0 : option (gmap string pyfloat))
  : gmap string TrainingStatus :=
  match training_jobs !! job_id0 with
  | Some job =>
      <[job_id0 :=
          {| job_id := job_id job; status := "completed"; progress := 100;
             metrics := Some metrics0; error_message := error_message job;
             started_at := started_at job; completed_at := Some now;
             model_path := Some model_path0 |}]> training_jobs
  | None => training_jobs
  end.

Definition _fail_job (training_jobs : gmap string TrainingStatus)
    (job_id0 : string) (now : datetime) (error_message0 : string)
  : gmap string TrainingStatus :=
  match training_jobs !! job_id0 with
  | Some job =>
      <[job_id0 :=
          {| job_id := job_id job; status := "failed"; progress := progress job;
             metrics := metrics job; error_message := Some error_message0;
             started_at := started_at job; completed_at := Some now;
             model_path := model_path job |}]> training_jobs
  | None => training_jobs
  end.

Definition get_training_status (training_jobs : gmap string TrainingStatus)
    (job_id0 : string) : option TrainingStatus :=
  training_jobs !! job_id0.

Definition cancel_training_job (training_jobs : gmap string TrainingStatus)
    (job_id0 : string) (now : datetime) : gmap string TrainingStatus * bool :=
  match training_jobs !! job_id0 with
  | Some job =>
      if bool_decide (status job ∈ ["queued"; "training"]) then
        (<[job_id0 :=
             {| job_id := job_id job; status := "cancelled"; progress := progress job;
                metrics := metrics job; error_message := error_message job;
                started_at := started_at job; completed_at := Some now;
                model_path := model_path job |}]> training_jobs, true)
      else (training_jobs, false)
  | None => (training_jobs, false)
  end.

(** [_create_model]: the estimator for [algorithm], or [ValueError].  The
    annotation of [algorithm] is not checked when the function is called: it
    compares whatever it is given with the members of the enum, and a member
    of a str-Enum is equal to its value. *)
Definition _create_model (w : world) (algorithm0 : string)
    (hyperparameters0 : option (gmap string Any)) : worker event (Estimator w) :=
  let params : gmap string Any := default ∅ hyperparameters0 in
  if bool_decide (algorithm0 = value XGBOOST) then
    call (External (Construct XGBOOST)) (construct w XGBOOST params)
  else if bool_decide (algorithm0 = value LIGHTGBM) then
    call (External (Construct LIGHTGBM)) (construct w LIGHTGBM params)
  else if bool_decide (algorithm0 = value RANDOM_FOREST) then
    let default_params : gmap string Any :=
      <["n_estimators" := AnyInt 100]> (<["random_state" := AnyInt 42]> ∅) in
    call (External (Construct RANDOM_FOREST))
         (construct w RANDOM_FOREST (params ∪ default_params))
  else if bool_decide (algorithm0 = value GRADIENT_BOOSTING) then
    let default_params : gmap string Any :=
      <["n_estimators" := AnyInt 100]> (<["random_state" := AnyInt 42]> ∅) in
    call (External (Construct GRADIENT_BOOSTING))
         (construct w GRADIENT_BOOSTING (params ∪ default_params))
  else if bool_decide (algorithm0 = value LINEAR_REGRESSION) then
    call (External (Construct LINEAR_REGRESSION)) (construct w LINEAR_REGRESSION params)
  else
    wraise ("Unsupported algorithm: " +:+ algorithm0).

Definition _calculate_metrics (w : world) (y_true y_pred : Frame w)
  : worker event (gmap string pyfloat) :=
  mse ← call (External (SklearnMetric "mean_squared_error")) (mean_squared_error w y_true y_pred);
  mse' ← call (External (SklearnMetric "mean_squared_error")) (mean_squared_error w y_true y_pred);
  mae ← call (External (SklearnMetric "mean_absolute_error")) (mean_absolute_error w y_true y_pred);
  r2 ← call (External (SklearnMetric "r2_score")) (r2_score w y_true y_pred);
  mret (<["mse" := mse]> (<["rmse" := np_sqrt w mse']>
         (<["mae" := mae]> (<["r2_score" := r2]> ∅)))).

(** [{col: float(v) for col, v in zip(columns, values)}]: a later duplicate wins. *)
Definition dict_of_zip (columns : list string) (values : list pyfloat) : gmap string pyfloat :=
  list_to_map (reverse (zip columns values)).

(** [_get_feature_importance]: whatever goes wrong inside is logged, and the
    answer is [None]. *)
Definition _get_feature_importance (w : world) (model : Estimator w)
    (feature_columns0 : list string) : option (gmap string pyfloat) :=
  match feature_importances_ w model with
  | Some (Ok importances) => Some (dict_of_zip feature_columns0 importances)
  | Some (Raise _) => None
  | None =>
      match coef_ w model with
      | Some (Ok coefficients) => Some (dict_of_zip feature_columns0 coefficients)
      | Some (Raise _) => None
      | None => None
      end
  end.

(** The [try] block of [_train_model]. *)
Definition _train_model_try (w : world) (request : TrainingRequest) : worker event unit :=
  emit (UpdateJobStatus "training" 10);;
  let dataset_path := os_path_join data_dir (dataset_id request +:+ ".csv") in
  found ← call (External (OsPathExists dataset_path)) (Ok (os_path_exists w dataset_path));
  (if negb found
   then wraise ("Dataset " +:+ dataset_id request +:+ " not found")
   else mret tt);;
  df ← call (External (PdReadCsv dataset_path)) (pd_read_csv w dataset_path);
  emit (UpdateJobStatus "training" 20);;
  X ← call (External GetItem) (getitem_columns w df (feature_columns request));
  y ← call (External GetItem) (getitem_column w df (target_column request));
  parts ← call (External TrainTestSplit)
            (train_test_split w X y (test_size request) (random_state request));
  let '(X_train, X_test, y_train, y_test) := parts in
  emit (UpdateJobStatus "training" 30);;
  model ← _create_model w (value (algorithm request)) (hyperparameters request);
  model ← call (External ModelFit) (fit w model X_train y_train);
  emit (UpdateJobStatus "training" 70);;
  y_pred ← call (External ModelPredict) (predict w model X_test);
  metrics0 ← _calculate_metrics w y_test y_pred;
  emit (UpdateJobStatus "training" 85);;
  let model_id := uuid4 w in
  let model_path0 := os_path_join models_dir (model_id +:+ ".pkl") in
  call (External (JoblibDump model_path0)) (joblib_dump w model model_path0);;
  let feature_importance0 := _get_feature_importance w model (feature_columns request) in
  emit (CompleteJob model_id model_path0 metrics0 feature_importance0).

(** [_train_model]: the actions of the worker, in order. *)
Definition _train_model (w : world) (request : TrainingRequest) : list event :=
  try_except (_train_model_try w request) (fun text => [FailJob text]).

(** One action of the worker on the job table. *)
Definition exec (job_id0 : string) (now : datetime) (e : event)
    (training_jobs : gmap string TrainingStatus) : result (gmap string TrainingStatus) :=
  match e with
  | UpdateJobStatus status0 progress0 =>
      Ok (_update_job_status training_jobs job_id0 status0 progress0 None)
  | CompleteJob model_id model_path0 metrics0 feature_importance0 =>
      Ok (_complete_job training_jobs job_id0 now model_id model_path0 metrics0
            feature_importance0)
  | FailJob error_message0 => Ok (_fail_job training_jobs job_id0 now error_message0)
  | External _ => Ok training_jobs
  end.

(** [os.path.basename] *)
Fixpoint os_path_basename (path : string) : string :=
  match path with
  | EmptyString => EmptyString
  | String c rest =>
      if bool_decide (c = "/"%char) then os_path_basename rest
      else if bool_decide ("/"%char ∈ String.list_ascii_of_string rest) then os_path_basename rest
      else path
  end.

Fixpoint string_drop (n : nat) (s : string) : string :=
  match n, s with
  | O, _ => s
  | S n', String _ s' => string_drop n' s'
  | S _, EmptyString => EmptyString
  end.

Fixpoint str_replace_fuel (fuel : nat) (old new s : string) : string :=
  match fuel with
  | O => s
  | S fuel' =>
      match s with
      | EmptyString => EmptyString
      | String c s' =>
          if String.prefix old s
          then new +:+ str_replace_fuel fuel' old new (string_drop (String.length old) s)
          else String c (str_replace_fuel fuel' old new s')
      end
  end.

(** [s.replace(old, new)] for a non-empty [old]. *)
Definition str_replace (old new s : string) : string :=
  str_replace_fuel (S (String.length s)) old new s.

Definition get_training_result (training_jobs : gmap string TrainingStatus)
    (job_id0 : string) (now : datetime) : option TrainingResult :=
  match get_training_status training_jobs job_id0 with
  | None => None
  | Some job_status =>
      if bool_decide (status job_status ≠ "completed") then None
      else
        Some {| res_job_id := job_id0;
                res_model_id :=
                  match model_path job_status with
                  | Some p =>
                      if bool_decide (p = "") then ""
                      else str_replace ".pkl" "" (os_path_basename p)
                  | None => ""
                  end;
                res_algorithm := "unknown";
                res_metrics := default ∅ (metrics job_status);
                feature_importance := None;
                training_duration := 0;
                model_size := 0;
                res_created_at := default now (completed_at job_status) |}
  end.

Definition kind_of (e : event) : kind :=
  match e with
  | UpdateJobStatus status0 progress0 => KUpdate status0 progress0
  | CompleteJob _ _ _ _ => KComplete
  | FailJob text => KFail text
  | External _ => KSilent
  end.

(** The part of a training job that all job kinds share. *)
Definition view_of (job : TrainingStatus) : view :=
  View (status job) (progress job) (bool_decide (is_Some (metrics job))) (error_message job).

(** A submitted job and its worker. *)
Definition submitted (w : world) (training_jobs : gmap string TrainingStatus)
    (new_job_id : string) (now : datetime) (request : TrainingRequest)
  : sys TrainingStatus event :=
  Sys (fst (start_training training_jobs new_job_id now request)) (_train_model w request).

(** A caller that has the arguments of a request: it builds the request and
    starts the training,
    [start_training(TrainingRequest( **payload ))].  When the request is not
    valid its construction raises, and [start_training] is not reached: no job
    is registered and no worker is submitted. *)
Definition start_training_with (w : world) (training_jobs : gmap string TrainingStatus)
    (new_job_id : string) (now : datetime) (payload : TrainingPayload)
  : option TrainingResponse * sys TrainingStatus event :=
  match TrainingRequest_new payload with
  | Some request =>
      (Some (snd (start_training training_jobs new_job_id now request)),
       submitted w training_jobs new_job_id now request)
  | None => (None, Sys training_jobs [])
  end.

Definition step_job := step exec (fun text => [FailJob text]) cancel_training_job.
Definition run_job := run exec (fun text => [FailJob text]) cancel_training_job.
Definition history_job := history exec (fun text => [FailJob text]) cancel_training_job.

End Training.

(* ================================================================== *)
(** ** app/services/prediction_service.py *)

(** [range(start, stop, step)] for a positive [step]. *)
Definition py_range (start stop step : Z) : list Z :=
  map (fun k : nat => start + Z.of_nat k * step)
      (seq 0 (Z.to_nat ((stop - start + step - 1) / step))).

(** [for x in xs: acc = body(acc, x)], stopping at the first exception. *)
Fixpoint for_each {E S X : Type} (body : S -> X -> worker E S) (xs : list X) (acc : S)
  : worker E S :=
  match xs with
  | [] => mret acc
  | x :: xs' => acc' ← body acc x; for_each body xs' acc'
  end.

(** An outcome that is not a recorded call. *)
Definition wlift {E A} (r : result A) : worker E A := ([], r).

(** [df[column] = values] in pandas: the lengths must agree. *)
Definition setitem_column {A B} (df : list A) (values : list B) : result unit :=
  if bool_decide (length values = length df) then Ok tt
  else Raise ("Length of values (" +:+ pretty (length values) +:+
              ") does not match length of index (" +:+ pretty (length df) +:+ ")").

(** Truth value of an [Optional[List]]: [None] and [[]] are false. *)
Definition truthy_list {A} (l : option (list A)) : bool :=
  match l with
  | Some (_ :: _) => true
  | _ => false
  end.

Module Prediction.

Record BatchPredictionRequest : Type := {
  req_model_id : string;
  req_dataset_id : string;
  output_format : string;
  include_confidence : bool
}.

Record BatchPredictionResponse : Type := {
  resp_job_id : string;
  resp_status : string;
  resp_message : string;
  resp_created_at : datetime;
  resp_estimated_duration : option Z
}.

Record PredictionJob : Type := {
  job_id : string;
  model_id : string;
  dataset_id : string;
  status : string;
  progress : Q;
  total_records : Z;
  processed_records : Z;
  output_path : option string;
  error_message : option string;
  started_at : option datetime;
  completed_at : option datetime
}.

Definition models_dir : string := "models".
Definition data_dir : string := "data".
Definition outputs_dir : string := "outputs".

(** The collaborators of prediction.  A DataFrame is the list of its rows. *)
Record world : Type := {
  Row : Type;
  Estimator : Type;
  os_path_exists : string -> bool;
  pd_read_csv : string -> result (list Row);
  joblib_load : string -> result Estimator;
  (* [[float(p) for p in model.predict(df)]] *)
  predict : Estimator -> list Row -> result (list pyfloat);
  (* the [try] block of [_calculate_confidence_scores] (numpy arithmetic) *)
  confidence_try : Estimator -> list Row -> list pyfloat -> result (list pyfloat);
  isoformat_now : string;
  write_file : string -> result unit                     (* open(path, 'w') and the dump *)
}.

(** The dict written by [json.dump]. *)
Record output_data : Type := {
  out_predictions : list pyfloat;
  out_model_id : string;
  out_dataset_id : string;
  out_created_at : string;
  out_confidence_scores : option (list pyfloat)          (* key absent when [None] *)
}.

(** The frame written by [to_csv]: the data set and the added columns. *)
Record result_df (w : world) : Type := {
  csv_rows : list (Row w);
  csv_prediction : list pyfloat;
  csv_confidence : option (list pyfloat)
}.
Arguments csv_rows {w} _.
Arguments csv_prediction {w} _.
Arguments csv_confidence {w} _.

Inductive external (w : world) : Type :=
| OsPathExists (path : string)
| PdReadCsv (path : string)
| JoblibLoad (path : string)
| ModelPredict (rows : nat)
| ConfidenceScores (rows : nat)
| JsonDump (path : string) (data : output_data)
| ToCsv (path : string) (data : result_df w).
Arguments OsPathExists {w} path.
Arguments PdReadCsv {w} path.
Arguments JoblibLoad {w} path.
Arguments ModelPredict {w} rows.
Arguments ConfidenceScores {w} rows.
Arguments JsonDump {w} path data.
Arguments ToCsv {w} path data.

(** The atomic actions of [_run_batch_prediction]. *)
Inductive event (w : world) : Type :=
| UpdateJobStatus (status : string) (progress : Q)
| SetTotalRecords (n : Z)          (* self.prediction_jobs[job_id].total_records = n *)
| SetProcessedRecords (n : Z)      (* self.prediction_jobs[job_id].processed_records = n *)
| CompleteJob (output_path : string)
| FailJob (error_message : string)
| External (c : external w).
Arguments UpdateJobStatus {w} status progress.
Arguments SetTotalRecords {w} _.
Arguments SetProcessedRecords {w} _.
Arguments CompleteJob {w} output_path.
Arguments FailJob {w} error_message.
Arguments External {w} _.

(** [start_batch_prediction], up to the submission of the worker. *)
Definition start_batch_prediction (prediction_jobs : gmap string PredictionJob)
    (new_job_id : string) (now : datetime) (request : BatchPredictionRequest)
  : gmap string PredictionJob * BatchPredictionResponse :=
  let job :=
    {| job_id := new_job_id; model_id := req_model_id request;
       dataset_id := req_dataset_id request; status := "queued"; progress := 0;
       total_records := 0; processed_records := 0; output_path := None;
       error_message := None; started_at := Some now; completed_at := None |} in
  (<[new_job_id := job]> prediction_jobs,
   {| resp_job_id := new_job_id; resp_status := "queued";
      resp_message := "Batch prediction job has been queued";
      resp_created_at := now; resp_estimated_duration := Some 60 |}).

Definition _update_job_status (prediction_jobs : gmap string PredictionJob)
    (job_id0 status0 : string) (progress0 : Q) (error_message0 : option string)
  : gmap string PredictionJob :=
  match prediction_jobs !! job_id0 with
  | Some job =>
      <[job_id0 :=
          {| job_id := job_id job; model_id := model_id job; dataset_id := dataset_id job;
             status := status0; progress := progress0;
             total_records := total_records job;
             processed_records := processed_records job;
             output_path := output_path job;
             error_message :=
               if truthy_str error_message0 then error_message0 else error_message job;
             started_at := started_at job; completed_at := completed_at job |}]>
        prediction_jobs
  | None => prediction_jobs
  end.

Definition _fail_job (prediction_jobs : gmap string PredictionJob)
    (job_id0 : string) (now : datetime) (error_message0 : string)
  : gmap string PredictionJob :=
  match prediction_jobs !! job_id0 with
  | Some job =>
      <[job_id0 :=
          {| job_id := job_id job; model_id := model_id job; dataset_id := dataset_id job;
             status := "failed"; progress := progress job;
             total_records := total_records job;
             processed_records := processed_records job;
             output_path := output_path job;
             error_message := Some error_message0;
             started_at := started_at job; completed_at := Some now |}]>
        prediction_jobs
  | None => prediction_jobs
  end.

(** [with self.job_lock: self.prediction_jobs[job_id].total_records = n] *)
Definition set_total_records (prediction_jobs : gmap string PredictionJob)
    (job_id0 : string) (n : Z) : result (gmap string PredictionJob) :=
  match prediction_jobs !! job_id0 with
  | Some job =>
      Ok (<[job_id0 :=
              {| job_id := job_id job; model_id := model_id job;
                 dataset_id := dataset_id job; status := status job;
                 progress := progress job; total_records := n;
                 processed_records := processed_records job;
                 output_path := output_path job; error_message := error_message job;
                 started_at := started_at job; completed_at := completed_at job |}]>
            prediction_jobs)
  | None => Raise (str_KeyError job_id0)
  end.

(** [with self.job_lock: self.prediction_jobs[job_id].processed_records = n] *)
Definition set_processed_records (prediction_jobs : gmap string PredictionJob)
    (job_id0 : string) (n : Z) : result (gmap string PredictionJob) :=
  match prediction_jobs !! job_id0 with
  | Some job =>
      Ok (<[job_id0 :=
              {| job_id := job_id job; model_id := model_id job;
                 dataset_id := dataset_id job; status := status job;
                 progress := progress job; total_records := total_records job;
                 processed_records := n;
                 output_path := output_path job; error_message := error_message job;
                 started_at := started_at job; completed_at := completed_at job |}]>
            prediction_jobs)
  | None => Raise (str_KeyError job_id0)
  end.

(** The "Complete job" block that ends the [try] of [_run_batch_prediction]. *)
Definition complete_job (prediction_jobs : gmap string PredictionJob)
    (job_id0 : string) (now : datetime) (output_path0 : string)
  : result (gmap string PredictionJob) :=
  match prediction_jobs !! job_id0 with
  | Some job =>
      Ok (<[job_id0 :=
              {| job_id := job_id job; model_id := model_id job;
                 dataset_id := dataset_id job; status := "completed";
                 progress := 100; total_records := total_records job;
                 processed_records := processed_records job;
                 output_path := Some output_path0; error_message := error_message job;
                 started_at := started_at job; completed_at := Some now |}]>
            prediction_jobs)
  | None => Raise (str_KeyError job_id0)
  end.

Definition get_prediction_job_status (prediction_jobs : gmap string PredictionJob)
    (job_id0 : string) : option PredictionJob :=
  prediction_jobs !! job_id0.

Definition cancel_prediction_job (prediction_jobs : gmap string PredictionJob)
    (job_id0 : string) (now : datetime) : gmap string PredictionJob * bool :=
  match prediction_jobs !! job_id0 with
  | Some job =>
      if bool_decide (status job ∈ ["queued"; "running"]) then
        (<[job_id0 :=
             {| job_id := job_id job; model_id := model_id job;
                dataset_id := dataset_id job; status := "cancelled";
                progress := progress job; total_records := total_records job;
                processed_records := processed_records job;
                output_path := output_path job; error_message := error_message job;
                started_at := started_at job; completed_at := Some now |}]>
           prediction_jobs, true)
      else (prediction_jobs, false)
  | None => (prediction_jobs, false)
  end.

(** [_calculate_confidence_scores]: an exception inside is logged, and the
    answer is [None]. *)
Definition _calculate_confidence_scores (w : world) (model : Estimator w)
    (df : list (Row w)) (predictions : list pyfloat) : option (list pyfloat) :=
  match confidence_try w model df predictions with
  | Ok confidence => Some confidence
  | Raise _ => None
  end.

Definition batch_size : Z := 1000.

(** The body of [for i in range(0, total_records, batch_size)]; the loop
    carries [predictions] and [confidence_scores]. *)
Definition batch_body (w : world) (request : BatchPredictionRequest)
    (model : Estimator w) (df : list (Row w)) (total_records0 : Z)
    (acc : list pyfloat * option (list pyfloat)) (i : Z)
  : worker (event w) (list pyfloat * option (list pyfloat)) :=
  let '(predictions, confidence_scores) := acc in
  let batch_df := take (Z.to_nat batch_size) (drop (Z.to_nat i) df) in
  batch_predictions ←
    call (External (ModelPredict (length batch_df))) (predict w model batch_df);
  let predictions := predictions ++ batch_predictions in
  confidence_scores ←
    (if include_confidence request then
       batch_confidence ←
         call (External (ConfidenceScores (length batch_df)))
              (Ok (_calculate_confidence_scores w model batch_df batch_predictions));
       mret (if truthy_list batch_confidence
             then (fun scores => scores ++ default [] batch_confidence) <$> confidence_scores
             else confidence_scores)
     else mret confidence_scores);
  let processed_records0 := Z.min (i + batch_size) total_records0 in
  let progress0 := (20 + (inject_Z processed_records0 / inject_Z total_records0) * 60)%Q in
  emit (SetProcessedRecords processed_records0);;
  emit (UpdateJobStatus "running" progress0);;
  mret (predictions, confidence_scores).

(** The [try] block of [_run_batch_prediction]. *)
Definition _run_batch_prediction_try (w : world) (job_id0 : string)
    (request : BatchPredictionRequest) : worker (event w) unit :=
  emit (UpdateJobStatus "running" 5);;
  let dataset_path := os_path_join data_dir (req_dataset_id request +:+ ".csv") in
  found ← call (External (OsPathExists dataset_path)) (Ok (os_path_exists w dataset_path));
  (if negb found
   then wraise ("Dataset " +:+ req_dataset_id request +:+ " not found")
   else mret tt);;
  df ← call (External (PdReadCsv dataset_path)) (pd_read_csv w dataset_path);
  let total_records0 := Z.of_nat (length df) in
  emit (SetTotalRecords total_records0);;
  emit (UpdateJobStatus "running" 10);;
  let model_path := os_path_join models_dir (req_model_id request +:+ ".pkl") in
  found ← call (External (OsPathExists model_path)) (Ok (os_path_exists w model_path));
  (if negb found
   then wraise ("Model " +:+ req_model_id request +:+ " not found")
   else mret tt);;
  model ← call (External (JoblibLoad model_path)) (joblib_load w model_path);
  emit (UpdateJobStatus "running" 20);;
  acc ← for_each (batch_body w request model df total_records0)
        (py_range 0 total_records0 batch_size)
        ([], if include_confidence request then Some [] else None);
  let '(predictions, confidence_scores) := acc in
  let confidence_key := if truthy_list confidence_scores then confidence_scores else None in
  output_path0 ←
    (if bool_decide (output_format request = "json") then
       let output_path0 := os_path_join outputs_dir (job_id0 +:+ "_predictions.json") in
       call (External (JsonDump output_path0
                         {| out_predictions := predictions;
                            out_model_id := req_model_id request;
                            out_dataset_id := req_dataset_id request;
                            out_created_at := isoformat_now w;
                            out_confidence_scores := confidence_key |}))
            (write_file w output_path0);;
       mret output_path0
     else
       let output_path0 := os_path_join outputs_dir (job_id0 +:+ "_predictions.csv") in
       wlift (setitem_column df predictions);;
       (if truthy_list confidence_scores
        then wlift (setitem_column df (default [] confidence_scores))
        else mret tt);;
       call (External (ToCsv output_path0
                         {| csv_rows := df; csv_prediction := predictions;
                            csv_confidence := confidence_key |}))
            (write_file w output_path0);;
       mret output_path0);
  emit (CompleteJob output_path0).

(** [_run_batch_prediction]: the actions of the worker, in order. *)
Definition _run_batch_prediction (w : world) (job_id0 : string)
    (request : BatchPredictionRequest) : list (event w) :=
  try_except (_run_batch_prediction_try w job_id0 request) (fun text => [FailJob text]).

(** One action of the worker on the job table. *)
Definition exec {w : world} (job_id0 : string) (now : datetime) (e : event w)
    (prediction_jobs : gmap string PredictionJob) : result (gmap string PredictionJob) :=
  match e with
  | UpdateJobStatus status0 progress0 =>
      Ok (_update_job_status prediction_jobs job_id0 status0 progress0 None)
  | SetTotalRecords n => set_total_records prediction_jobs job_id0 n
  | SetProcessedRecords n => set_processed_records prediction_jobs job_id0 n
  | CompleteJob output_path0 => complete_job prediction_jobs job_id0 now output_path0
  | FailJob error_message0 => Ok (_fail_job prediction_jobs job_id0 now error_message0)
  | External _ => Ok prediction_jobs
  end.

Definition kind_of {w : world} (e : event w) : kind :=
  match e with
  | UpdateJobStatus status0 progress0 => KUpdate status0 progress0
  | CompleteJob _ => KComplete
  | FailJob text => KFail text
  | SetTotalRecords _ | SetProcessedRecords _ | External _ => KSilent
  end.

Definition view_of (job : PredictionJob) : view :=
  View (status job) (progress job) (bool_decide (is_Some (output_path job)))
       (error_message job).

(** A submitted job and its worker. *)
Definition submitted (w : world) (prediction_jobs : gmap string PredictionJob)
    (new_job_id : string) (now : datetime) (request : BatchPredictionRequest)
  : sys PredictionJob (event w) :=
  Sys (fst (start_batch_prediction prediction_jobs new_job_id now request))
      (_run_batch_prediction w new_job_id request).

Definition step_job {w : world} :=
  step (@exec w) (fun text => [FailJob text]) cancel_prediction_job.
Definition run_job {w : world} :=
  run (@exec w) (fun text => [FailJob text]) cancel_prediction_job.
Definition history_job {w : world} :=
  history (@exec w) (fun text => [FailJob text]) cancel_prediction_job.

(** *** The model cache

    A loaded model is an object; [objects] lists the objects [joblib.load]
    has created so far, and a reference to one is its position there. *)
Record cache_state (w : world) : Type := CacheState {
  models_cache : gmap string nat;
  objects : list (Estimator w)
}.
Arguments CacheState {w} models_cache objects.
Arguments models_cache {w} _.
Arguments objects {w} _.

Definition _load_model (w : world) (s : cache_state w) (model_id0 : string)
  : result nat * cache_state w :=
  match models_cache s !! model_id0 with
  | Some ref => (Ok ref, s)
  | None =>
      let model_path := os_path_join models_dir (model_id0 +:+ ".pkl") in
      if negb (os_path_exists w model_path) then
        (Raise ("Model " +:+ model_id0 +:+ " not found"), s)
      else
        match joblib_load w model_path with
        | Raise text => (Raise text, s)
        | Ok model =>
            let ref := length (objects s) in
            (Ok ref, CacheState (<[model_id0 := ref]> (models_cache s)) (objects s ++ [model]))
        end
  end.

Definition clear_model_cache (w : world) (s : cache_state w) : cache_state w :=
  CacheState ∅ (objects s).

(** The object behind a reference. *)
Definition deref {w : world} (s : cache_state w) (ref : nat) : option (Estimator w) :=
  objects s !! ref.

End Prediction.

(* ================================================================== *)
(** ** app/services/validation_service.py *)

(** [d[k] = v] on a dict, whose iteration order is the order of first insertion. *)
Fixpoint dict_set {V : Type} (d : list (string * V)) (k : string) (v : V)
  : list (string * V) :=
  match d with
  | [] => [(k, v)]
  | (k', v') :: d' =>
      if bool_decide (k' = k) then (k, v) :: d' else (k', v') :: dict_set d' k v
  end.

Module Validation.

Record ValidationRequest : Type := {
  req_model_id : string;
  req_dataset_id : string;
  validation_type : string;
  cv_folds : Z;
  req_metrics : list string
}.

Record ValidationResponse : Type := {
  resp_job_id : string;
  resp_status : string;
  resp_message : string;
  resp_created_at : datetime;
  resp_estimated_duration : option Z
}.

(** The collaborators of validation. *)
Record world : Type := {
  Frame : Type;                                       (* DataFrame, Series, ndarray *)
  Estimator : Type;
  Report : Type;                                      (* classification_report(...) *)
  os_path_exists : string -> bool;
  pd_read_csv : string -> result Frame;
  columns : Frame -> list string;
  getitem_columns : Frame -> list string -> result Frame;
  getitem_column : Frame -> string -> result Frame;
  nunique : Frame -> Z;
  is_numeric_dtype : Frame -> bool;
  joblib_load : string -> result Estimator;
  train_test_split : Frame -> Frame -> result (Frame * Frame * Frame * Frame);
  fit : Estimator -> Frame -> Frame -> result Estimator;
  predict : Estimator -> Frame -> result Frame;
  mean_squared_error : Frame -> Frame -> result pyfloat;
  mean_absolute_error : Frame -> Frame -> result pyfloat;
  r2_score : Frame -> Frame -> result pyfloat;
  np_sqrt : pyfloat -> pyfloat;
  accuracy_score : Frame -> Frame -> result pyfloat;
  precision_score : Frame -> Frame -> result pyfloat;
  recall_score : Frame -> Frame -> result pyfloat;
  f1_score : Frame -> Frame -> result pyfloat;
  (* [self._perform_cross_validation(model, X, y, cv_folds, metrics, is_regression)]
     and [self._perform_holdout_validation(model, X, y, metrics, is_regression)]:
     neither touches the job table; the dict they return, or the exception *)
  _perform_cross_validation :
    Estimator -> Frame -> Frame -> Z -> list string -> bool ->
    result (gmap string pyfloat * option (gmap string (list pyfloat)) *
            option (list (list Z)) * option Report * pyfloat);
  _perform_holdout_validation :
    Estimator -> Frame -> Frame -> list string -> bool ->
    result (gmap string pyfloat * option (gmap string (list pyfloat)) *
            option (list (list Z)) * option Report * pyfloat)
}.

Record ValidationResult (w : world) : Type := {
  res_job_id : string;
  res_model_id : string;
  res_dataset_id : string;
  res_validation_type : string;
  res_metrics : gmap string pyfloat;
  cross_validation_scores : option (gmap string (list pyfloat));
  confusion_matrix : option (list (list Z));
  classification_report : option (Report w);
  validation_duration : pyfloat
}.
Arguments res_job_id {w} _.
Arguments res_metrics {w} _.

Record ModelComparison : Type := {
  cmp_models : list string;
  cmp_dataset_id : string;
  cmp_metrics : list (string * gmap string pyfloat);
  best_model : string;
  cmp_comparison_criteria : string;
  cmp_created_at : datetime
}.

Record ValidationJob (w : world) : Type := {
  job_id : string;
  model_id : string;
  dataset_id : string;
  status : string;
  progress : Q;
  error_message : option string;
  started_at : option datetime;
  completed_at : option datetime;
  result_ : option (ValidationResult w)
}.
Arguments job_id {w} _.
Arguments model_id {w} _.
Arguments dataset_id {w} _.
Arguments status {w} _.
Arguments progress {w} _.
Arguments error_message {w} _.
Arguments started_at {w} _.
Arguments completed_at {w} _.
Arguments result_ {w} _.

Definition models_dir : string := "models".
Definition data_dir : string := "data".

Inductive external : Type :=
| OsPathExists (path : string)
| PdReadCsv (path : string)
| JoblibLoad (path : string)
| GetItem
| PerformCrossValidation
| PerformHoldoutValidation.

(** The atomic actions of [_run_validation]. *)
Inductive event (w : world) : Type :=
| UpdateJobStatus (status : string) (progress : Q)
| CompleteJob (result0 : ValidationResult w)
| FailJob (error_message : string)
| External (c : external).
Arguments UpdateJobStatus {w} status progress.
Arguments CompleteJob {w} result0.
Arguments FailJob {w} error_message.
Arguments External {w} _.

(** [start_validation], up to the submission of the worker. *)
Definition start_validation {w : world} (validation_jobs : gmap string (ValidationJob w))
    (new_job_id : string) (now : datetime) (request : ValidationRequest)
  : gmap string (ValidationJob w) * ValidationResponse :=
  let job :=
    {| job_id := new_job_id; model_id := req_model_id request;
       dataset_id := req_dataset_id request; status := "queued"; progress := 0;
       error_message := None; started_at := Some now; completed_at := None;
       result_ := None |} in
  (<[new_job_id := job]> validation_jobs,
   {| resp_job_id := new_job_id; resp_status := "queued";
      resp_message := "Validation job has been queued";
      resp_created_at := now; resp_estimated_duration := Some 120 |}).

Definition _update_job_status {w : world} (validation_jobs : gmap string (ValidationJob w))
    (job_id0 status0 : string) (progress0 : Q) (error_message0 : option string)
  : gmap string (ValidationJob w) :=
  match validation_jobs !! job_id0 with
  | Some job =>
      <[job_id0 :=
          {| job_id := job_id job; model_id := model_id job; dataset_id := dataset_id job;
             status := status0; progress := progress0;
             error_message :=
               if truthy_str error_message0 then error_message0 else error_message job;
             started_at := started_at job; completed_at := completed_at job;
             result_ := result_ job |}]> validation_jobs
  | None => validation_jobs
  end.

Definition _fail_job {w : world} (validation_jobs : gmap string (ValidationJob w))
    (job_id0 : string) (now : datetime) (error_message0 : string)
  : gmap string (ValidationJob w) :=
  match validation_jobs !! job_id0 with
  | Some job =>
      <[job_id0 :=
          {| job_id := job_id job; model_id := model_id job; dataset_id := dataset_id job;
             status := "failed"; progress := progress job;
             error_message := Some error_message0;
             started_at := started_at job; completed_at := Some now;
             result_ := result_ job |}]> validation_jobs
  | None => validation_jobs
  end.

(** The "Complete job" block that ends the [try] of [_run_validation]. *)
Definition complete_job {w : world} (validation_jobs : gmap string (ValidationJob w))
    (job_id0 : string) (now : datetime) (result0 : ValidationResult w)
  : result (gmap string (ValidationJob w)) :=
  match validation_jobs !! job_id0 with
  | Some job =>
      Ok (<[job_id0 :=
              {| job_id := job_id job; model_id := model_id job;
                 dataset_id := dataset_id job; status := "completed"; progress := 100;
                 error_message := error_message job;
                 started_at := started_at job; completed_at := Some now;
                 result_ := Some result0 |}]> validation_jobs)
  | None => Raise (str_KeyError job_id0)
  end.

Definition get_validation_job_status {w : world}
    (validation_jobs : gmap string (ValidationJob w)) (job_id0 : string)
  : option (ValidationJob w) :=
  validation_jobs !! job_id0.

Definition get_validation_result {w : world}
    (validation_jobs : gmap string (ValidationJob w)) (job_id0 : string)
  : option (ValidationResult w) :=
  match get_validation_job_status validation_jobs job_id0 with
  | Some job => result_ job
  | None => None
  end.

Definition cancel_validation_job {w : world}
    (validation_jobs : gmap string (ValidationJob w)) (job_id0 : string) (now : datetime)
  : gmap string (ValidationJob w) * bool :=
  match validation_jobs !! job_id0 with
  | Some job =>
      if bool_decide (status job ∈ ["queued"; "running"]) then
        (<[job_id0 :=
             {| job_id := job_id job; model_id := model_id job;
                dataset_id := dataset_id job; status := "cancelled";
                progress := progress job; error_message := error_message job;
                started_at := started_at job; completed_at := Some now;
                result_ := result_ job |}]> validation_jobs, true)
      else (validation_jobs, false)
  | None => (validation_jobs, false)
  end.

Definition _is_regression_problem (w : world) (y : Frame w) : bool :=
  let unique_values := nunique w y in
  let is_numeric := is_numeric_dtype w y in
  is_numeric && bool_decide (unique_values > 10).

Definition _calculate_regression_metrics (w : world) (y_true y_pred : Frame w)
  : result (gmap string pyfloat) :=
  mse ← mean_squared_error w y_true y_pred;
  mse' ← mean_squared_error w y_true y_pred;
  mae ← mean_absolute_error w y_true y_pred;
  r2 ← r2_score w y_true y_pred;
  mret (<["mse" := mse]> (<["rmse" := np_sqrt w mse']>
         (<["mae" := mae]> (<["r2_score" := r2]> ∅)))).

Definition _calculate_classification_metrics (w : world) (y_true y_pred : Frame w)
  : result (gmap string pyfloat) :=
  accuracy ← accuracy_score w y_true y_pred;
  precision ← precision_score w y_true y_pred;
  recall ← recall_score w y_true y_pred;
  f1 ← f1_score w y_true y_pred;
  mret (<["accuracy" := accuracy]> (<["precision" := precision]>
         (<["recall" := recall]> (<["f1_score" := f1]> ∅)))).

(** [df.columns[-1]] *)
Definition last_column (w : world) (df : Frame w) : result string :=
  match last (columns w df) with
  | Some c => Ok c
  | None => Raise "index -1 is out of bounds for axis 0 with size 0"
  end.

(** The [try] block of [_run_validation]. *)
Definition _run_validation_try (w : world) (job_id0 : string) (request : ValidationRequest)
  : worker (event w) unit :=
  emit (UpdateJobStatus "running" 10);;
  let dataset_path := os_path_join data_dir (req_dataset_id request +:+ ".csv") in
  found ← call (External (OsPathExists dataset_path)) (Ok (os_path_exists w dataset_path));
  (if negb found
   then wraise ("Dataset " +:+ req_dataset_id request +:+ " not found")
   else mret tt);;
  df ← call (External (PdReadCsv dataset_path)) (pd_read_csv w dataset_path);
  emit (UpdateJobStatus "running" 20);;
  let model_path := os_path_join models_dir (req_model_id request +:+ ".pkl") in
  found ← call (External (OsPathExists model_path)) (Ok (os_path_exists w model_path));
  (if negb found
   then wraise ("Model " +:+ req_model_id request +:+ " not found")
   else mret tt);;
  model ← call (External (JoblibLoad model_path)) (joblib_load w model_path);
  emit (UpdateJobStatus "running" 30);;
  target_column ← wlift (last_column w df);
  let feature_columns := removelast (columns w df) in
  X ← call (External GetItem) (getitem_columns w df feature_columns);
  y ← call (External GetItem) (getitem_column w df target_column);
  let is_regression := _is_regression_problem w y in
  validation_result ←
    (if bool_decide (validation_type request = "cross_validation") then
       call (External PerformCrossValidation)
            (_perform_cross_validation w model X y (cv_folds request)
               (req_metrics request) is_regression)
     else
       call (External PerformHoldoutValidation)
            (_perform_holdout_validation w model X y (req_metrics request) is_regression));
  emit (UpdateJobStatus "running" 80);;
  let '(metrics0, cv_scores, matrix, report, duration) := validation_result in
  let result0 :=
    {| res_job_id := job_id0; res_model_id := req_model_id request;
       res_dataset_id := req_dataset_id request;
       res_validation_type := validation_type request;
       res_metrics := metrics0; cross_validation_scores := cv_scores;
       confusion_matrix := matrix; classification_report := report;
       validation_duration := duration |} in
  emit (CompleteJob result0).

(** [_run_validation]: the actions of the worker, in order. *)
Definition _run_validation (w : world) (job_id0 : string) (request : ValidationRequest)
  : list (event w) :=
  try_except (_run_validation_try w job_id0 request) (fun text => [FailJob text]).

(** One action of the worker on the job table. *)
Definition exec {w : world} (job_id0 : string) (now : datetime) (e : event w)
    (validation_jobs : gmap string (ValidationJob w))
  : result (gmap string (ValidationJob w)) :=
  match e with
  | UpdateJobStatus status0 progress0 =>
      Ok (_update_job_status validation_jobs job_id0 status0 progress0 None)
  | CompleteJob result0 => complete_job validation_jobs job_id0 now result0
  | FailJob error_message0 => Ok (_fail_job validation_jobs job_id0 now error_message0)
  | External _ => Ok validation_jobs
  end.

Definition kind_of {w : world} (e : event w) : kind :=
  match e with
  | UpdateJobStatus status0 progress0 => KUpdate status0 progress0
  | CompleteJob _ => KComplete
  | FailJob text => KFail text
  | External _ => KSilent
  end.

Definition view_of {w : world} (job : ValidationJob w) : view :=
  View (status job) (progress job) (bool_decide (is_Some (result_ job)))
       (error_message job).

(** A submitted job and its worker. *)
Definition submitted (w : world) (validation_jobs : gmap string (ValidationJob w))
    (new_job_id : string) (now : datetime) (request : ValidationRequest)
  : sys (ValidationJob w) (event w) :=
  Sys (fst (start_validation validation_jobs new_job_id now request))
      (_run_validation w new_job_id request).

Definition step_job {w : world} :=
  step (@exec w) (fun text => [FailJob text]) cancel_validation_job.
Definition run_job {w : world} :=
  run (@exec w) (fun text => [FailJob text]) cancel_validation_job.
Definition history_job {w : world} :=
  history (@exec w) (fun text => [FailJob text]) cancel_validation_job.

(** *** compare_models *)

(** The [try] block of the loop over [model_ids], after the existence test. *)
Definition evaluate_try (w : world) (X_train X_test y_train y_test : Frame w)
    (is_regression : bool) (model_path : string) : result (gmap string pyfloat) :=
  model ← joblib_load w model_path;
  model ← fit w model X_train y_train;
  y_pred ← predict w model X_test;
  if is_regression then _calculate_regression_metrics w y_test y_pred
  else _calculate_classification_metrics w y_test y_pred.

(** One round of [for model_id in model_ids]: [results] afterwards. *)
Definition evaluate_model (w : world) (X_train X_test y_train y_test : Frame w)
    (is_regression : bool) (results : list (string * gmap string pyfloat))
    (model_id0 : string) : list (string * gmap string pyfloat) :=
  let model_path := os_path_join models_dir (model_id0 +:+ ".pkl") in
  if negb (os_path_exists w model_path) then results        (* not found, skipping *)
  else
    match evaluate_try w X_train X_test y_train y_test is_regression model_path with
    | Ok metrics0 => dict_set results model_id0 metrics0
    | Raise _ => results                                     (* logged, continue *)
    end.

Definition higher_is_better (comparison_criteria : string) : bool :=
  bool_decide (comparison_criteria ∈
                 ["accuracy"; "precision"; "recall"; "f1_score"; "r2_score"]).

(** One round of [for model_id, metrics in results.items()]; the loop carries
    [best_model] and [best_score]. *)
Definition select_best (comparison_criteria : string)
    (acc : option string * pyfloat) (item : string * gmap string pyfloat)
  : option string * pyfloat :=
  let '(best_model0, best_score) := acc in
  let '(model_id0, metrics0) := item in
  match metrics0 !! comparison_criteria with
  | Some score =>
      if higher_is_better comparison_criteria then
        if float_gt score best_score then (Some model_id0, score) else acc
      else
        if float_lt score best_score then (Some model_id0, score) else acc
  | None => acc
  end.

(** [best_model or "none"] *)
Definition or_none (best_model0 : option string) : string :=
  if truthy_str best_model0 then default "none" best_model0 else "none".

Definition compare_models (w : world) (model_ids : list string) (dataset_id0 : string)
    (comparison_criteria : string) (now : datetime) : result ModelComparison :=
  let dataset_path := os_path_join data_dir (dataset_id0 +:+ ".csv") in
  if negb (os_path_exists w dataset_path) then
    Raise ("Dataset " +:+ dataset_id0 +:+ " not found")
  else
    df ← pd_read_csv w dataset_path;
    target_column ← last_column w df;
    let feature_columns := removelast (columns w df) in
    X ← getitem_columns w df feature_columns;
    y ← getitem_column w df target_column;
    parts ← train_test_split w X y;
    let '(X_train, X_test, y_train, y_test) := parts in
    let is_regression := _is_regression_problem w y in
    let results :=
      fold_left (evaluate_model w X_train X_test y_train y_test is_regression)
                model_ids [] in
    let best_score := if higher_is_better comparison_criteria then NegInf else PosInf in
    let best := fold_left (select_best comparison_criteria) results (None, best_score) in
    mret {| cmp_models := model_ids; cmp_dataset_id := dataset_id0;
            cmp_metrics := results; best_model := or_none (fst best);
            cmp_comparison_criteria := comparison_criteria; cmp_created_at := now |}.

End Validation.

(* ================================================================== *)
(** * Properties *)

(** ** The protocol keeps the invariant *)

(** Closes the routine fields of [job_inv]. *)
Ltac close_inv :=
  try done;
  try (by left); try (by right); try (split; done);
  try (intros [?|?]; done);
  try match goal with |- _ ∈ _ => set_solver end.

Section ViewProtocol.
Variable running : string.
Variable good : string -> Prop.
Hypothesis running_fresh : running ∉ ["queued"; "completed"; "failed"; "cancelled"].

Lemma running_neq :
  running <> "queued" /\ running <> "completed" /\ running <> "failed" /\
  running <> "cancelled".
Proof using running_fresh.
  repeat split; intros ->; apply running_fresh; set_solver.
Qed.

Lemma closed_cons_inv k rest :
  closed running (k :: rest) ->
  (rest = [] /\ is_final k) \/ (rest <> [] /\ is_inner running k /\ closed running rest).
Proof.
  destruct rest as [|k' rest']; simpl.
  - left; auto.
  - intros [Hi Hc]. right. split; [discriminate | auto].
Qed.

Lemma job_inv_start p rest :
  closed running (KUpdate running p :: rest) ->
  Forall good (fail_texts rest) ->
  nondecreasing_from 0 (writes (KUpdate running p :: rest)) ->
  job_inv running good (View "queued" 0 false None) (KUpdate running p :: rest).
Proof.
  intros Hc Ht Hp.
  constructor; simpl;
    [set_solver | eauto | intros [?|?]; done | auto | split; done | done | done | done].
Qed.

Lemma view_step_inv t v ks :
  job_inv running good v ks ->
  job_inv running good (fst (view_step running t (v, ks))) (snd (view_step running t (v, ks))).
Proof using running_fresh.
  destruct running_neq as (Nq & Nc & Nf & Nx).
  intros [Hst Hq Hd Hcl Hpay Herr Htx Hpr].
  destruct v as [st pr pl er]; simpl in *.
  assert (Hnp : ks <> [] -> pl = false).
  { intros Hne. destruct pl; [|done]. destruct Hne. apply Hd. left. by apply Hpay. }
  destruct t as [now|now]; simpl.
  - destruct ks as [|k rest]; simpl; [by constructor|].
    specialize (Hnp ltac:(discriminate)). subst pl.
    destruct Hcl as [Hcl|Hcl]; [discriminate|].
    apply closed_cons_inv in Hcl as [[-> Hfin]|(Hne & Hin & Hcl)].
    + destruct k; simpl in *; try done.
      * constructor; simpl; close_inv.
      * constructor; simpl; close_inv.
        intros _. exists text. split; [done|]. by inversion Htx.
    + destruct k; simpl in *; try done.
      * subst status. destruct Hpr as [_ Hpr].
        constructor; simpl; close_inv.
      * assert (st <> "queued") by (intros E; destruct (Hq E) as (? & ? & ?); done).
        assert (st <> "completed" /\ st <> "failed") as [? ?]
          by (split; intros E; discriminate Hd; auto).
        constructor; simpl; close_inv.
  - unfold cancel_view; simpl. case_bool_decide as Hin; simpl.
    + assert (st <> "completed") by (intros ->; set_solver).
      constructor; simpl; close_inv.
      split; [|done]. intros Hpl. by apply Hpay in Hpl.
    + by constructor.
Qed.

Lemma view_step_transition t v ks :
  job_inv running good v ks ->
  transition running (v_status v) (v_status (fst (view_step running t (v, ks)))).
Proof using running_fresh.
  destruct running_neq as (Nq & Nc & Nf & Nx).
  intros [Hst Hq Hd Hcl Hpay Herr Htx Hpr].
  destruct v as [st pr pl er]; simpl in *. unfold transition.
  assert (Hcases : st = "queued" \/ st = running \/ st = "completed" \/ st = "failed"
                   \/ st = "cancelled") by set_solver.
  destruct t as [now|now]; simpl.
  - destruct ks as [|k rest]; simpl; [by left|].
    assert (st <> "completed" /\ st <> "failed") as [? ?]
      by (split; intros E; discriminate Hd; auto).
    destruct Hcl as [Hcl|Hcl]; [discriminate|].
    apply closed_cons_inv in Hcl as [[-> Hfin]|(Hne & Hin & Hcl)].
    + destruct k; simpl in *; try done.
      * destruct Hcases as [E|[E|[E|[E|E]]]]; try done.
        -- apply Hq in E as (? & ? & ?); done.
        -- right; right; left. auto.
        -- right; right; right. auto.
      * destruct Hcases as [E|[E|[E|[E|E]]]]; try done.
        -- apply Hq in E as (? & ? & ?); done.
        -- right; right; left. auto.
        -- right; right; right. auto.
    + destruct k; simpl in *; try done; [|by left].
      subst status.
      destruct Hcases as [E|[E|[E|[E|E]]]]; try done.
      * right; left. auto.
      * left. done.
      * right; right; right. auto.
  - unfold cancel_view; simpl. case_bool_decide as Hin; simpl; [|by left].
    apply elem_of_cons in Hin as [->|Hin]; [right; left; auto|].
    apply list_elem_of_singleton in Hin as ->. right; right; left. auto.
Qed.

Lemma view_step_progress t v ks :
  job_inv running good v ks ->
  (v_progress v <= v_progress (fst (view_step running t (v, ks))))%Q.
Proof.
  intros [Hst Hq Hd Hcl Hpay Herr Htx Hpr].
  destruct v as [st pr pl er]; simpl in *.
  destruct t as [now|now]; simpl.
  - destruct ks as [|k rest]; simpl; [apply Qle_refl|].
    destruct k; simpl in *; try apply Qle_refl; tauto.
  - unfold cancel_view; simpl. case_bool_decide; simpl; apply Qle_refl.
Qed.

End ViewProtocol.

(** ** A service whose actions act on the view as their kind says *)

Section Simulation.
Context {Job E : Type}.
Variable exec : string -> datetime -> E -> gmap string Job -> result (gmap string Job).
Variable fail : string -> E.
Variable cancel_job : gmap string Job -> string -> datetime -> gmap string Job * bool.
Variable view_of : Job -> view.
Variable kind_of : E -> kind.
Variable running : string.
Variable good : string -> Prop.
Variable j : string.

Hypothesis running_fresh : running ∉ ["queued"; "completed"; "failed"; "cancelled"].
Hypothesis exec_present : forall now e (table : gmap string Job) job,
  table !! j = Some job ->
  exists table' job',
    exec j now e table = Ok table' /\ table' !! j = Some job' /\
    view_of job' = apply_kind (kind_of e) (view_of job).
Hypothesis cancel_present : forall now (table : gmap string Job) job,
  table !! j = Some job ->
  exists job',
    fst (cancel_job table j now) !! j = Some job' /\
    view_of job' = cancel_view running (view_of job).

Let step1 := step exec (fun text => [fail text]) cancel_job j.
Let run1 := run exec (fun text => [fail text]) cancel_job j.
Let history1 := history exec (fun text => [fail text]) cancel_job j.

Definition sys_inv (s : sys Job E) : Prop :=
  exists job, jobs s !! j = Some job /\
              job_inv running good (view_of job) (map kind_of (todo s)).

Lemma step_sim t s job :
  jobs s !! j = Some job ->
  exists job',
    jobs (step1 t s) !! j = Some job' /\
    (view_of job', map kind_of (todo (step1 t s)))
    = view_step running t (view_of job, map kind_of (todo s)).
Proof using exec_present cancel_present.
  intros Hj. destruct s as [table td]; simpl in *.
  destruct t as [now|now]; simpl.
  - destruct td as [|e rest]; simpl; [eauto|].
    destruct (exec_present now e table job Hj) as (table' & job' & -> & Hj' & Hv).
    simpl. exists job'. split; [done|]. by rewrite Hv.
  - destruct (cancel_present now table job Hj) as (job' & Hj' & Hv).
    exists job'. split; [done|]. by rewrite Hv.
Qed.

Lemma step_inv t s : sys_inv s -> sys_inv (step1 t s).
Proof using running_fresh exec_present cancel_present.
  intros (job & Hj & Hinv).
  destruct (step_sim t s job Hj) as (job' & Hj' & Heq).
  exists job'. split; [done|].
  pose proof (view_step_inv running good running_fresh t _ _ Hinv) as H.
  by rewrite <- Heq in H.
Qed.

Lemma step_observed t s :
  sys_inv s ->
  exists job job',
    jobs s !! j = Some job /\ jobs (step1 t s) !! j = Some job' /\
    transition running (v_status (view_of job)) (v_status (view_of job')) /\
    (v_progress (view_of job) <= v_progress (view_of job'))%Q.
Proof using running_fresh exec_present cancel_present.
  intros (job & Hj & Hinv).
  destruct (step_sim t s job Hj) as (job' & Hj' & Heq).
  exists job, job'. split; [done|]. split; [done|].
  pose proof (view_step_transition running good running_fresh t _ _ Hinv) as Ht.
  pose proof (view_step_progress running good t _ _ Hinv) as Hp.
  rewrite <- Heq in Ht, Hp. auto.
Qed.

Lemma run_inv sched s : sys_inv s -> sys_inv (run1 sched s).
Proof using running_fresh exec_present cancel_present.
  revert s. induction sched as [|t sched IH]; intros s Hs; simpl; [done|].
  apply IH. by apply step_inv.
Qed.

Lemma history_inv sched s : sys_inv s -> Forall sys_inv (history1 sched s).
Proof using running_fresh exec_present cancel_present.
  revert s. induction sched as [|t sched IH]; intros s Hs; simpl.
  - by constructor.
  - constructor; [done|]. apply IH. by apply step_inv.
Qed.

Lemma run_app sched1 sched2 s : run1 (sched1 ++ sched2) s = run1 sched2 (run1 sched1 s).
Proof. revert s. induction sched1 as [|t sched1 IH]; intros s; simpl; [done|apply IH]. Qed.

Lemma history_lookup sched s i s' :
  history1 sched s !! i = Some s' ->
  s' = run1 (take i sched) s /\ (i <= length sched)%nat.
Proof.
  revert s i. induction sched as [|t sched IH]; intros s i H; simpl in *.
  - destruct i; simpl in *; [|done]. by injection H as <-.
  - destruct i as [|i]; simpl in *.
    + injection H as <-. split; [done|lia].
    + destruct (IH _ _ H) as [-> ?]. split; [done|lia].
Qed.

Lemma history_adjacent sched s i s1 s2 :
  sys_inv s ->
  history1 sched s !! i = Some s1 ->
  history1 sched s !! S i = Some s2 ->
  sys_inv s1 /\ exists t, s2 = step1 t s1.
Proof using running_fresh exec_present cancel_present.
  intros Hs H1 H2.
  apply history_lookup in H1 as [-> _]. apply history_lookup in H2 as [-> Hlen].
  split; [by apply run_inv|].
  destruct (lookup_lt_is_Some_2 sched i ltac:(lia)) as [t Ht].
  exists t. rewrite (take_S_r _ _ _ Ht), run_app. done.
Qed.

Lemma history_later sched s i n s1 s2 :
  sys_inv s ->
  history1 sched s !! i = Some s1 ->
  history1 sched s !! (i + n)%nat = Some s2 ->
  sys_inv s1 /\ exists sched', s2 = run1 sched' s1.
Proof using running_fresh exec_present cancel_present.
  intros Hs H1 H2.
  apply history_lookup in H1 as [-> _]. apply history_lookup in H2 as [-> Hlen].
  split; [by apply run_inv|].
  exists (take n (drop i sched)). by rewrite <- run_app, take_take_drop.
Qed.

(** Once completed or failed, always so. *)
Lemma run_terminal sched s job :
  sys_inv s -> jobs s !! j = Some job ->
  v_status (view_of job) = "completed" \/ v_status (view_of job) = "failed" ->
  exists job', jobs (run1 sched s) !! j = Some job' /\ view_of job' = view_of job.
Proof using running_fresh exec_present cancel_present.
  revert s job. induction sched as [|t sched IH]; intros s job Hs Hj Hterm; simpl.
  - eauto.
  - destruct Hs as (job0 & Hj0 & Hinv). rewrite Hj in Hj0. injection Hj0 as <-.
    destruct (step_sim t s job Hj) as (job' & Hj' & Heq).
    assert (Hv : view_of job' = view_of job).
    { apply (f_equal fst) in Heq. simpl in Heq. rewrite Heq.
      pose proof (inv_done _ _ _ _ Hinv Hterm) as Hnil.
      destruct running_neq with running as (Nq & Nc & Nf & Nx); [done|].
      destruct t; simpl.
      - by rewrite Hnil.
      - unfold cancel_view. case_bool_decide as Hin; [|done].
        destruct Hterm as [Eq|Eq]; rewrite Eq in Hin; set_solver. }
    destruct (IH (step1 t s) job') as (job'' & Hj'' & Hv'').
    + apply step_inv. exists job. done.
    + done.
    + by rewrite Hv.
    + exists job''. split; [done|]. by rewrite Hv'', Hv.
Qed.

Lemma history_head sched s : exists rest, history1 sched s = s :: rest.
Proof. destruct sched; simpl; eauto. Qed.

(** Every state of a history holds the job, and successive views are related
    as one step relates them. *)
Lemma readings_history sched s :
  sys_inv s ->
  length (readings view_of j (history1 sched s)) = length (history1 sched s) /\
  Forall (fun v => v_status v ∈ ["queued"; running; "completed"; "failed"; "cancelled"])
         (readings view_of j (history1 sched s)) /\
  Forall (fun v => (v_payload v = true <-> v_status v = "completed") /\
                   (v_status v = "failed" ->
                    exists text, v_error v = Some text /\ good text))
         (readings view_of j (history1 sched s)) /\
  chain (fun v v' => transition running (v_status v) (v_status v') /\
                     (v_progress v <= v_progress v')%Q)
        (readings view_of j (history1 sched s)).
Proof using running_fresh exec_present cancel_present.
  revert s. induction sched as [|t sched IH]; intros s Hs.
  - destruct Hs as (job & Hj & Hinv). unfold readings. simpl. rewrite Hj. simpl.
    repeat split; try done.
    + constructor; [apply Hinv | constructor].
    + constructor; [|constructor]. split; apply Hinv.
  - pose proof (step_inv t s Hs) as Hs'.
    destruct (IH _ Hs') as (Hlen & Hst & Hpay & Hch).
    destruct (step_observed t s Hs) as (job & job' & Hj & Hj' & Htr & Hpr).
    destruct Hs as (job0 & Hj0 & Hinv). rewrite Hj in Hj0. injection Hj0 as <-.
    change (history1 (t :: sched) s) with (s :: history1 sched (step1 t s)).
    unfold readings in *. simpl. rewrite Hj. simpl.
    split; [simpl; f_equal; exact Hlen|]. split; [constructor; [apply Hinv | done]|].
    split; [constructor; [split; apply Hinv | done]|].
    destruct (history_head sched (step1 t s)) as (rest & Hrest).
    rewrite Hrest in *. simpl in *. rewrite Hj' in *. simpl in *. done.
Qed.

End Simulation.

(** ** The three services refine the protocol *)

Lemma training_fresh : "training" ∉ ["queued"; "completed"; "failed"; "cancelled"].
Proof. set_solver. Qed.

Lemma running_fresh : "running" ∉ ["queued"; "completed"; "failed"; "cancelled"].
Proof. set_solver. Qed.

Lemma training_exec_present j now e (table : gmap string Training.TrainingStatus) job :
  table !! j = Some job ->
  exists table' job',
    Training.exec j now e table = Ok table' /\ table' !! j = Some job' /\
    Training.view_of job' = apply_kind (Training.kind_of e) (Training.view_of job).
Proof.
  intros Hj. destruct e; simpl;
    unfold Training._update_job_status, Training._complete_job, Training._fail_job;
    rewrite ?Hj; eexists _, _; (split; [reflexivity|]);
    rewrite ?lookup_insert_eq; split; try done.
Qed.

Lemma training_cancel_present j now (table : gmap string Training.TrainingStatus) job :
  table !! j = Some job ->
  exists job',
    fst (Training.cancel_training_job table j now) !! j = Some job' /\
    Training.view_of job' = cancel_view "training" (Training.view_of job).
Proof.
  intros Hj. unfold Training.cancel_training_job, cancel_view. rewrite Hj. simpl.
  case_bool_decide; simpl.
  - rewrite lookup_insert_eq. eauto.
  - eauto.
Qed.

Lemma prediction_exec_present (w : Prediction.world) j now (e : Prediction.event w)
    (table : gmap string Prediction.PredictionJob) job :
  table !! j = Some job ->
  exists table' job',
    Prediction.exec j now e table = Ok table' /\ table' !! j = Some job' /\
    Prediction.view_of job' = apply_kind (Prediction.kind_of e) (Prediction.view_of job).
Proof.
  intros Hj. destruct e; simpl;
    unfold Prediction._update_job_status, Prediction.complete_job, Prediction._fail_job,
      Prediction.set_total_records, Prediction.set_processed_records;
    rewrite ?Hj; eexists _, _; (split; [reflexivity|]);
    rewrite ?lookup_insert_eq; split; try done.
Qed.

Lemma prediction_cancel_present j now (table : gmap string Prediction.PredictionJob) job :
  table !! j = Some job ->
  exists job',
    fst (Prediction.cancel_prediction_job table j now) !! j = Some job' /\
    Prediction.view_of job' = cancel_view "running" (Prediction.view_of job).
Proof.
  intros Hj. unfold Prediction.cancel_prediction_job, cancel_view. rewrite Hj. simpl.
  case_bool_decide; simpl.
  - rewrite lookup_insert_eq. eauto.
  - eauto.
Qed.

Lemma validation_exec_present (w : Validation.world) j now (e : Validation.event w)
    (table : gmap string (Validation.ValidationJob w)) job :
  table !! j = Some job ->
  exists table' job',
    Validation.exec j now e table = Ok table' /\ table' !! j = Some job' /\
    Validation.view_of job' = apply_kind (Validation.kind_of e) (Validation.view_of job).
Proof.
  intros Hj. destruct e; simpl;
    unfold Validation._update_job_status, Validation.complete_job, Validation._fail_job;
    rewrite ?Hj; eexists _, _; (split; [reflexivity|]);
    rewrite ?lookup_insert_eq; split; try done.
Qed.

Lemma validation_cancel_present (w : Validation.world) j now
    (table : gmap string (Validation.ValidationJob w)) job :
  table !! j = Some job ->
  exists job',
    fst (Validation.cancel_validation_job table j now) !! j = Some job' /\
    Validation.view_of job' = cancel_view "running" (Validation.view_of job).
Proof.
  intros Hj. unfold Validation.cancel_validation_job, cancel_view. rewrite Hj. simpl.
  case_bool_decide; simpl.
  - rewrite lookup_insert_eq. eauto.
  - eauto.
Qed.

(** ** Reasoning about a worker, one bind at a time *)

(** Inner actions whose writes climb from [lo] and stay below [hi]. *)
Fixpoint steps (running : string) (lo hi : Q) (ks : list kind) : Prop :=
  match ks with
  | [] => (lo <= hi)%Q
  | KUpdate status0 p :: rest => status0 = running /\ (lo <= p)%Q /\ steps running p hi rest
  | KSilent :: rest => steps running lo hi rest
  | _ :: _ => False
  end.

Lemma steps_le running lo hi ks : steps running lo hi ks -> (lo <= hi)%Q.
Proof.
  revert lo. induction ks as [|k ks IH]; intros lo; simpl; [done|].
  destruct k; try done.
  - intros (_ & Hle & Hs). eapply Qle_trans; eauto.
  - apply IH.
Qed.

Lemma steps_lower running lo lo' hi ks :
  (lo' <= lo)%Q -> steps running lo hi ks -> steps running lo' hi ks.
Proof.
  destruct ks as [|k ks]; simpl.
  - intros. eapply Qle_trans; eauto.
  - destruct k; try done.
    + intros Hle (? & ? & ?). repeat split; try done. eapply Qle_trans; eauto.
    + revert lo lo'. induction ks as [|k ks IH]; intros lo lo' Hle; simpl.
      * intros. eapply Qle_trans; eauto.
      * destruct k; try done.
        -- intros (? & ? & ?). repeat split; try done. eapply Qle_trans; eauto.
        -- by apply IH.
Qed.

Lemma steps_upper running lo hi hi' ks :
  (hi <= hi')%Q -> steps running lo hi ks -> steps running lo hi' ks.
Proof.
  revert lo. induction ks as [|k ks IH]; intros lo Hle; simpl.
  - intros. eapply Qle_trans; eauto.
  - destruct k; try done.
    + intros (? & ? & ?). repeat split; try done. by apply IH.
    + by apply IH.
Qed.

Lemma steps_app running lo mid hi ks1 ks2 :
  steps running lo mid ks1 -> steps running mid hi ks2 ->
  steps running lo hi (ks1 ++ ks2).
Proof.
  revert lo. induction ks1 as [|k ks1 IH]; intros lo; simpl.
  - intros. by eapply steps_lower.
  - destruct k; try done.
    + intros (? & ? & ?) ?. repeat split; try done. by apply IH.
    + apply IH.
Qed.

Lemma closed_cons running k rest :
  rest <> [] -> is_inner running k -> closed running rest -> closed running (k :: rest).
Proof. destruct rest; [done|]. simpl. auto. Qed.

Lemma steps_closed running lo hi ks k :
  steps running lo hi ks -> is_final k -> closed running (ks ++ [k]).
Proof.
  revert lo. induction ks as [|k' ks IH]; intros lo Hs Hk; [done|].
  change ((k' :: ks) ++ [k]) with (k' :: (ks ++ [k])).
  destruct k'; simpl in Hs; try done.
  - destruct Hs as (? & ? & ?).
    apply closed_cons; [by destruct ks | done | by eapply IH].
  - apply closed_cons; [by destruct ks | done | by eapply IH].
Qed.

Lemma steps_writes running lo hi ks tail :
  steps running lo hi ks -> nondecreasing_from hi tail ->
  nondecreasing_from lo (writes ks ++ tail).
Proof.
  revert lo. induction ks as [|k ks IH]; intros lo; simpl.
  - destruct tail; simpl; [done|]. intros Hle [? ?]. split; [|done].
    eapply Qle_trans; eauto.
  - destruct k; try done.
    + intros (? & ? & ?) ?. simpl. split; [done|]. by apply IH.
    + apply IH.
Qed.

Lemma writes_app ks1 ks2 : writes (ks1 ++ ks2) = writes ks1 ++ writes ks2.
Proof.
  induction ks1 as [|k ks1 IH]; simpl; [done|]. destruct k; simpl; by rewrite ?IH.
Qed.

Lemma fail_texts_app ks1 ks2 : fail_texts (ks1 ++ ks2) = fail_texts ks1 ++ fail_texts ks2.
Proof.
  induction ks1 as [|k ks1 IH]; simpl; [done|]. destruct k; simpl; by rewrite ?IH.
Qed.

Lemma steps_fail_texts running lo hi ks : steps running lo hi ks -> fail_texts ks = [].
Proof.
  revert lo. induction ks as [|k ks IH]; intros lo; simpl; [done|].
  destruct k; try done.
  - intros (? & ? & ?). eauto.
  - eauto.
Qed.

Section WorkerLogic.
Context {E : Type}.
Variable kind_of : E -> kind.
Variable running : string.
Variable good : string -> Prop.

(** A part of the [try] block: inner actions, and a good text if it raises. *)
Definition part {A} (lo hi : Q) (m : worker E A) : Prop :=
  steps running lo hi (map kind_of (fst m)) /\
  forall text, snd m = Raise text -> good text.

(** The rest of the [try] block: it ends with the completion write, or raises. *)
Definition rest_ok (lo : Q) (m : worker E unit) : Prop :=
  match snd m with
  | Ok _ => exists pre, map kind_of (fst m) = pre ++ [KComplete] /\ steps running lo 100 pre
  | Raise text => steps running lo 100 (map kind_of (fst m)) /\ good text
  end.

Lemma rest_bind {A} lo mid (m : worker E A) (k : A -> worker E unit) :
  part lo mid m -> (mid <= 100)%Q -> (forall a, rest_ok mid (k a)) ->
  rest_ok lo (m ≫= k).
Proof.
  destruct m as [evs [a|text]]; intros [Hs Hg] Hle Hk; simpl in *.
  - specialize (Hk a). unfold rest_ok in *.
    unfold mbind, worker_bind, wbind. destruct (k a) as [evs' [[]|text']]; simpl in *.
    + destruct Hk as (pre & Hpre & Hs'). exists (map kind_of evs ++ pre).
      rewrite map_app, Hpre, app_assoc. split; [done|]. by eapply steps_app.
    + destruct Hk as [Hs' Hg']. split; [|done]. rewrite map_app. by eapply steps_app.
  - unfold rest_ok; simpl. split; [|by apply Hg].
    eapply steps_upper; [exact Hle | exact Hs].
Qed.

Lemma part_bind {A B} lo mid hi (m : worker E A) (k : A -> worker E B) :
  part lo mid m -> (mid <= hi)%Q -> (forall a, part mid hi (k a)) ->
  part lo hi (m ≫= k).
Proof.
  destruct m as [evs [a|text]]; intros [Hs Hg] Hle Hk; simpl in *.
  - specialize (Hk a). unfold part in *.
    unfold mbind, worker_bind, wbind. destruct (k a) as [evs' r]; simpl in *.
    destruct Hk as [Hs' Hg']. split; [|done]. rewrite map_app. by eapply steps_app.
  - split; [eapply steps_upper; [exact Hle | exact Hs] |].
    simpl. intros ? [= <-]. by apply Hg.
Qed.

Lemma part_ret {A} lo (a : A) : part lo lo (mret a : worker E A).
Proof. split; simpl; [apply Qle_refl | done]. Qed.

Lemma part_emit_update lo p e :
  kind_of e = KUpdate running p -> (lo <= p)%Q -> part lo p (emit e).
Proof. intros He Hle. split; simpl; [|done]. rewrite He. repeat split; [done|apply Qle_refl]. Qed.

Lemma part_emit_silent lo e : kind_of e = KSilent -> part lo lo (emit e).
Proof. intros He. split; simpl; [|done]. rewrite He. apply Qle_refl. Qed.

Lemma part_call {A} lo e (r : result A) :
  kind_of e = KSilent -> (forall text, r = Raise text -> good text) ->
  part lo lo (call e r).
Proof. intros He Hg. split; simpl; [|done]. rewrite He. apply Qle_refl. Qed.

Lemma part_lift {A} lo (r : result A) :
  (forall text, r = Raise text -> good text) -> part lo lo (wlift r).
Proof. intros Hg. split; simpl; [apply Qle_refl | done]. Qed.

Lemma part_raise {A} lo text : good text -> part lo lo (wraise text : worker E A).
Proof. intros Hg. split; simpl; [apply Qle_refl|]. by intros ? [= <-]. Qed.

Lemma part_guard lo (b : bool) text :
  good text -> part lo lo (if b then wraise text else mret tt : worker E unit).
Proof. intros Hg. destruct b; [by apply part_raise | apply part_ret]. Qed.

Lemma rest_complete lo e :
  kind_of e = KComplete -> (lo <= 100)%Q -> rest_ok lo (emit e).
Proof. intros He Hle. exists []. simpl. by rewrite He. Qed.

Lemma fst_emit_bind {A} e (k : unit -> worker E A) :
  fst (emit e ≫= k) = e :: fst (k tt).
Proof. unfold mbind, worker_bind, wbind, emit. by destruct (k tt). Qed.

(** A [try] block that starts with the first update and then is [rest_ok]
    gives a worker that follows the protocol. *)
Lemma try_except_protocol e0 p (k : unit -> worker E unit) (fail : string -> E) :
  kind_of e0 = KUpdate running p -> (0 <= p)%Q ->
  rest_ok p (k tt) ->
  (forall text, kind_of (fail text) = KFail text) ->
  let trace := map kind_of (try_except (emit e0 ≫= k) (fun text => [fail text])) in
  protocol running trace /\ Forall good (fail_texts trace).
Proof.
  intros He Hp Hk Hfail. simpl.
  unfold try_except, mbind, worker_bind, wbind, emit, rest_ok in *.
  destruct (k tt) as [evs [[]|text]]; simpl in *.
  - destruct Hk as (pre & Hpre & Hs). rewrite He, Hpre.
    split; [split; [eauto|split]|].
    + change (KUpdate running p :: pre ++ [KComplete])
        with ((KUpdate running p :: pre) ++ [KComplete]).
      eapply (steps_closed running 0 100); [|done]. simpl. done.
    + simpl. split; [done|]. rewrite writes_app. simpl.
      eapply steps_writes; [done|]. simpl. split; [apply Qle_refl|done].
    + simpl. rewrite fail_texts_app. erewrite steps_fail_texts by done. simpl. done.
  - destruct Hk as [Hs Hg]. rewrite He, map_app. simpl. rewrite Hfail.
    split; [split; [eauto|split]|].
    + change (KUpdate running p :: map kind_of evs ++ [KFail text])
        with ((KUpdate running p :: map kind_of evs) ++ [KFail text]).
      eapply (steps_closed running 0 100); [|done]. simpl. done.
    + simpl. split; [done|]. rewrite writes_app. simpl.
      rewrite app_nil_r. rewrite <- (app_nil_r (writes _)).
      eapply steps_writes; [done|]. done.
    + simpl. rewrite fail_texts_app. erewrite steps_fail_texts by done. simpl.
      by constructor.
Qed.

End WorkerLogic.

Lemma Qle_literal (a b : Q) : Qle_bool a b = true -> (a <= b)%Q.
Proof. apply Qle_bool_imp_le. Qed.

(** ** The training worker follows the protocol *)

(** Every exception of a call carries a text that [good] accepts. *)
Definition raises_only {A} (good : string -> Prop) (r : result A) : Prop :=
  forall text, r = Raise text -> good text.

Record training_texts (good : string -> Prop) (w : Training.world) : Prop := {
  tt_read_csv : forall p, raises_only good (Training.pd_read_csv w p);
  tt_columns : forall df cs, raises_only good (Training.getitem_columns w df cs);
  tt_column : forall df c, raises_only good (Training.getitem_column w df c);
  tt_split : forall X y f r, raises_only good (Training.train_test_split w X y f r);
  tt_construct : forall a ps, raises_only good (Training.construct w a ps);
  tt_fit : forall m X y, raises_only good (Training.fit w m X y);
  tt_predict : forall m X, raises_only good (Training.predict w m X);
  tt_mse : forall a b, raises_only good (Training.mean_squared_error w a b);
  tt_mae : forall a b, raises_only good (Training.mean_absolute_error w a b);
  tt_r2 : forall a b, raises_only good (Training.r2_score w a b);
  tt_dump : forall m p, raises_only good (Training.joblib_dump w m p)
}.

Definition nonempty (text : string) : Prop := text <> "".

Lemma training_texts_True w : training_texts (fun _ => True) w.
Proof. by constructor. Qed.

Lemma raises_only_Ok {A} good (a : A) : raises_only good (Ok a).
Proof. by intros ? [=]. Qed.

Section TrainingWorker.
Variable good : string -> Prop.
Hypothesis good_nonempty : forall text, text <> "" -> good text.
Variable w : Training.world.
Hypothesis texts : training_texts good w.

Local Abbreviation part := (part Training.kind_of "training" good).
Local Abbreviation rest_ok := (rest_ok Training.kind_of "training" good).

Lemma create_model_part lo algorithm0 hyperparameters0 :
  part lo lo (Training._create_model w algorithm0 hyperparameters0).
Proof using good_nonempty texts.
  unfold Training._create_model.
  repeat case_bool_decide; try (apply part_call; [done | apply texts]).
  apply part_raise. apply good_nonempty. done.
Qed.

Lemma calculate_metrics_part lo y_true y_pred :
  part lo lo (Training._calculate_metrics w y_true y_pred).
Proof using texts.
  unfold Training._calculate_metrics.
  repeat (eapply part_bind;
          [apply part_call; [done | apply texts] | apply Qle_refl | intros ?]).
  apply part_ret.
Qed.

Lemma train_model_try_rest request :
  exists p k,
    Training._train_model_try w request
    = (emit (Training.UpdateJobStatus "training" p) ≫= k) /\
    (0 <= p)%Q /\ rest_ok p (k tt).
Proof using good_nonempty texts.
  eexists _, _. split; [reflexivity|]. split; [by apply Qle_literal|].
  eapply rest_bind;
    [apply part_call; [done | apply raises_only_Ok] | by apply Qle_literal | intros found].
  eapply rest_bind;
    [apply part_guard; by apply good_nonempty | by apply Qle_literal | intros _].
  eapply rest_bind;
    [apply part_call; [done | apply texts] | by apply Qle_literal | intros df].
  eapply rest_bind;
    [by apply (part_emit_update _ _ _ _ 20); [|apply Qle_literal]
    | by apply Qle_literal | intros _].
  eapply rest_bind;
    [apply part_call; [done | apply texts] | by apply Qle_literal | intros X].
  eapply rest_bind;
    [apply part_call; [done | apply texts] | by apply Qle_literal | intros y].
  eapply rest_bind;
    [apply part_call; [done | apply texts] | by apply Qle_literal
    | intros [[[X_train X_test] y_train] y_test]].
  eapply rest_bind;
    [by apply (part_emit_update _ _ _ _ 30); [|apply Qle_literal]
    | by apply Qle_literal | intros _].
  eapply rest_bind; [apply create_model_part | by apply Qle_literal | intros model].
  eapply rest_bind;
    [apply part_call; [done | apply texts] | by apply Qle_literal | intros model'].
  eapply rest_bind;
    [by apply (part_emit_update _ _ _ _ 70); [|apply Qle_literal]
    | by apply Qle_literal | intros _].
  eapply rest_bind;
    [apply part_call; [done | apply texts] | by apply Qle_literal | intros y_pred].
  eapply rest_bind; [apply calculate_metrics_part | by apply Qle_literal | intros ms].
  eapply rest_bind;
    [by apply (part_emit_update _ _ _ _ 85); [|apply Qle_literal]
    | by apply Qle_literal | intros _].
  eapply rest_bind;
    [apply part_call; [done | apply texts] | by apply Qle_literal | intros _].
  apply rest_complete; [done | by apply Qle_literal].
Qed.

Lemma training_protocol request :
  let trace := map Training.kind_of (Training._train_model w request) in
  protocol "training" trace /\ Forall good (fail_texts trace).
Proof using good_nonempty texts.
  destruct (train_model_try_rest request) as (p & k & Heq & Hp & Hk).
  unfold Training._train_model. rewrite Heq.
  by eapply try_except_protocol.
Qed.

End TrainingWorker.

(** ** The validation worker follows the protocol *)

Record validation_texts (good : string -> Prop) (w : Validation.world) : Prop := {
  vt_read_csv : forall p, raises_only good (Validation.pd_read_csv w p);
  vt_load : forall p, raises_only good (Validation.joblib_load w p);
  vt_columns : forall df cs, raises_only good (Validation.getitem_columns w df cs);
  vt_column : forall df c, raises_only good (Validation.getitem_column w df c);
  vt_cross : forall m X y n ms b,
    raises_only good (Validation._perform_cross_validation w m X y n ms b);
  vt_holdout : forall m X y ms b,
    raises_only good (Validation._perform_holdout_validation w m X y ms b)
}.

Lemma validation_texts_True w : validation_texts (fun _ => True) w.
Proof. by constructor. Qed.

Section ValidationWorker.
Variable good : string -> Prop.
Hypothesis good_nonempty : forall text, text <> "" -> good text.
Variable w : Validation.world.
Hypothesis texts : validation_texts good w.

Local Abbreviation part := (part (@Validation.kind_of w) "running" good).
Local Abbreviation rest_ok := (rest_ok (@Validation.kind_of w) "running" good).

Lemma last_column_good df : raises_only good (Validation.last_column w df).
Proof using good_nonempty.
  unfold Validation.last_column. destruct (last _); intros text [= <-].
  by apply good_nonempty.
Qed.

Lemma run_validation_try_rest job_id0 request :
  exists p k,
    Validation._run_validation_try w job_id0 request
    = (emit (Validation.UpdateJobStatus "running" p) ≫= k) /\
    (0 <= p)%Q /\ rest_ok p (k tt).
Proof using good_nonempty texts.
  eexists _, _. split; [reflexivity|]. split; [by apply Qle_literal|].
  eapply rest_bind;
    [apply part_call; [done | apply raises_only_Ok] | by apply Qle_literal | intros found].
  eapply rest_bind;
    [apply part_guard; by apply good_nonempty | by apply Qle_literal | intros _].
  eapply rest_bind;
    [apply part_call; [done | apply texts] | by apply Qle_literal | intros df].
  eapply rest_bind;
    [by apply (part_emit_update _ _ _ _ 20); [|apply Qle_literal]
    | by apply Qle_literal | intros _].
  eapply rest_bind;
    [apply part_call; [done | apply raises_only_Ok] | by apply Qle_literal | intros found'].
  eapply rest_bind;
    [apply part_guard; by apply good_nonempty | by apply Qle_literal | intros _].
  eapply rest_bind;
    [apply part_call; [done | apply texts] | by apply Qle_literal | intros model].
  eapply rest_bind;
    [by apply (part_emit_update _ _ _ _ 30); [|apply Qle_literal]
    | by apply Qle_literal | intros _].
  eapply rest_bind;
    [apply part_lift, last_column_good | by apply Qle_literal | intros target].
  eapply rest_bind;
    [apply part_call; [done | apply texts] | by apply Qle_literal | intros X].
  eapply rest_bind;
    [apply part_call; [done | apply texts] | by apply Qle_literal | intros y].
  eapply rest_bind;
    [case_bool_decide; (apply part_call; [done | apply texts])
    | by apply Qle_literal | intros [[[[ms cv] mx] rp] du]].
  eapply rest_bind;
    [by apply (part_emit_update _ _ _ _ 80); [|apply Qle_literal]
    | by apply Qle_literal | intros _].
  apply rest_complete; [done | by apply Qle_literal].
Qed.

Lemma validation_protocol job_id0 request :
  let trace := map Validation.kind_of (Validation._run_validation w job_id0 request) in
  protocol "running" trace /\ Forall good (fail_texts trace).
Proof using good_nonempty texts.
  destruct (run_validation_try_rest job_id0 request) as (p & k & Heq & Hp & Hk).
  unfold Validation._run_validation. rewrite Heq.
  by eapply try_except_protocol.
Qed.

End ValidationWorker.

(** ** The batch-prediction worker follows the protocol *)

(** The progress written after the batch that starts at row [i] of [n]. *)
Definition batch_progress (n i : Z) : Q :=
  (20 + (inject_Z (Z.min (i + Prediction.batch_size) n) / inject_Z n) * 60)%Q.

Lemma fraction_bounds (a n : Z) :
  0 < n -> 0 <= a <= n -> (0 <= inject_Z a / inject_Z n /\ inject_Z a / inject_Z n <= 1)%Q.
Proof.
  intros Hn [Ha Han].
  assert (Hn' : (0 < inject_Z n)%Q) by (rewrite (Zlt_Qlt 0 n) in Hn; exact Hn).
  split.
  - apply Qle_shift_div_l; [done|]. rewrite Qmult_0_l.
    rewrite (Zle_Qle 0 a) in Ha. exact Ha.
  - apply Qle_shift_div_r; [done|]. rewrite Qmult_1_l. by rewrite <- Zle_Qle.
Qed.

Lemma fraction_mono (a b n : Z) :
  0 < n -> a <= b -> (inject_Z a / inject_Z n <= inject_Z b / inject_Z n)%Q.
Proof.
  intros Hn Hab.
  assert (Hn' : (0 < inject_Z n)%Q) by (rewrite (Zlt_Qlt 0 n) in Hn; exact Hn).
  unfold Qdiv. apply Qmult_le_compat_r; [by rewrite <- Zle_Qle|].
  apply Qlt_le_weak, Qinv_lt_0_compat. done.
Qed.

Lemma batch_progress_bounds n i :
  0 < n -> 0 <= i -> (20 <= batch_progress n i /\ batch_progress n i <= 80)%Q.
Proof.
  intros Hn Hi. unfold batch_progress, Prediction.batch_size.
  destruct (fraction_bounds (Z.min (i + 1000) n) n Hn ltac:(lia)) as [H0 H1].
  split; lra.
Qed.

Lemma batch_progress_mono n i i' :
  0 < n -> i <= i' -> (batch_progress n i <= batch_progress n i')%Q.
Proof.
  intros Hn Hi. unfold batch_progress, Prediction.batch_size.
  pose proof (fraction_mono (Z.min (i + 1000) n) (Z.min (i' + 1000) n) n Hn ltac:(lia)).
  lra.
Qed.

Record prediction_texts (good : string -> Prop) (w : Prediction.world) : Prop := {
  pt_read_csv : forall p, raises_only good (Prediction.pd_read_csv w p);
  pt_load : forall p, raises_only good (Prediction.joblib_load w p);
  pt_predict : forall m df, raises_only good (Prediction.predict w m df);
  pt_write : forall p, raises_only good (Prediction.write_file w p)
}.

Lemma prediction_texts_True w : prediction_texts (fun _ => True) w.
Proof. by constructor. Qed.

Section PredictionWorker.
Variable good : string -> Prop.
Hypothesis good_nonempty : forall text, text <> "" -> good text.
Variable w : Prediction.world.
Hypothesis texts : prediction_texts good w.

Local Abbreviation part := (part (@Prediction.kind_of w) "running" good).
Local Abbreviation rest_ok := (rest_ok (@Prediction.kind_of w) "running" good).

Lemma setitem_column_good {A B} (df : list A) (values : list B) :
  raises_only good (setitem_column df values).
Proof using good_nonempty.
  unfold setitem_column. case_bool_decide; intros text [= <-].
  by apply good_nonempty.
Qed.

Lemma batch_body_part request model df n acc i lo :
  (lo <= batch_progress n i)%Q ->
  part lo (batch_progress n i) (Prediction.batch_body w request model df n acc i).
Proof using texts.
  intros Hlo. unfold Prediction.batch_body. destruct acc as [predictions scores].
  eapply part_bind; [apply part_call; [done | apply texts] | exact Hlo | intros ps].
  eapply part_bind with (mid := lo); [| exact Hlo | intros scores'].
  { destruct (Prediction.include_confidence request); [|apply part_ret].
    eapply part_bind;
      [apply part_call; [done | apply raises_only_Ok] | apply Qle_refl | intros ?].
    apply part_ret. }
  eapply part_bind; [by apply part_emit_silent | exact Hlo | intros _].
  eapply part_bind;
    [by apply (part_emit_update _ _ _ _ (batch_progress n i)) | apply Qle_refl | intros _].
  apply part_ret.
Qed.

Lemma batches_part request model df n len : forall start acc lo,
  0 < n -> (lo <= batch_progress n (0 + Z.of_nat start * Prediction.batch_size))%Q ->
  (lo <= 80)%Q ->
  part lo 80
    (for_each (Prediction.batch_body w request model df n)
       (map (fun k : nat => 0 + Z.of_nat k * Prediction.batch_size) (seq start len)) acc).
Proof using texts.
  induction len as [|len IH]; intros start acc lo Hn Hlo Hhi; simpl.
  - split; simpl; [exact Hhi | done].
  - assert (Hpos : 0 <= 0 + Z.of_nat start * Prediction.batch_size)
      by (unfold Prediction.batch_size; lia).
    destruct (batch_progress_bounds n _ Hn Hpos) as [_ Hle].
    eapply part_bind; [by apply batch_body_part | exact Hle | intros acc'].
    apply IH; [done | | exact Hle].
    apply batch_progress_mono; [done|]. unfold Prediction.batch_size. lia.
Qed.

Lemma loop_part request model df acc :
  part 20 80
    (for_each (Prediction.batch_body w request model df (Z.of_nat (length df)))
       (py_range 0 (Z.of_nat (length df)) Prediction.batch_size) acc).
Proof using texts.
  unfold py_range.
  destruct (decide (Z.of_nat (length df) = 0)) as [E|E].
  - rewrite E. simpl. split; simpl; [by apply Qle_literal | done].
  - assert (Hn : 0 < Z.of_nat (length df)) by lia.
    apply batches_part; [done | | by apply Qle_literal].
    apply batch_progress_bounds; [done|]. unfold Prediction.batch_size. lia.
Qed.

Lemma run_batch_prediction_try_rest job_id0 request :
  exists p k,
    Prediction._run_batch_prediction_try w job_id0 request
    = (emit (Prediction.UpdateJobStatus "running" p) ≫= k) /\
    (0 <= p)%Q /\ rest_ok p (k tt).
Proof using good_nonempty texts.
  eexists _, _. split; [reflexivity|]. split; [by apply Qle_literal|].
  eapply rest_bind;
    [apply part_call; [done | apply raises_only_Ok] | by apply Qle_literal | intros found].
  eapply rest_bind;
    [apply part_guard; by apply good_nonempty | by apply Qle_literal | intros _].
  eapply rest_bind;
    [apply part_call; [done | apply texts] | by apply Qle_literal | intros df].
  eapply rest_bind; [by apply part_emit_silent | by apply Qle_literal | intros _].
  eapply rest_bind;
    [by apply (part_emit_update _ _ _ _ 10); [|apply Qle_literal]
    | by apply Qle_literal | intros _].
  eapply rest_bind;
    [apply part_call; [done | apply raises_only_Ok] | by apply Qle_literal | intros found'].
  eapply rest_bind;
    [apply part_guard; by apply good_nonempty | by apply Qle_literal | intros _].
  eapply rest_bind;
    [apply part_call; [done | apply texts] | by apply Qle_literal | intros model].
  eapply rest_bind;
    [by apply (part_emit_update _ _ _ _ 20); [|apply Qle_literal]
    | by apply Qle_literal | intros _].
  eapply rest_bind; [apply loop_part | by apply Qle_literal | intros [predictions scores]].
  eapply rest_bind with (mid := 80%Q); [| by apply Qle_literal | intros path].
  { case_bool_decide.
    - eapply part_bind;
        [apply part_call; [done | apply texts] | apply Qle_refl | intros _].
      apply part_ret.
    - eapply part_bind;
        [apply part_lift, setitem_column_good | apply Qle_refl | intros _].
      eapply part_bind with (mid := 80%Q); [| apply Qle_refl | intros _].
      { destruct (truthy_list scores);
          [apply part_lift, setitem_column_good | apply part_ret]. }
      eapply part_bind;
        [apply part_call; [done | apply texts] | apply Qle_refl | intros _].
      apply part_ret. }
  apply rest_complete; [done | by apply Qle_literal].
Qed.

Lemma prediction_protocol job_id0 request :
  let trace :=
    map Prediction.kind_of (Prediction._run_batch_prediction w job_id0 request) in
  protocol "running" trace /\ Forall good (fail_texts trace).
Proof using good_nonempty texts.
  destruct (run_batch_prediction_try_rest job_id0 request) as (p & k & Heq & Hp & Hk).
  unfold Prediction._run_batch_prediction. rewrite Heq.
  by eapply try_except_protocol.
Qed.

End PredictionWorker.

(** ** What status reads can observe *)

Lemma readings_fmap {Job E A B} (f : Job -> A) (g : A -> B) j (hist : list (sys Job E)) :
  readings (fun job => g (f job)) j hist = map g (readings f j hist).
Proof.
  unfold readings. induction hist as [|s hist IH]; simpl; [done|].
  destruct (jobs s !! j); simpl; [f_equal|]; exact IH.
Qed.

Lemma chain_map {A B} (R : B -> B -> Prop) (g : A -> B) l :
  chain (fun a b => R (g a) (g b)) l -> chain R (map g l).
Proof.
  induction l as [|a l IH]; [done|].
  destruct l as [|b l]; [done|]. intros [H1 H2].
  split; [exact H1 | exact (IH H2)].
Qed.

Lemma chain_impl {A} (R R' : A -> A -> Prop) l :
  (forall a b, R a b -> R' a b) -> chain R l -> chain R' l.
Proof.
  intros HR. induction l as [|a l IH]; [done|].
  destruct l as [|b l]; [done|]. intros [H1 H2].
  split; [exact (HR _ _ H1) | exact (IH H2)].
Qed.

Lemma protocol_inv running good ks :
  running ∉ ["queued"; "completed"; "failed"; "cancelled"] ->
  protocol running ks -> Forall good (fail_texts ks) ->
  job_inv running good (View "queued" 0 false None) ks.
Proof.
  intros Hfresh ((p & rest & ->) & Hc & Hp) Ht.
  apply job_inv_start; [exact Hfresh | exact Hc | exact Ht | exact Hp].
Qed.

Section Observed.
Context {Job E : Type}.
Variable exec : string -> datetime -> E -> gmap string Job -> result (gmap string Job).
Variable fail : string -> E.
Variable cancel_job : gmap string Job -> string -> datetime -> gmap string Job * bool.
Variable view_of : Job -> view.
Variable kind_of : E -> kind.
Variable running : string.
Variable good : string -> Prop.
Variable j : string.

Hypothesis running_fresh : running ∉ ["queued"; "completed"; "failed"; "cancelled"].
Hypothesis exec_present : forall now e (table : gmap string Job) job,
  table !! j = Some job ->
  exists table' job',
    exec j now e table = Ok table' /\ table' !! j = Some job' /\
    view_of job' = apply_kind (kind_of e) (view_of job).
Hypothesis cancel_present : forall now (table : gmap string Job) job,
  table !! j = Some job ->
  exists job',
    fst (cancel_job table j now) !! j = Some job' /\
    view_of job' = cancel_view running (view_of job).

Variable s0 : sys Job E.
Hypothesis start : sys_inv view_of kind_of running good j s0.
Variable sched : list tick.

Let hist := history exec (fun text => [fail text]) cancel_job j sched s0.

Lemma observed_statuses :
  Forall (fun st => st ∈ ["queued"; running; "completed"; "failed"; "cancelled"])
         (readings (fun job => v_status (view_of job)) j hist) /\
  chain (transition running) (readings (fun job => v_status (view_of job)) j hist).
Proof using running_fresh exec_present cancel_present start.
  destruct (readings_history exec fail cancel_job view_of kind_of running good j
              running_fresh exec_present cancel_present sched s0 start)
    as (_ & Hst & _ & Hch).
  rewrite (readings_fmap view_of v_status). split.
  - by apply Forall_map.
  - apply chain_map. eapply chain_impl; [|exact Hch]. by intros ? ? [? ?].
Qed.

Lemma observed_progress :
  chain Qle (readings (fun job => v_progress (view_of job)) j hist).
Proof using running_fresh exec_present cancel_present start.
  destruct (readings_history exec fail cancel_job view_of kind_of running good j
              running_fresh exec_present cancel_present sched s0 start)
    as (_ & _ & _ & Hch).
  rewrite (readings_fmap view_of v_progress).
  apply chain_map. eapply chain_impl; [|exact Hch]. by intros ? ? [? ?].
Qed.

Lemma observed_records :
  length (readings (fun job => job) j hist) = length hist /\
  Forall (fun job =>
            (v_payload (view_of job) = true <-> v_status (view_of job) = "completed") /\
            (v_status (view_of job) = "failed" ->
             exists text, v_error (view_of job) = Some text /\ good text))
         (readings (fun job => job) j hist).
Proof using running_fresh exec_present cancel_present start.
  destruct (readings_history exec fail cancel_job view_of kind_of running good j
              running_fresh exec_present cancel_present sched s0 start)
    as (Hlen & _ & Hpay & _).
  rewrite (readings_fmap (fun job => job) view_of) in Hlen, Hpay.
  rewrite length_map in Hlen. split; [done|]. by apply Forall_map in Hpay.
Qed.

End Observed.

Lemma training_start good w table id now request :
  (forall text, text <> "" -> good text) -> training_texts good w ->
  sys_inv Training.view_of Training.kind_of "training" good id
          (Training.submitted w table id now request).
Proof.
  intros Hg Ht. unfold sys_inv, Training.submitted, Training.start_training. cbn [jobs todo fst].
  eexists. split; [apply lookup_insert_eq|].
  destruct (training_protocol good Hg w Ht request) as [Hp Hf].
  apply protocol_inv; [apply training_fresh | exact Hp | exact Hf].
Qed.

Lemma prediction_start good w table id now request :
  (forall text, text <> "" -> good text) -> prediction_texts good w ->
  sys_inv Prediction.view_of Prediction.kind_of "running" good id
          (Prediction.submitted w table id now request).
Proof.
  intros Hg Ht. unfold sys_inv, Prediction.submitted, Prediction.start_batch_prediction. cbn [jobs todo fst].
  eexists. split; [apply lookup_insert_eq|].
  destruct (prediction_protocol good Hg w Ht id request) as [Hp Hf].
  apply protocol_inv; [apply running_fresh | exact Hp | exact Hf].
Qed.

Lemma validation_start good w table id now request :
  (forall text, text <> "" -> good text) -> validation_texts good w ->
  sys_inv Validation.view_of Validation.kind_of "running" good id
          (Validation.submitted w table id now request).
Proof.
  intros Hg Ht. unfold sys_inv, Validation.submitted, Validation.start_validation. cbn [jobs todo fst].
  eexists. split; [apply lookup_insert_eq|].
  destruct (validation_protocol good Hg w Ht id request) as [Hp Hf].
  apply protocol_inv; [apply running_fresh | exact Hp | exact Hf].
Qed.

(** ** Worlds to run the services in *)

(** Every collaborator of training answers; the data set is ["ds1"]. *)
Definition training_world (dataset_found : bool) : Training.world :=
  {| Training.Frame := unit;
     Training.Estimator := unit;
     Training.os_path_exists := fun _ => dataset_found;
     Training.pd_read_csv := fun _ => Ok tt;
     Training.getitem_columns := fun _ _ => Ok tt;
     Training.getitem_column := fun _ _ => Ok tt;
     Training.train_test_split := fun _ _ _ _ => Ok (tt, tt, tt, tt);
     Training.construct := fun _ _ => Ok tt;
     Training.fit := fun _ _ _ => Ok tt;
     Training.predict := fun _ _ => Ok tt;
     Training.mean_squared_error := fun _ _ => Ok (Fin 4);
     Training.mean_absolute_error := fun _ _ => Ok (Fin 1);
     Training.r2_score := fun _ _ => Ok (Fin (1 # 2));
     Training.np_sqrt := fun _ => Fin 2;
     Training.uuid4 := "model-1";
     Training.joblib_dump := fun _ _ => Ok tt;
     Training.feature_importances_ := fun _ => None;
     Training.coef_ := fun _ => Some (Ok [Fin 3; Fin 5]) |}.

Definition training_request (algorithm0 : Training.TrainingAlgorithm)
  : Training.TrainingRequest :=
  {| Training.dataset_id := "ds1";
     Training.algorithm := algorithm0;
     Training.target_column := "y";
     Training.feature_columns := ["a"; "b"];
     Training.test_size := 1 # 5;
     Training.random_state := 42;
     Training.hyperparameters := None |}.

Lemma training_world_texts good b : training_texts good (training_world b).
Proof. constructor; intros; by intros ? [=]. Qed.

(** ** C2: the status machine *)

Lemma transition_reading running a b :
  running ∉ ["queued"; "completed"; "failed"; "cancelled"] ->
  transition running a b ->
  (a = "completed" \/ a = "failed" -> b = a) /\
  (b = "cancelled" -> a = "cancelled" \/ a = "queued" \/ a = running).
Proof.
  intros Hf Ht. destruct (running_neq running Hf) as (Nq & Nc & Nf & Nx).
  destruct Ht as [->|[[-> Hb]|[[-> Hb]|[-> Hb]]]].
  - split; [done|]. auto.
  - split; [intros [?|?]; done|]. auto.
  - split; [intros [?|?]; done|]. auto.
  - split; [intros [?|?]; done|]. auto.
Qed.

(** C2, as the code has it: a training job is never ["running"]; its
    running state is called ["training"]. *)
Lemma training_status_not_running :
  ~ Forall (fun st => st ∈ ["queued"; "running"; "completed"; "failed"; "cancelled"])
      (readings Training.status "job-1"
         (Training.history_job "job-1" [Work 1]
            (Training.submitted (training_world true) ∅ "job-1" 0
               (training_request Training.LINEAR_REGRESSION)))).
Proof.
  assert (Hr : readings Training.status "job-1"
         (Training.history_job "job-1" [Work 1]
            (Training.submitted (training_world true) ∅ "job-1" 0
               (training_request Training.LINEAR_REGRESSION))) = ["queued"; "training"])
    by (vm_compute; reflexivity).
  rewrite Hr. intros H. inversion H as [|? ? _ H']. inversion H' as [|? ? Hin _].
  repeat (apply elem_of_cons in Hin as [Hin|Hin]; [discriminate|]).
  by apply elem_of_nil in Hin.
Qed.

Lemma training_cancel_terminal (table : gmap string Training.TrainingStatus) id job now :
  table !! id = Some job ->
  Training.status job = "completed" \/ Training.status job = "failed" ->
  Training.cancel_training_job table id now = (table, false).
Proof.
  intros Hj Hs. unfold Training.cancel_training_job. rewrite Hj.
  case_bool_decide as Hin; [|done]. destruct Hs as [E|E]; rewrite E in Hin; set_solver.
Qed.

Lemma prediction_cancel_terminal (table : gmap string Prediction.PredictionJob) id job now :
  table !! id = Some job ->
  Prediction.status job = "completed" \/ Prediction.status job = "failed" ->
  Prediction.cancel_prediction_job table id now = (table, false).
Proof.
  intros Hj Hs. unfold Prediction.cancel_prediction_job. rewrite Hj.
  case_bool_decide as Hin; [|done]. destruct Hs as [E|E]; rewrite E in Hin; set_solver.
Qed.

Lemma validation_cancel_terminal w (table : gmap string (Validation.ValidationJob w))
    id job now :
  table !! id = Some job ->
  Validation.status job = "completed" \/ Validation.status job = "failed" ->
  Validation.cancel_validation_job table id now = (table, false).
Proof.
  intros Hj Hs. unfold Validation.cancel_validation_job. rewrite Hj.
  case_bool_decide as Hin; [|done]. destruct Hs as [E|E]; rewrite E in Hin; set_solver.
Qed.

(** C2 (amended): whatever the collaborators answer and however cancellation
    requests interleave with the worker, every status a read of the job
    returns is one of queued, R, completed, failed, cancelled, where R is
    "training" for a training job and "running" for a batch-prediction or
    validation job; each step leaves the status alone or follows
    queued -> R | cancelled, R -> completed | failed | cancelled, or is a
    write of the worker over a cancelled status (cancelled -> R | completed |
    failed).  So completed and failed never change, cancelled is entered only
    from queued or R, and cancelling a completed or failed job changes
    nothing and returns false. *)
Theorem job_status_machine (id : string) (now : datetime) (sched : list tick) :
  (forall w table request,
     let sts := readings Training.status id
                  (Training.history_job id sched
                     (Training.submitted w table id now request)) in
     Forall (fun st => st ∈ ["queued"; "training"; "completed"; "failed"; "cancelled"]) sts
     /\ chain (transition "training") sts) /\
  (forall w table request,
     let sts := readings Prediction.status id
                  (Prediction.history_job id sched
                     (Prediction.submitted w table id now request)) in
     Forall (fun st => st ∈ ["queued"; "running"; "completed"; "failed"; "cancelled"]) sts
     /\ chain (transition "running") sts) /\
  (forall w table request,
     let sts := readings Validation.status id
                  (Validation.history_job id sched
                     (Validation.submitted w table id now request)) in
     Forall (fun st => st ∈ ["queued"; "running"; "completed"; "failed"; "cancelled"]) sts
     /\ chain (transition "running") sts) /\
  (forall running a b,
     running = "training" \/ running = "running" ->
     transition running a b ->
     (a = "completed" \/ a = "failed" -> b = a) /\
     (b = "cancelled" -> a = "cancelled" \/ a = "queued" \/ a = running)) /\
  (forall table job t,
     table !! id = Some job ->
     Training.status job = "completed" \/ Training.status job = "failed" ->
     Training.cancel_training_job table id t = (table, false)) /\
  (forall table job t,
     table !! id = Some job ->
     Prediction.status job = "completed" \/ Prediction.status job = "failed" ->
     Prediction.cancel_prediction_job table id t = (table, false)) /\
  (forall w (table : gmap string (Validation.ValidationJob w)) job t,
     table !! id = Some job ->
     Validation.status job = "completed" \/ Validation.status job = "failed" ->
     Validation.cancel_validation_job table id t = (table, false)).
Proof.
  repeat apply conj.
  - intros w table request.
    exact (observed_statuses Training.exec Training.FailJob Training.cancel_training_job
             Training.view_of Training.kind_of "training" (fun _ => True) id
             training_fresh (training_exec_present id) (training_cancel_present id)
             _ (training_start _ w table id now request (fun _ _ => I)
                  (training_texts_True w)) sched).
  - intros w table request.
    exact (observed_statuses Prediction.exec Prediction.FailJob
             Prediction.cancel_prediction_job
             Prediction.view_of Prediction.kind_of "running" (fun _ => True) id
             running_fresh (prediction_exec_present w id) (prediction_cancel_present id)
             _ (prediction_start _ w table id now request (fun _ _ => I)
                  (prediction_texts_True w)) sched).
  - intros w table request.
    exact (observed_statuses Validation.exec Validation.FailJob
             Validation.cancel_validation_job
             Validation.view_of Validation.kind_of "running" (fun _ => True) id
             running_fresh (validation_exec_present w id) (validation_cancel_present w id)
             _ (validation_start _ w table id now request (fun _ _ => I)
                  (validation_texts_True w)) sched).
  - intros running a b [->| ->]; apply transition_reading;
      [apply training_fresh | apply running_fresh].
  - intros. by eapply training_cancel_terminal.
  - intros. by eapply prediction_cancel_terminal.
  - intros. by eapply validation_cancel_terminal.
Qed.

(** ** C5: progress *)

Lemma steps_no_complete running lo hi ks : steps running lo hi ks -> KComplete ∉ ks.
Proof.
  revert lo. induction ks as [|k ks IH]; intros lo Hs Hin.
  - by apply elem_of_nil in Hin.
  - apply elem_of_cons in Hin as [<-|Hin]; [exact Hs|].
    destruct k; simpl in Hs; try done.
    + destruct Hs as (_ & _ & Hs). by eapply IH.
    + by eapply IH.
Qed.

Section Checkpoints.
Context {E : Type}.
Variable kind_of : E -> kind.

(** The writes of [m], followed by [rest], are the checkpoints [exp]; a part
    that raises has written some first ones of them. *)
Definition follows {A} (exp rest : list Q) (m : worker E A) : Prop :=
  match snd m with
  | Ok _ => writes (map kind_of (fst m)) ++ rest = exp
  | Raise _ => exists r, writes (map kind_of (fst m)) ++ r = exp
  end.

Lemma follows_bind {A B} exp mid rest (m : worker E A) (k : A -> worker E B) :
  follows exp mid m -> (forall a, follows mid rest (k a)) -> follows exp rest (m ≫= k).
Proof.
  destruct m as [evs [a|text]]; unfold follows; simpl; intros Hm Hk.
  - specialize (Hk a). unfold mbind, worker_bind, wbind.
    destruct (k a) as [evs' [b|text']]; simpl in *; rewrite map_app, writes_app.
    + by rewrite <- app_assoc, Hk.
    + destruct Hk as [r Hr]. exists r. by rewrite <- app_assoc, Hr.
  - exact Hm.
Qed.

Lemma follows_update exp e status0 p :
  kind_of e = KUpdate status0 p -> follows (p :: exp) exp (emit e).
Proof. intros He. unfold follows. simpl. by rewrite He. Qed.

Lemma follows_complete exp e : kind_of e = KComplete -> follows (100%Q :: exp) exp (emit e).
Proof. intros He. unfold follows. simpl. by rewrite He. Qed.

Lemma follows_call {A} exp e (r : result A) :
  kind_of e = KSilent -> follows exp exp (call e r).
Proof. intros He. unfold follows. simpl. rewrite He. destruct r; simpl; eauto. Qed.

Lemma follows_quiet {A} exp (m : worker E A) : fst m = [] -> follows exp exp m.
Proof. destruct m as [evs r]. simpl. intros ->. unfold follows. destruct r; simpl; eauto. Qed.

End Checkpoints.

Lemma train_model_try_follows w request :
  follows Training.kind_of [10; 20; 30; 70; 85; 100]%Q [] (Training._train_model_try w request).
Proof.
  unfold Training._train_model_try.
  eapply follows_bind; [by eapply follows_update | intros _].
  eapply follows_bind; [by apply follows_call | intros found].
  eapply follows_bind; [apply follows_quiet; by destruct (negb found) | intros _].
  eapply follows_bind; [by apply follows_call | intros df].
  eapply follows_bind; [by eapply follows_update | intros _].
  eapply follows_bind; [by apply follows_call | intros X].
  eapply follows_bind; [by apply follows_call | intros y].
  eapply follows_bind; [by apply follows_call | intros [[[X_train X_test] y_train] y_test]].
  eapply follows_bind; [by eapply follows_update | intros _].
  eapply follows_bind; [| intros model].
  { unfold Training._create_model.
    repeat case_bool_decide; try (by apply follows_call). by apply follows_quiet. }
  eapply follows_bind; [by apply follows_call | intros model'].
  eapply follows_bind; [by eapply follows_update | intros _].
  eapply follows_bind; [by apply follows_call | intros y_pred].
  eapply follows_bind; [| intros ms].
  { unfold Training._calculate_metrics.
    repeat (eapply follows_bind; [by apply follows_call | intros ?]).
    by apply follows_quiet. }
  eapply follows_bind; [by eapply follows_update | intros _].
  eapply follows_bind; [by apply follows_call | intros _].
  by apply follows_complete.
Qed.

Lemma training_checkpoints w request :
  let ws := writes (map Training.kind_of (Training._train_model w request)) in
  ws `prefix_of` [10; 20; 30; 70; 85; 100]%Q /\
  (forall model_id path ms fi,
     Training.CompleteJob model_id path ms fi ∈ Training._train_model w request ->
     ws = [10; 20; 30; 70; 85; 100]%Q).
Proof.
  pose proof (train_model_try_follows w request) as Hf.
  destruct (train_model_try_rest (fun _ => True) (fun _ _ => I) w
              (training_texts_True w) request) as (p & k & Heq & _ & Hk).
  unfold Training._train_model. simpl.
  destruct (Training._train_model_try w request) as [evs [[]|text]] eqn:Hbody;
    unfold follows, try_except in *; simpl in *.
  - rewrite app_nil_r in Hf. rewrite Hf. split; [done|]. done.
  - destruct Hf as [r Hr]. rewrite map_app, writes_app. simpl. rewrite app_nil_r.
    split; [exists r; by rewrite Hr|].
    intros model_id path ms fi Hin. exfalso.
    apply elem_of_app in Hin as [Hin|Hin].
    + unfold mbind, worker_bind, wbind, emit in Heq.
      unfold rest_ok in Hk. destruct (k tt) as [evs' [[]|text']]; simpl in *; [done|].
      injection Heq as -> ->. destruct Hk as [Hs _].
      apply elem_of_cons in Hin as [Hin|Hin]; [done|].
      apply (steps_no_complete _ _ _ _ Hs).
      apply (list_elem_of_fmap_2 Training.kind_of) in Hin. exact Hin.
    + apply list_elem_of_singleton in Hin. done.
Qed.


(** ** C4: result payload and error message *)

(** A world in which fitting raises an exception that has no message. *)
Definition mute_world : Training.world :=
  {| Training.Frame := unit;
     Training.Estimator := unit;
     Training.os_path_exists := fun _ => true;
     Training.pd_read_csv := fun _ => Ok tt;
     Training.getitem_columns := fun _ _ => Ok tt;
     Training.getitem_column := fun _ _ => Ok tt;
     Training.train_test_split := fun _ _ _ _ => Ok (tt, tt, tt, tt);
     Training.construct := fun _ _ => Ok tt;
     Training.fit := fun _ _ _ => Raise "";
     Training.predict := fun _ _ => Ok tt;
     Training.mean_squared_error := fun _ _ => Ok (Fin 4);
     Training.mean_absolute_error := fun _ _ => Ok (Fin 1);
     Training.r2_score := fun _ _ => Ok (Fin (1 # 2));
     Training.np_sqrt := fun _ => Fin 2;
     Training.uuid4 := "model-1";
     Training.joblib_dump := fun _ _ => Ok tt;
     Training.feature_importances_ := fun _ => None;
     Training.coef_ := fun _ => None |}.

(** C4, as the code has it: the worker stores [str(e)] as it is.  When
    fitting raises an exception without a message, the job is failed and its
    error message is the empty string. *)
Lemma failed_with_empty_message :
  let s := Training.run_job "job-1" (replicate 11 (Work 1))
             (Training.submitted mute_world ∅ "job-1" 0
                (training_request Training.LINEAR_REGRESSION)) in
  todo s = [] /\
  Training.status <$> jobs s !! "job-1" = Some "failed" /\
  Training.error_message <$> jobs s !! "job-1" = Some (Some "") /\
  Training.metrics <$> jobs s !! "job-1" = Some None.
Proof. vm_compute. repeat split. Qed.

(** C4 (amended): in every record a read of a job can return, the result
    payload (training metrics, output path of the batch prediction, validation
    result) is populated exactly when the status is completed, and a failed
    record has no payload and has its error message set.  The message can be
    the empty text, the worker storing the text of the exception as it is; it
    is not empty when no collaborator raises an exception with an empty
    text. *)
Theorem payload_iff_completed (id : string) (now : datetime) (sched : list tick) :
  (forall w table request,
     let records :=
       readings (fun job => job) id
         (Training.history_job id sched (Training.submitted w table id now request)) in
     Forall (fun job =>
               (is_Some (Training.metrics job) <-> Training.status job = "completed") /\
               (Training.status job = "failed" ->
                Training.metrics job = None /\ is_Some (Training.error_message job)))
            records /\
     (training_texts nonempty w ->
      Forall (fun job =>
                Training.status job = "failed" ->
                exists text, Training.error_message job = Some text /\ text <> "")
             records)) /\
  (forall w table request,
     let records :=
       readings (fun job => job) id
         (Prediction.history_job id sched
            (Prediction.submitted w table id now request)) in
     Forall (fun job =>
               (is_Some (Prediction.output_path job)
                <-> Prediction.status job = "completed") /\
               (Prediction.status job = "failed" ->
                Prediction.output_path job = None /\
                is_Some (Prediction.error_message job)))
            records /\
     (prediction_texts nonempty w ->
      Forall (fun job =>
                Prediction.status job = "failed" ->
                exists text, Prediction.error_message job = Some text /\ text <> "")
             records)) /\
  (forall w table request,
     let records :=
       readings (fun job => job) id
         (Validation.history_job id sched
            (Validation.submitted w table id now request)) in
     Forall (fun job =>
               (is_Some (Validation.result_ job)
                <-> Validation.status job = "completed") /\
               (Validation.status job = "failed" ->
                Validation.result_ job = None /\
                is_Some (Validation.error_message job)))
            records /\
     (validation_texts nonempty w ->
      Forall (fun job =>
                Validation.status job = "failed" ->
                exists text, Validation.error_message job = Some text /\ text <> "")
             records)).
Proof.
  repeat apply conj.
  - intros w table request records. split.
    + destruct (observed_records Training.exec Training.FailJob
                  Training.cancel_training_job
                  Training.view_of Training.kind_of "training" (fun _ => True) id
                  training_fresh (training_exec_present id) (training_cancel_present id)
                  _ (training_start _ w table id now request (fun _ _ => I)
                       (training_texts_True w)) sched) as [_ H].
      eapply Forall_impl; [exact H|]. intros job [Hp He]. simpl in *.
      rewrite bool_decide_eq_true in Hp. split; [exact Hp|]. intros Hf.
      split; [|destruct (He Hf) as (text & -> & _); eauto].
      destruct (Training.metrics job) eqn:E; [|done].
      assert (Hc : Training.status job = "completed") by (apply Hp; eauto).
      by rewrite Hf in Hc.
    + intros Ht.
      destruct (observed_records Training.exec Training.FailJob
                  Training.cancel_training_job
                  Training.view_of Training.kind_of "training" nonempty id
                  training_fresh (training_exec_present id) (training_cancel_present id)
                  _ (training_start _ w table id now request (fun _ H => H) Ht) sched)
        as [_ H].
      eapply Forall_impl; [exact H|]. intros job [_ He]. exact He.
  - intros w table request records. split.
    + destruct (observed_records Prediction.exec Prediction.FailJob
                  Prediction.cancel_prediction_job
                  Prediction.view_of Prediction.kind_of "running" (fun _ => True) id
                  running_fresh (prediction_exec_present w id)
                  (prediction_cancel_present id)
                  _ (prediction_start _ w table id now request (fun _ _ => I)
                       (prediction_texts_True w)) sched) as [_ H].
      eapply Forall_impl; [exact H|]. intros job [Hp He]. simpl in *.
      rewrite bool_decide_eq_true in Hp. split; [exact Hp|]. intros Hf.
      split; [|destruct (He Hf) as (text & -> & _); eauto].
      destruct (Prediction.output_path job) eqn:E; [|done].
      assert (Hc : Prediction.status job = "completed") by (apply Hp; eauto).
      by rewrite Hf in Hc.
    + intros Ht.
      destruct (observed_records Prediction.exec Prediction.FailJob
                  Prediction.cancel_prediction_job
                  Prediction.view_of Prediction.kind_of "running" nonempty id
                  running_fresh (prediction_exec_present w id)
                  (prediction_cancel_present id)
                  _ (prediction_start _ w table id now request (fun _ H => H) Ht) sched)
        as [_ H].
      eapply Forall_impl; [exact H|]. intros job [_ He]. exact He.
  - intros w table request records. split.
    + destruct (observed_records Validation.exec Validation.FailJob
                  Validation.cancel_validation_job
                  Validation.view_of Validation.kind_of "running" (fun _ => True) id
                  running_fresh (validation_exec_present w id)
                  (validation_cancel_present w id)
                  _ (validation_start _ w table id now request (fun _ _ => I)
                       (validation_texts_True w)) sched) as [_ H].
      eapply Forall_impl; [exact H|]. intros job [Hp He]. simpl in *.
      rewrite bool_decide_eq_true in Hp. split; [exact Hp|]. intros Hf.
      split; [|destruct (He Hf) as (text & -> & _); eauto].
      destruct (Validation.result_ job) eqn:E; [|done].
      assert (Hc : Validation.status job = "completed") by (apply Hp; eauto).
      by rewrite Hf in Hc.
    + intros Ht.
      destruct (observed_records Validation.exec Validation.FailJob
                  Validation.cancel_validation_job
                  Validation.view_of Validation.kind_of "running" nonempty id
                  running_fresh (validation_exec_present w id)
                  (validation_cancel_present w id)
                  _ (validation_start _ w table id now request (fun _ H => H) Ht) sched)
        as [_ H].
      eapply Forall_impl; [exact H|]. intros job [_ He]. exact He.
Qed.

(** A training job whose data set is missing: it fails with the text of the
    [FileNotFoundError], under a cancellation request on the way. *)
Lemma payload_iff_completed_witness :
  training_texts nonempty (training_world false) /\
  Forall (fun job =>
            Training.status job = "failed" ->
            exists text, Training.error_message job = Some text /\ text <> "")
         (readings (fun job => job) "job-1"
            (Training.history_job "job-1" [Work 1; Cancel 2; Work 3; Work 4]
               (Training.submitted (training_world false) ∅ "job-1" 0
                  (training_request Training.LINEAR_REGRESSION)))).
Proof.
  split; [apply training_world_texts|].
  apply (proj2 (proj1 (payload_iff_completed "job-1" 0 [Work 1; Cancel 2; Work 3; Work 4])
                  (training_world false) ∅ (training_request Training.LINEAR_REGRESSION))).
  apply training_world_texts.
Defined.

(** ** C1: a worker that finishes after a cancellation *)

(** C1, as the code has it: the job is cancelled while its worker runs, and
    the worker's completion write replaces the cancelled status. *)
Lemma cancelled_then_completed :
  let hist := Training.history_job "job-1" ([Work 1; Cancel 2] ++ replicate 19 (Work 3))
                (Training.submitted (training_world true) ∅ "job-1" 0
                   (training_request Training.LINEAR_REGRESSION)) in
  readings Training.status "job-1" hist !! 2%nat = Some "cancelled" /\
  last (readings Training.status "job-1" hist) = Some "completed".
Proof. vm_compute. split; reflexivity. Qed.

(** ** C10: the feature importance of a training job *)

(** C10: [_complete_job] stores status, progress, completion time, model path
    and metrics, and nothing of its [feature_importance] argument: the table
    it returns does not depend on that argument, and every result that
    [get_training_result] returns has [feature_importance = None]. *)
Theorem feature_importance_discarded
    (table : gmap string Training.TrainingStatus) (id : string) (now : datetime) :
  (forall model_id path ms fi fi',
     Training._complete_job table id now model_id path ms fi
     = Training._complete_job table id now model_id path ms fi') /\
  (forall job model_id path ms fi,
     table !! id = Some job ->
     Training._complete_job table id now model_id path ms fi !! id
     = Some {| Training.job_id := Training.job_id job;
               Training.status := "completed";
               Training.progress := 100;
               Training.metrics := Some ms;
               Training.error_message := Training.error_message job;
               Training.started_at := Training.started_at job;
               Training.completed_at := Some now;
               Training.model_path := Some path |}) /\
  (forall res, Training.get_training_result table id now = Some res ->
               Training.feature_importance res = None) /\
  (forall w table0 request sched res,
     Training.get_training_result
       (jobs (Training.run_job id sched (Training.submitted w table0 id now request)))
       id now = Some res ->
     Training.feature_importance res = None).
Proof.
  assert (Hres : forall tb t res, Training.get_training_result tb id t = Some res ->
                                  Training.feature_importance res = None).
  { intros tb t res. unfold Training.get_training_result, Training.get_training_status.
    destruct (tb !! id) as [job|]; [|done].
    case_bool_decide; [done|]. by intros [= <-]. }
  repeat apply conj.
  - reflexivity.
  - intros job model_id path ms fi Hj. unfold Training._complete_job.
    rewrite Hj. apply lookup_insert_eq.
  - apply Hres.
  - intros w table0 request sched res. apply Hres.
Qed.

(** ** C9: the model cache *)

(** A world for prediction: a data set of [rows] rows, a model that predicts
    the row number, and a confidence computation that raises on a batch of
    fewer than [confident_from] rows. *)
Definition prediction_world (rows confident_from : nat) : Prediction.world :=
  {| Prediction.Row := nat;
     Prediction.Estimator := string;
     Prediction.os_path_exists := fun _ => true;
     Prediction.pd_read_csv := fun _ => Ok (seq 0 rows);
     Prediction.joblib_load := fun path => Ok path;
     Prediction.predict :=
       fun _ df => Ok (map (fun r : nat => Fin (inject_Z (Z.of_nat r))) df);
     Prediction.confidence_try :=
       fun _ df ps =>
         if (length df <? confident_from)%nat then Raise "confidence failed"
         else Ok (map (fun _ => Fin 1) ps);
     Prediction.isoformat_now := "2024-01-01T00:00:00";
     Prediction.write_file := fun _ => Ok tt |}.

(** C9: a model id that is in the cache is answered from the cache, with no
    load from storage and no change of state; for an id that is not, and whose
    file exists and loads, the object is loaded once, stored and returned, and
    the next load of the same id returns the same object without a load.
    [clear_model_cache] empties the cache and leaves every object, and so every
    reference handed out before, as it was. *)
Theorem load_model_cached (w : Prediction.world) (s : Prediction.cache_state w)
    (model_id : string) :
  (forall ref, Prediction.models_cache s !! model_id = Some ref ->
               Prediction._load_model w s model_id = (Ok ref, s)) /\
  (forall model,
     Prediction.models_cache s !! model_id = None ->
     Prediction.os_path_exists w
       (os_path_join Prediction.models_dir (model_id +:+ ".pkl")) = true ->
     Prediction.joblib_load w
       (os_path_join Prediction.models_dir (model_id +:+ ".pkl")) = Ok model ->
     exists ref s1,
       Prediction._load_model w s model_id = (Ok ref, s1) /\
       Prediction.deref s1 ref = Some model /\
       Prediction.models_cache s1 !! model_id = Some ref /\
       length (Prediction.objects s1) = S (length (Prediction.objects s)) /\
       (forall ref0, ref0 <> ref -> Prediction.deref s1 ref0 = Prediction.deref s ref0) /\
       Prediction._load_model w s1 model_id = (Ok ref, s1)) /\
  Prediction.models_cache (Prediction.clear_model_cache w s) = ∅ /\
  (forall ref, Prediction.deref (Prediction.clear_model_cache w s) ref
               = Prediction.deref s ref).
Proof.
  repeat apply conj.
  - intros ref Hc. unfold Prediction._load_model. by rewrite Hc.
  - intros model Hc He Hl. unfold Prediction._load_model at 1. rewrite Hc, He, Hl. simpl.
    eexists _, _. split; [reflexivity|].
    unfold Prediction.deref, Prediction._load_model. simpl.
    rewrite lookup_insert_eq. repeat split.
    + by rewrite lookup_app_r, Nat.sub_diag.
    + rewrite length_app. simpl. lia.
    + intros ref0 Hne.
      destruct (decide (ref0 < length (Prediction.objects s))%nat) as [Hlt|Hge].
      * by rewrite lookup_app_l.
      * rewrite !lookup_ge_None_2; [done|lia|rewrite length_app; simpl; lia].
  - reflexivity.
  - reflexivity.
Qed.

Lemma load_model_cached_witness :
  exists ref s1,
    Prediction._load_model (prediction_world 3 0) (Prediction.CacheState ∅ []) "m1"
    = (Ok ref, s1) /\
    Prediction.deref s1 ref = Some "models/m1.pkl" /\
    Prediction.models_cache s1 !! "m1" = Some ref /\
    length (Prediction.objects s1) = 1%nat /\
    (forall ref0, ref0 <> ref ->
       Prediction.deref s1 ref0
       = Prediction.deref (Prediction.CacheState (w := prediction_world 3 0) ∅ []) ref0) /\
    Prediction._load_model (prediction_world 3 0) s1 "m1" = (Ok ref, s1).
Proof.
  apply (proj1 (proj2 (load_model_cached (prediction_world 3 0)
                         (Prediction.CacheState ∅ []) "m1")) "models/m1.pkl");
    reflexivity.
Defined.

(** ** C3: an unsupported algorithm *)

Definition supported_algorithms : list string :=
  map Training.value
    [Training.XGBOOST; Training.LIGHTGBM; Training.RANDOM_FOREST;
     Training.GRADIENT_BOOSTING; Training.LINEAR_REGRESSION].

Lemma create_model_unsupported w algorithm0 hyperparameters0 :
  algorithm0 ∉ supported_algorithms ->
  Training._create_model w algorithm0 hyperparameters0
  = wraise ("Unsupported algorithm: " +:+ algorithm0).
Proof.
  intros Hn. unfold Training._create_model.
  repeat (case_bool_decide;
          [exfalso; apply Hn; subst algorithm0; unfold supported_algorithms; simpl;
           set_solver|]).
  reflexivity.
Qed.

Lemma TrainingAlgorithm_of_value a :
  Training.TrainingAlgorithm_of (Training.value a) = Some a.
Proof. by destruct a. Qed.

Lemma TrainingAlgorithm_of_Some v a :
  Training.TrainingAlgorithm_of v = Some a -> Training.value a = v.
Proof.
  unfold Training.TrainingAlgorithm_of.
  repeat (case_bool_decide; [intros [= <-]; by subst|]). done.
Qed.

Lemma TrainingAlgorithm_of_None v :
  v ∉ supported_algorithms -> Training.TrainingAlgorithm_of v = None.
Proof.
  intros Hn. destruct (Training.TrainingAlgorithm_of v) as [a|] eqn:E; [|done].
  exfalso. apply Hn. apply TrainingAlgorithm_of_Some in E as <-.
  unfold supported_algorithms. destruct a; simpl; set_solver.
Qed.



(** ** C7: compare_models *)

Lemma float_lt_Fin x y : float_lt (Fin x) (Fin y) = true <-> (x < y)%Q.
Proof.
  simpl. rewrite negb_true_iff. split.
  - intros H. apply Qnot_le_lt. intros Hle. apply Qle_bool_iff in Hle. congruence.
  - intros H. destruct (Qle_bool y x) eqn:E; [|done].
    apply Qle_bool_iff in E. exfalso. by apply (Qlt_not_le x y).
Qed.

Lemma float_lt_irrefl a : float_lt a a = false.
Proof.
  destruct a; try done. destruct (float_lt (Fin q) (Fin q)) eqn:E; [|done].
  apply float_lt_Fin in E. exfalso. by apply (Qlt_irrefl q).
Qed.

Lemma float_lt_trans a b c :
  float_lt a b = true -> float_lt b c = true -> float_lt a c = true.
Proof.
  destruct a, b, c; try done. intros H1 H2.
  apply float_lt_Fin in H1, H2. apply float_lt_Fin. by eapply Qlt_trans.
Qed.

(** Is score [s] strictly better than [b] for the criterion? *)
Definition better (comparison_criteria : string) (s b : pyfloat) : bool :=
  if Validation.higher_is_better comparison_criteria then float_gt s b else float_lt s b.

(** The score every candidate has to beat. *)
Definition worst (comparison_criteria : string) : pyfloat :=
  if Validation.higher_is_better comparison_criteria then NegInf else PosInf.

Lemma better_irrefl c s : better c s s = false.
Proof. unfold better, float_gt. destruct (Validation.higher_is_better c); apply float_lt_irrefl. Qed.

Lemma better_trans c s1 s2 s3 :
  better c s1 s2 = true -> better c s2 s3 = true -> better c s1 s3 = true.
Proof.
  unfold better, float_gt. destruct (Validation.higher_is_better c); intros H1 H2.
  - by eapply float_lt_trans.
  - by eapply float_lt_trans.
Qed.

Lemma select_best_unfold c bm bs id ms :
  Validation.select_best c (bm, bs) (id, ms)
  = match ms !! c with
    | Some s => if better c s bs then (Some id, s) else (bm, bs)
    | None => (bm, bs)
    end.
Proof.
  unfold Validation.select_best, better.
  destruct (ms !! c); [|done]. by destruct (Validation.higher_is_better c).
Qed.

(** What the selection loop has found after the items [l]. *)
Lemma select_best_fold c l : forall bm0 bs0,
  let r := fold_left (Validation.select_best c) l (bm0, bs0) in
  (forall id ms s, (id, ms) ∈ l -> ms !! c = Some s -> better c s (snd r) = false) /\
  ((r = (bm0, bs0) /\
    forall id ms s, (id, ms) ∈ l -> ms !! c = Some s -> better c s bs0 = false) \/
   (exists id ms, (id, ms) ∈ l /\ fst r = Some id /\ ms !! c = Some (snd r) /\
                  better c (snd r) bs0 = true)).
Proof.
  induction l as [|[id ms] l IH]; intros bm0 bs0; cbv zeta; cbn [fold_left].
  - simpl. split; [intros ? ? ? Hin; by apply elem_of_nil in Hin|].
    left. split; [done|]. intros ? ? ? Hin. by apply elem_of_nil in Hin.
  - rewrite select_best_unfold.
    destruct (ms !! c) as [s|] eqn:Hs.
    + destruct (better c s bs0) eqn:Hb.
      * destruct (IH (Some id) s) as [Hall Hcase].
        set (r := fold_left (Validation.select_best c) l (Some id, s)) in *.
        assert (Hrs : better c s (snd r) = false).
        { destruct Hcase as [[-> _]|(id' & ms' & _ & _ & _ & Hb')]; simpl.
          - apply better_irrefl.
          - destruct (better c s r.2) eqn:E; [|done].
            pose proof (better_trans _ _ _ _ E Hb') as Hc.
            by rewrite better_irrefl in Hc. }
        split.
        -- intros id1 ms1 s1 Hin Hs1. apply elem_of_cons in Hin as [[= -> ->]|Hin].
           ++ rewrite Hs in Hs1. injection Hs1 as <-. exact Hrs.
           ++ by eapply Hall.
        -- right. destruct Hcase as [[-> _]|(id' & ms' & Hin & Hf & Hm & Hb')]; simpl.
           ++ exists id, ms. split; [apply elem_of_cons; by left|]. done.
           ++ exists id', ms'. split; [apply elem_of_cons; by right|].
              split; [done|]. split; [done|]. by eapply better_trans.
      * destruct (IH bm0 bs0) as [Hall Hcase].
        set (r := fold_left (Validation.select_best c) l (bm0, bs0)) in *.
        split.
        -- intros id1 ms1 s1 Hin Hs1. apply elem_of_cons in Hin as [[= -> ->]|Hin].
           ++ rewrite Hs in Hs1. injection Hs1 as <-.
              destruct Hcase as [[-> _]|(id' & ms' & _ & _ & _ & Hb')]; simpl; [done|].
              destruct (better c s r.2) eqn:E; [|done].
              pose proof (better_trans _ _ _ _ E Hb') as Hc. congruence.
           ++ by eapply Hall.
        -- destruct Hcase as [[Hr Hno]|(id' & ms' & Hin & Hf & Hm & Hb')].
           ++ left. split; [done|]. intros id1 ms1 s1 Hin Hs1.
              apply elem_of_cons in Hin as [[= -> ->]|Hin].
              ** rewrite Hs in Hs1. by injection Hs1 as <-.
              ** by eapply Hno.
           ++ right. exists id', ms'. split; [apply elem_of_cons; by right|]. done.
    + destruct (IH bm0 bs0) as [Hall Hcase].
      set (r := fold_left (Validation.select_best c) l (bm0, bs0)) in *.
      split.
      * intros id1 ms1 s1 Hin Hs1. apply elem_of_cons in Hin as [[= -> ->]|Hin].
        -- congruence.
        -- by eapply Hall.
      * destruct Hcase as [[Hr Hno]|(id' & ms' & Hin & Hf & Hm & Hb')].
        -- left. split; [done|]. intros id1 ms1 s1 Hin Hs1.
           apply elem_of_cons in Hin as [[= -> ->]|Hin]; [congruence|]. by eapply Hno.
        -- right. exists id', ms'. split; [apply elem_of_cons; by right|]. done.
Qed.

(** A dict holds a key once; [dict_set] keeps it so. *)
Lemma dict_set_spec {V} (d : list (string * V)) k v :
  NoDup (d.*1) ->
  NoDup ((dict_set d k v).*1) /\
  forall k' v', (k', v') ∈ dict_set d k v <->
                (k' = k /\ v' = v) \/ (k' <> k /\ (k', v') ∈ d).
Proof.
  induction d as [|[k0 v0] d IH]; simpl; intros Hnd.
  - split; [apply NoDup_singleton|]. intros k' v'.
    rewrite list_elem_of_singleton. split.
    + intros [= -> ->]. by left.
    + intros [[-> ->]|[_ Hin]]; [done|]. by apply elem_of_nil in Hin.
  - apply NoDup_cons in Hnd as [Hk0 Hnd].
    case_bool_decide as Hk.
    + subst k0. split; [simpl; by apply NoDup_cons|]. intros k' v'.
      rewrite !elem_of_cons. split.
      * intros [[= -> ->]|Hin]; [by left|]. right. split; [|by right].
        intros ->. apply Hk0. apply list_elem_of_fmap. by exists (k, v').
      * intros [[-> ->]|[Hne [[= -> ->]|Hin]]]; [by left|done|by right].
    + destruct (IH Hnd) as [Hnd' Hin']. split.
      * simpl. apply NoDup_cons. split; [|done].
        intros Hin. apply list_elem_of_fmap in Hin as [[k1 v1] [-> Hin]].
        apply Hin' in Hin as [[-> ->]|[_ Hin]]; [done|].
        apply Hk0. apply list_elem_of_fmap. by exists (k1, v1).
      * intros k' v'. rewrite !elem_of_cons, Hin'. split.
        -- intros [[= -> ->]|[[-> ->]|[Hne Hin]]]; [right; auto|by left|right; auto].
        -- intros [[-> ->]|[Hne [[= -> ->]|Hin]]];
             [right; by left|by left|right; right; auto].
Qed.

(** The metrics of a candidate that is found, loads and is evaluated; [None]
    for a candidate that [compare_models] skips. *)
Definition candidate_metrics (w : Validation.world)
    (X_train X_test y_train y_test : Validation.Frame w) (is_regression : bool)
    (model_id : string) : option (gmap string pyfloat) :=
  let model_path := os_path_join Validation.models_dir (model_id +:+ ".pkl") in
  if Validation.os_path_exists w model_path then
    match Validation.evaluate_try w X_train X_test y_train y_test is_regression
            model_path with
    | Ok ms => Some ms
    | Raise _ => None
    end
  else None.

Section CompareModels.
Variable w : Validation.world.
Variables X_train X_test y_train y_test : Validation.Frame w.
Variable is_regression : bool.

Let cand := candidate_metrics w X_train X_test y_train y_test is_regression.
Let eval := Validation.evaluate_model w X_train X_test y_train y_test is_regression.

Lemma evaluate_model_unfold results id :
  eval results id
  = match cand id with Some ms => dict_set results id ms | None => results end.
Proof.
  unfold eval, cand, Validation.evaluate_model, candidate_metrics.
  destruct (Validation.os_path_exists w _); simpl; [|done].
  by destruct (Validation.evaluate_try _ _ _ _ _ _ _).
Qed.

Lemma results_fold ids : forall acc,
  NoDup (acc.*1) ->
  (forall id ms, (id, ms) ∈ acc -> cand id = Some ms) ->
  NoDup ((fold_left eval ids acc).*1) /\
  forall id ms, (id, ms) ∈ fold_left eval ids acc <->
                (id ∈ ids /\ cand id = Some ms) \/ (id, ms) ∈ acc.
Proof.
  induction ids as [|x ids IH]; intros acc Hnd Hacc; cbn [fold_left].
  - split; [done|]. intros id ms. split; [by right|].
    intros [[Hin _]|?]; [by apply elem_of_nil in Hin|done].
  - rewrite evaluate_model_unfold.
    destruct (cand x) as [mx|] eqn:Hx.
    + destruct (dict_set_spec acc x mx Hnd) as [Hnd' Hin'].
      destruct (IH (dict_set acc x mx) Hnd') as [Hnd'' Hin''].
      { intros id ms Hin. apply Hin' in Hin as [[-> ->]|[_ Hin]]; [done|by apply Hacc]. }
      split; [done|]. intros id ms. rewrite Hin'', Hin', elem_of_cons. split.
      * intros [[Hin Hc]|[[-> ->]|[Hne Hin]]];
          [left; auto|left; split; [by left|done]|by right].
      * intros [[[->|Hin] Hc]|Hin].
        -- right. left. split; [done|]. congruence.
        -- left. auto.
        -- destruct (decide (id = x)) as [->|Hne]; [|right; right; auto].
           right. left. split; [done|]. apply Hacc in Hin. congruence.
    + destruct (IH acc Hnd Hacc) as [Hnd'' Hin''].
      split; [done|]. intros id ms. rewrite Hin'', elem_of_cons. split.
      * intros [[Hin Hc]|Hin]; [left; auto|by right].
      * intros [[[->|Hin] Hc]|Hin]; [congruence|left; auto|by right].
Qed.

End CompareModels.

Lemma or_none_Some id : id <> "" -> Validation.or_none (Some id) = id.
Proof.
  intros Hne. unfold Validation.or_none, truthy_str.
  destruct (String.eqb id "") eqn:E; [|done]. by apply String.eqb_eq in E.
Qed.

(** A world for validation: the data set ["ds1"], the models ["m1"] (accuracy
    4/5) and ["m3"] (accuracy 9/10); the file of ["m2"] is missing.  A frame
    is a tag; what a model predicts is tagged with the path of the model. *)
Definition validation_world : Validation.world :=
  {| Validation.Frame := string;
     Validation.Estimator := string;
     Validation.Report := unit;
     Validation.os_path_exists :=
       fun path => bool_decide (path ∈ ["data/ds1.csv"; "models/m1.pkl"; "models/m3.pkl"]);
     Validation.pd_read_csv := fun _ => Ok "df";
     Validation.columns := fun _ => ["a"; "b"; "label"];
     Validation.getitem_columns := fun _ _ => Ok "X";
     Validation.getitem_column := fun _ _ => Ok "y";
     Validation.nunique := fun _ => 2;
     Validation.is_numeric_dtype := fun _ => true;
     Validation.joblib_load := fun path => Ok path;
     Validation.train_test_split := fun _ _ => Ok ("X_train", "X_test", "y_train", "y_test");
     Validation.fit := fun model _ _ => Ok model;
     Validation.predict := fun model _ => Ok model;
     Validation.mean_squared_error := fun _ _ => Ok (Fin 1);
     Validation.mean_absolute_error := fun _ _ => Ok (Fin 1);
     Validation.r2_score := fun _ _ => Ok (Fin 0);
     Validation.np_sqrt := fun x => x;
     Validation.accuracy_score :=
       fun _ y_pred =>
         Ok (Fin (if bool_decide (y_pred = "models/m1.pkl") then 4 # 5 else 9 # 10));
     Validation.precision_score := fun _ _ => Ok (Fin (1 # 2));
     Validation.recall_score := fun _ _ => Ok (Fin (1 # 2));
     Validation.f1_score := fun _ _ => Ok (Fin (1 # 2));
     Validation._perform_cross_validation :=
       fun _ _ _ _ _ _ => Ok (∅, None, None, None, Fin 1);
     Validation._perform_holdout_validation :=
       fun _ _ _ _ _ => Ok (∅, None, None, None, Fin 1) |}.

(** ** C6: the batches of a batch prediction *)

(** The values of [processed_records] a sequence of actions writes. *)
Definition processed_writes {w : Prediction.world} (evs : list (Prediction.event w))
  : list Z :=
  omap (fun e => match e with Prediction.SetProcessedRecords n => Some n | _ => None end)
       evs.

(** The values of [total_records] a sequence of actions writes. *)
Definition total_writes {w : Prediction.world} (evs : list (Prediction.event w))
  : list Z :=
  omap (fun e => match e with Prediction.SetTotalRecords n => Some n | _ => None end) evs.

(** The prediction columns a sequence of actions writes to the result sink. *)
Definition written_predictions {w : Prediction.world} (evs : list (Prediction.event w))
  : list (list pyfloat) :=
  omap (fun e =>
          match e with
          | Prediction.External (Prediction.JsonDump _ data) =>
              Some (Prediction.out_predictions data)
          | Prediction.External (Prediction.ToCsv _ data) =>
              Some (Prediction.csv_prediction data)
          | _ => None
          end) evs.

Lemma wbind_Ok {E A B} (m : worker E A) (k : A -> worker E B) evs b :
  m ≫= k = (evs, Ok b) ->
  exists evs1 a evs2, m = (evs1, Ok a) /\ k a = (evs2, Ok b) /\ evs = evs1 ++ evs2.
Proof.
  unfold mbind, worker_bind, wbind. destruct m as [evs1 [a|text]]; [|done].
  destruct (k a) as [evs2 r] eqn:Hk. intros [= <- ->]. eauto 6.
Qed.

Lemma processed_writes_app {w} (l1 l2 : list (Prediction.event w)) :
  processed_writes (l1 ++ l2) = processed_writes l1 ++ processed_writes l2.
Proof. apply omap_app. Qed.

Lemma total_writes_app {w} (l1 l2 : list (Prediction.event w)) :
  total_writes (l1 ++ l2) = total_writes l1 ++ total_writes l2.
Proof. apply omap_app. Qed.

Lemma written_predictions_app {w} (l1 l2 : list (Prediction.event w)) :
  written_predictions (l1 ++ l2) = written_predictions l1 ++ written_predictions l2.
Proof. apply omap_app. Qed.

Section Batches.
Variable w : Prediction.world.
Hypothesis predict_length : forall model rows ps,
  Prediction.predict w model rows = Ok ps -> length ps = length rows.
Variable request : Prediction.BatchPredictionRequest.
Variable model : Prediction.Estimator w.
Variable df : list (Prediction.Row w).

Let n := Z.of_nat (length df).

Lemma batch_body_Ok acc i evs res :
  0 <= i ->
  Prediction.batch_body w request model df n acc i = (evs, Ok res) ->
  processed_writes evs = [Z.min (i + Prediction.batch_size) n] /\
  total_writes evs = [] /\ written_predictions evs = [] /\
  length (fst res)
  = (length (fst acc) + length (take (Z.to_nat Prediction.batch_size)
                                     (drop (Z.to_nat i) df)))%nat.
Proof using predict_length.
  intros Hi. unfold Prediction.batch_body. destruct acc as [predictions scores].
  intros H.
  apply wbind_Ok in H as (e1 & ps & e2 & H1 & H & ->).
  apply wbind_Ok in H as (e3 & sc & e4 & H3 & H & ->).
  apply wbind_Ok in H as (e5 & [] & e6 & H5 & H & ->).
  apply wbind_Ok in H as (e7 & [] & e8 & H7 & H & ->).
  injection H as <- <-. injection H5 as <-. injection H7 as <-.
  unfold call in H1. injection H1 as <- Hp.
  assert (He3 : processed_writes e3 = [] /\ total_writes e3 = []
                /\ written_predictions e3 = []).
  { destruct (Prediction.include_confidence request).
    - apply wbind_Ok in H3 as (e9 & c & e10 & H9 & H10 & ->).
      injection H9 as <- _. by injection H10 as <- _.
    - by injection H3 as <- _. }
  destruct He3 as (Ha & Hb & Hc).
  rewrite !processed_writes_app, !total_writes_app, !written_predictions_app, Ha, Hb, Hc.
  simpl. repeat split; try done.
  rewrite length_app. by rewrite (predict_length _ _ _ Hp).
Qed.

Lemma batches_Ok len : forall start acc evs res,
  for_each (Prediction.batch_body w request model df n)
    (map (fun k : nat => 0 + Z.of_nat k * Prediction.batch_size) (seq start len)) acc
  = (evs, Ok res) ->
  length (fst acc) = Nat.min (start * 1000) (length df) ->
  processed_writes evs
  = map (fun i => Z.min (i + Prediction.batch_size) n)
        (map (fun k : nat => 0 + Z.of_nat k * Prediction.batch_size) (seq start len)) /\
  total_writes evs = [] /\ written_predictions evs = [] /\
  length (fst res) = Nat.min ((start + len) * 1000) (length df).
Proof using predict_length.
  induction len as [|len IH]; intros start acc evs res H Hacc.
  - simpl in H. injection H as <- <-. simpl. rewrite Nat.add_0_r. done.
  - cbn [seq map for_each] in H.
    apply wbind_Ok in H as (e1 & acc' & e2 & H1 & H2 & ->).
    apply batch_body_Ok in H1 as (Hp & Ht & Hw & Hl);
      [|unfold Prediction.batch_size; lia].
    apply IH in H2 as (Hp' & Ht' & Hw' & Hl').
    + rewrite processed_writes_app, total_writes_app, written_predictions_app.
      rewrite Hp, Ht, Hw, Hp', Ht', Hw'. repeat split; try done.
      rewrite Hl'. f_equal. lia.
    + rewrite Hl, Hacc, length_take, length_drop.
      unfold Prediction.batch_size.
      replace (Z.to_nat (0 + Z.of_nat start * 1000)) with (start * 1000)%nat by lia.
      replace (Z.to_nat 1000) with 1000%nat by lia. lia.
Qed.

Lemma loop_Ok acc evs res :
  for_each (Prediction.batch_body w request model df n)
    (py_range 0 n Prediction.batch_size) acc = (evs, Ok res) ->
  fst acc = [] ->
  processed_writes evs
  = map (fun i => Z.min (i + Prediction.batch_size) n) (py_range 0 n Prediction.batch_size)
  /\ total_writes evs = [] /\ written_predictions evs = [] /\
  length (fst res) = length df.
Proof using predict_length.
  unfold py_range. intros H Hacc.
  apply batches_Ok in H as (Hp & Ht & Hw & Hl); [|by rewrite Hacc].
  repeat split; try done. rewrite Hl.
  unfold Prediction.batch_size, n.
  assert (Z.of_nat (length df) <= Z.of_nat (Z.to_nat ((Z.of_nat (length df) - 0 + 1000 - 1) / 1000)) * 1000).
  { rewrite Z2Nat.id by (apply Z.div_pos; lia).
    pose proof (Z.mul_div_le (Z.of_nat (length df) - 0 + 1000 - 1) 1000 ltac:(lia)).
    pose proof (Z.mod_pos_bound (Z.of_nat (length df) - 0 + 1000 - 1) 1000 ltac:(lia)).
    pose proof (Z.div_mod (Z.of_nat (length df) - 0 + 1000 - 1) 1000 ltac:(lia)).
    lia. }
  lia.
Qed.

End Batches.

(** A worker that performs its completion write has run its [try] block to
    the end. *)
Lemma complete_means_ok {E} (kind_of : E -> kind) running good e0 p
    (k : unit -> worker E unit) (fail : string -> E) e :
  kind_of e0 = KUpdate running p ->
  rest_ok kind_of running good p (k tt) ->
  (forall text, kind_of (fail text) = KFail text) ->
  kind_of e = KComplete ->
  e ∈ try_except (emit e0 ≫= k) (fun text => [fail text]) ->
  exists evs, emit e0 ≫= k = (evs, Ok tt).
Proof.
  intros He0 Hk Hfail He Hin.
  unfold mbind, worker_bind, wbind, emit, try_except, rest_ok in *.
  destruct (k tt) as [evs [[]|text]]; simpl in *; [eauto|].
  exfalso. destruct Hk as [Hs _].
  apply elem_of_cons in Hin as [->|Hin]; [congruence|].
  apply elem_of_app in Hin as [Hin|Hin].
  - apply (steps_no_complete _ _ _ _ Hs). rewrite <- He.
    by apply list_elem_of_fmap_2.
  - apply list_elem_of_singleton in Hin. subst e. rewrite Hfail in He. done.
Qed.

Section BatchPrediction.
Variable w : Prediction.world.
Hypothesis predict_length : forall model rows ps,
  Prediction.predict w model rows = Ok ps -> length ps = length rows.
Variable id : string.
Variable request : Prediction.BatchPredictionRequest.
Variable df : list (Prediction.Row w).
Hypothesis read :
  Prediction.pd_read_csv w
    (os_path_join Prediction.data_dir (Prediction.req_dataset_id request +:+ ".csv"))
  = Ok df.

Let n := Z.of_nat (length df).

Lemma run_batch_prediction_try_Ok evs :
  Prediction._run_batch_prediction_try w id request = (evs, Ok tt) ->
  processed_writes evs
  = map (fun i => Z.min (i + Prediction.batch_size) n) (py_range 0 n Prediction.batch_size)
  /\ total_writes evs = [n] /\
  (exists predictions, written_predictions evs = [predictions] /\
                       length predictions = length df) /\
  exists pre path, evs = pre ++ [Prediction.CompleteJob path].
Proof using predict_length read.
  unfold Prediction._run_batch_prediction_try. intros H.
  apply wbind_Ok in H as (e1 & [] & r1 & H1 & H & ->). injection H1 as <-.
  apply wbind_Ok in H as (e2 & found & r2 & H2 & H & ->). injection H2 as <- _.
  apply wbind_Ok in H as (e3 & [] & r3 & H3 & H & ->).
  assert (e3 = []) as -> by (destruct (negb found); by injection H3 as <-).
  apply wbind_Ok in H as (e4 & df' & r4 & H4 & H & ->).
  unfold call in H4. rewrite read in H4. injection H4 as <- <-.
  apply wbind_Ok in H as (e5 & [] & r5 & H5 & H & ->). injection H5 as <-.
  apply wbind_Ok in H as (e6 & [] & r6 & H6 & H & ->). injection H6 as <-.
  apply wbind_Ok in H as (e7 & found' & r7 & H7 & H & ->). injection H7 as <- _.
  apply wbind_Ok in H as (e8 & [] & r8 & H8 & H & ->).
  assert (e8 = []) as -> by (destruct (negb found'); by injection H8 as <-).
  apply wbind_Ok in H as (e9 & model & r9 & H9 & H & ->). injection H9 as <- _.
  apply wbind_Ok in H as (e10 & [] & r10 & H10 & H & ->). injection H10 as <-.
  apply wbind_Ok in H as (e11 & [predictions scores] & r11 & H11 & H & ->).
  apply (loop_Ok w predict_length) in H11 as (Hp & Ht & Hw & Hl); [|done].
  apply wbind_Ok in H as (e12 & path & r12 & H12 & H & ->).
  injection H as <-. simpl in Hl.
  assert (Hout : processed_writes e12 = [] /\ total_writes e12 = [] /\
                 written_predictions e12 = [predictions]).
  { destruct (bool_decide (Prediction.output_format request = "json")).
    - apply wbind_Ok in H12 as (a1 & [] & a2 & Ha1 & Ha2 & ->).
      injection Ha1 as <- _. injection Ha2 as <- _. done.
    - apply wbind_Ok in H12 as (a1 & [] & a2 & Ha1 & Ha2 & ->).
      injection Ha1 as <- _.
      apply wbind_Ok in Ha2 as (a3 & [] & a4 & Ha3 & Ha4 & ->).
      assert (a3 = []) as ->.
      { destruct (truthy_list scores); by injection Ha3 as <-. }
      apply wbind_Ok in Ha4 as (a5 & [] & a6 & Ha5 & Ha6 & ->).
      injection Ha5 as <- _. injection Ha6 as <- _. done. }
  destruct Hout as (Ho1 & Ho2 & Ho3).
  rewrite !processed_writes_app, !total_writes_app, !written_predictions_app.
  rewrite Hp, Ht, Hw, Ho1, Ho2, Ho3. simpl. rewrite !app_nil_r.
  repeat split; try done; [eauto|].
  eexists (_ :: _ :: _ :: _ :: _ :: _ :: _ :: _ :: e11 ++ e12), path.
  simpl. rewrite <- app_assoc. reflexivity.
Qed.

Lemma run_batch_prediction_completes path :
  Prediction.CompleteJob path ∈ Prediction._run_batch_prediction w id request ->
  Prediction._run_batch_prediction_try w id request
  = (Prediction._run_batch_prediction w id request, Ok tt).
Proof using.
  intros Hin.
  destruct (run_batch_prediction_try_rest (fun _ => True) (fun _ _ => I) w
              (prediction_texts_True w) id request) as (p & k & Heq & _ & Hk).
  unfold Prediction._run_batch_prediction in *. rewrite Heq in *.
  destruct (complete_means_ok Prediction.kind_of "running" (fun _ => True)
              (Prediction.UpdateJobStatus "running" p) p k
              Prediction.FailJob (Prediction.CompleteJob path)) as [evs Hevs]; try done.
  by rewrite Hevs.
Qed.

(** The record of the job settles on [n] records, all processed, once the
    rest of the worker has run. *)
Definition settling (s : sys Prediction.PredictionJob (Prediction.event w)) : Prop :=
  exists job,
    jobs s !! id = Some job /\
    default (Prediction.processed_records job) (last (processed_writes (todo s))) = n /\
    default (Prediction.total_records job) (last (total_writes (todo s))) = n /\
    ((todo s = [] /\ Prediction.status job = "completed") \/
     exists pre p, todo s = pre ++ [Prediction.CompleteJob p]).

Lemma default_last_cons {A} (cur x : A) l : default cur (last (x :: l)) = default x (last l).
Proof using.
  revert cur x. induction l as [|y l IH]; intros cur x; [done|].
  change (last (x :: y :: l)) with (last (y :: l)).
  by rewrite (IH cur y), (IH x y).
Qed.

Lemma settling_step t s : settling s -> settling (Prediction.step_job id t s).
Proof using predict_length read.
  intros (job & Hj & Hp & Ht & Hshape). destruct s as [table td]; simpl in *.
  destruct t as [now|now]; simpl.
  - destruct td as [|e rest]; simpl.
    { exists job. done. }
    destruct Hshape as [[? _]|(pre & p & Hpre)]; [done|].
    assert (Hrest : (rest = [] /\ e = Prediction.CompleteJob p) \/
                    exists pre', rest = pre' ++ [Prediction.CompleteJob p]).
    { destruct pre as [|e' pre']; simpl in Hpre; injection Hpre as -> ->; eauto. }
    assert (Hshape' : forall st,
              (forall q, e = Prediction.CompleteJob q -> st = "completed") ->
              (rest = [] /\ st = "completed") \/
              exists pre' p', rest = pre' ++ [Prediction.CompleteJob p']).
    { intros st Hst. destruct Hrest as [[-> ->]|[pre' ->]]; [left|right; eauto].
      split; [done|]. by eapply Hst. }
    destruct e; simpl.
    + unfold Prediction._update_job_status. rewrite Hj.
      eexists. split; [apply lookup_insert_eq|]. simpl.
      split; [exact Hp|]. split; [exact Ht|]. by apply Hshape'.
    + unfold Prediction.set_total_records. rewrite Hj.
      eexists. split; [apply lookup_insert_eq|]. simpl.
      split; [exact Hp|]. split; [|by apply Hshape'].
      unfold total_writes in *. simpl in Ht. by rewrite default_last_cons in Ht.
    + unfold Prediction.set_processed_records. rewrite Hj.
      eexists. split; [apply lookup_insert_eq|]. simpl.
      split; [|split; [exact Ht|by apply Hshape']].
      unfold processed_writes in *. simpl in Hp. by rewrite default_last_cons in Hp.
    + unfold Prediction.complete_job. rewrite Hj.
      eexists. split; [apply lookup_insert_eq|]. simpl.
      split; [exact Hp|]. split; [exact Ht|]. by apply Hshape'.
    + unfold Prediction._fail_job. rewrite Hj.
      eexists. split; [apply lookup_insert_eq|]. simpl.
      split; [exact Hp|]. split; [exact Ht|]. by apply Hshape'.
    + exists job. split; [exact Hj|].
      split; [exact Hp|]. split; [exact Ht|]. by apply Hshape'.
  - unfold Prediction.cancel_prediction_job. rewrite Hj.
    case_bool_decide as Hin; simpl.
    + eexists. split; [apply lookup_insert_eq|]. simpl.
      split; [done|]. split; [done|].
      destruct Hshape as [[_ Hc]|?]; [|by right].
      rewrite Hc in Hin. set_solver.
    + exists job. done.
Qed.

Lemma settling_run sched : forall s, settling s -> settling (Prediction.run_job id sched s).
Proof using predict_length read.
  induction sched as [|t sched IH]; intros s Hs; [done|].
  apply IH. by apply settling_step.
Qed.

End BatchPrediction.

Lemma last_batch_is_all (n : Z) :
  0 <= n ->
  default 0 (last (map (fun i => Z.min (i + Prediction.batch_size) n)
                       (py_range 0 n Prediction.batch_size))) = n.
Proof.
  intros Hn. unfold py_range, Prediction.batch_size.
  destruct (Z.to_nat ((n - 0 + 1000 - 1) / 1000)) as [|c] eqn:Hc.
  - simpl. assert ((n - 0 + 1000 - 1) / 1000 <= 0) by lia.
    pose proof (Z.div_mod (n - 0 + 1000 - 1) 1000 ltac:(lia)).
    pose proof (Z.mod_pos_bound (n - 0 + 1000 - 1) 1000 ltac:(lia)).
    destruct (decide (0 <= (n - 0 + 1000 - 1) / 1000)); [lia|].
    pose proof (Z.div_pos (n - 0 + 1000 - 1) 1000 ltac:(lia) ltac:(lia)). lia.
  - rewrite seq_S, !map_app. simpl. rewrite !last_snoc. simpl.
    assert (Z.of_nat (S c) = (n - 0 + 1000 - 1) / 1000).
    { rewrite <- Hc. rewrite Z2Nat.id; [done|]. apply Z.div_pos; lia. }
    pose proof (Z.div_mod (n - 0 + 1000 - 1) 1000 ltac:(lia)).
    pose proof (Z.mod_pos_bound (n - 0 + 1000 - 1) 1000 ltac:(lia)).
    lia.
Qed.

(** C6: a batch prediction over a data set of N rows that completes has
    processed the rows in batches of 1000 ([batch_size]): the values it writes
    to [processed_records] are min(1000, N), min(2000, N), ... up to N, it
    writes one output, which holds exactly N predictions, and once its worker
    is done the record says completed with [processed_records] and
    [total_records] equal to N, whatever cancellation requests came in
    between.  (The model predicts one value for each row.) *)
Theorem batch_prediction_chunks (w : Prediction.world) (id : string)
    (request : Prediction.BatchPredictionRequest) (df : list (Prediction.Row w)) :
  (forall model rows ps,
     Prediction.predict w model rows = Ok ps -> length ps = length rows) ->
  Prediction.pd_read_csv w
    (os_path_join Prediction.data_dir (Prediction.req_dataset_id request +:+ ".csv"))
  = Ok df ->
  (exists path,
     Prediction.CompleteJob path ∈ Prediction._run_batch_prediction w id request) ->
  let n := Z.of_nat (length df) in
  let trace := Prediction._run_batch_prediction w id request in
  Prediction.batch_size = 1000 /\
  processed_writes trace = map (fun i => Z.min (i + 1000) n) (py_range 0 n 1000) /\
  total_writes trace = [n] /\
  (exists predictions,
     written_predictions trace = [predictions] /\ length predictions = length df) /\
  (forall table now sched,
     let s := Prediction.run_job id sched (Prediction.submitted w table id now request) in
     todo s = [] ->
     exists job,
       jobs s !! id = Some job /\ Prediction.status job = "completed" /\
       Prediction.processed_records job = n /\ Prediction.total_records job = n).
Proof.
  intros Hlen Hread [path Hin] n trace.
  pose proof (run_batch_prediction_completes w id request path Hin) as Hok.
  destruct (run_batch_prediction_try_Ok w Hlen id request df Hread _ Hok)
    as (Hp & Ht & Hw & pre & path' & Hpre).
  fold trace in Hp, Ht, Hw, Hpre. fold n in Hp, Ht.
  split; [done|]. split; [exact Hp|]. split; [exact Ht|]. split; [exact Hw|].
  intros table now sched s Hdone.
  assert (Hstart : settling w id df (Prediction.submitted w table id now request)).
  { unfold settling, Prediction.submitted, Prediction.start_batch_prediction.
    cbn [jobs todo fst]. eexists. split; [apply lookup_insert_eq|].
    fold trace. fold n. rewrite Hp, Ht. simpl.
    split; [apply last_batch_is_all; lia|]. split; [done|]. right. eauto. }
  destruct (settling_run w Hlen id request df Hread sched _ Hstart)
    as (job & Hj & Hpr & Htot & Hshape).
  fold s in Hj, Hpr, Htot, Hshape. rewrite Hdone in *. simpl in *.
  exists job. destruct Hshape as [[_ Hc]|(pre' & p' & Hnil)]; [done|].
  by destruct pre'.
Qed.

Definition batch_request (format : string) (confidence : bool)
  : Prediction.BatchPredictionRequest :=
  {| Prediction.req_model_id := "m1"; Prediction.req_dataset_id := "ds1";
     Prediction.output_format := format; Prediction.include_confidence := confidence |}.

Lemma last_elem_of {A} (l : list A) x : last l = Some x -> x ∈ l.
Proof.
  induction l as [|y l IH]; [done|]. destruct l as [|z l].
  - intros [= ->]. apply elem_of_cons. by left.
  - intros H. apply elem_of_cons. right. by apply IH.
Qed.

(** The 2500 rows of the scenario: the checkpoints are 1000, 2000 and 2500,
    and the output holds 2500 predictions. *)
Lemma batch_prediction_chunks_witness :
  let trace :=
    Prediction._run_batch_prediction (prediction_world 2500 0) "job-1"
      (batch_request "json" false) in
  processed_writes trace = [1000; 2000; 2500] /\
  total_writes trace = [2500] /\
  exists predictions,
    written_predictions trace = [predictions] /\ length predictions = 2500%nat.
Proof.
  assert (Hlen : forall model rows ps,
            Prediction.predict (prediction_world 2500 0) model rows = Ok ps ->
            length ps = length rows).
  { intros model rows ps [= <-]. apply length_map. }
  assert (Hdone : exists path,
            Prediction.CompleteJob path
            ∈ Prediction._run_batch_prediction (prediction_world 2500 0) "job-1"
                (batch_request "json" false)).
  { exists "outputs/job-1_predictions.json". apply last_elem_of. vm_compute. reflexivity. }
  pose proof (batch_prediction_chunks (prediction_world 2500 0) "job-1"
                (batch_request "json" false) (seq 0 2500) Hlen eq_refl Hdone) as H.
  cbv zeta in H. destruct H as (_ & Hp & Ht & Hw & _).
  rewrite length_seq in Hp, Ht, Hw. split; [exact Hp|]. split; [exact Ht|exact Hw].
Defined.

(** ** C8: best-effort computations *)

(** C8, on the CSV path of [_run_batch_prediction]: 1001 rows, confidence
    requested, and a confidence computation that raises on the second batch
    (one row) only.  [_calculate_confidence_scores] swallows the exception and
    answers [None] for that batch, the 1000 scores of the first batch are
    kept, and the assignment of the 1000 scores to the 1001 rows of the result
    frame raises: the job fails.  With the JSON output the same run
    completes. *)
Theorem partial_confidence_fails_csv_job :
  let w := prediction_world 1001 1000 in
  Prediction._calculate_confidence_scores w "models/m1.pkl" [1000%nat] [Fin 1000] = None /\
  last (Prediction._run_batch_prediction w "job-1" (batch_request "csv" true))
  = Some (Prediction.FailJob
            "Length of values (1000) does not match length of index (1001)") /\
  Prediction.status <$>
    (jobs (Prediction.run_job "job-1" (replicate 40 (Work 1))
             (Prediction.submitted w ∅ "job-1" 0 (batch_request "csv" true))) !! "job-1")
  = Some "failed" /\
  last (Prediction._run_batch_prediction w "job-1" (batch_request "json" true))
  = Some (Prediction.CompleteJob "outputs/job-1_predictions.json").
Proof. vm_compute. repeat split; reflexivity. Qed.

(* ================================================================== *)
(** * Further properties of the services *)

(** ** Submission *)

(** A submitted job is recorded as queued, with progress 0, its start time,
    no result and no error; the response names the same id; the record of
    every other job is as it was. *)
Theorem submission_is_queued (id : string) (now : datetime) :
  (forall table request,
     let '(table', response) := Training.start_training table id now request in
     Training.get_training_status table' id
     = Some {| Training.job_id := id; Training.status := "queued";
               Training.progress := 0; Training.metrics := None;
               Training.error_message := None; Training.started_at := Some now;
               Training.completed_at := None; Training.model_path := None |} /\
     Training.resp_job_id response = id /\ Training.resp_status response = "queued" /\
     Training.get_training_result table' id now = None /\
     forall id', id' <> id ->
       Training.get_training_status table' id' = Training.get_training_status table id') /\
  (forall table request,
     let '(table', response) := Prediction.start_batch_prediction table id now request in
     Prediction.get_prediction_job_status table' id
     = Some {| Prediction.job_id := id;
               Prediction.model_id := Prediction.req_model_id request;
               Prediction.dataset_id := Prediction.req_dataset_id request;
               Prediction.status := "queued"; Prediction.progress := 0;
               Prediction.total_records := 0; Prediction.processed_records := 0;
               Prediction.output_path := None; Prediction.error_message := None;
               Prediction.started_at := Some now; Prediction.completed_at := None |} /\
     Prediction.resp_job_id response = id /\ Prediction.resp_status response = "queued" /\
     forall id', id' <> id ->
       Prediction.get_prediction_job_status table' id'
       = Prediction.get_prediction_job_status table id') /\
  (forall w (table : gmap string (Validation.ValidationJob w)) request,
     let '(table', response) := Validation.start_validation table id now request in
     Validation.get_validation_job_status table' id
     = Some {| Validation.job_id := id;
               Validation.model_id := Validation.req_model_id request;
               Validation.dataset_id := Validation.req_dataset_id request;
               Validation.status := "queued"; Validation.progress := 0;
               Validation.error_message := None; Validation.started_at := Some now;
               Validation.completed_at := None; Validation.result_ := None |} /\
     Validation.resp_job_id response = id /\ Validation.resp_status response = "queued" /\
     Validation.get_validation_result table' id = None /\
     forall id', id' <> id ->
       Validation.get_validation_job_status table' id'
       = Validation.get_validation_job_status table id').
Proof.
  repeat apply conj.
  - intros table request. simpl.
    unfold Training.get_training_result, Training.get_training_status.
    rewrite lookup_insert_eq. repeat split; try done.
    intros id' Hne. by rewrite lookup_insert_ne.
  - intros table request. simpl. unfold Prediction.get_prediction_job_status.
    rewrite lookup_insert_eq. repeat split; try done.
    intros id' Hne. by rewrite lookup_insert_ne.
  - intros w table request. simpl.
    unfold Validation.get_validation_result, Validation.get_validation_job_status.
    rewrite lookup_insert_eq. repeat split; try done.
    intros id' Hne. by rewrite lookup_insert_ne.
Qed.

(** ** Workers, cancellation and the other jobs of the table *)

Section Frame.
Context {Job E : Type}.
Variable exec : string -> datetime -> E -> gmap string Job -> result (gmap string Job).
Variable fail : string -> E.
Variable cancel_job : gmap string Job -> string -> datetime -> gmap string Job * bool.
Variable j : string.

Hypothesis exec_other : forall now e table table' id',
  exec j now e table = Ok table' -> id' <> j -> table' !! id' = table !! id'.
Hypothesis cancel_other : forall now table id',
  id' <> j -> fst (cancel_job table j now) !! id' = table !! id'.
Hypothesis exec_absent : forall now e table table',
  table !! j = None -> exec j now e table = Ok table' -> table' = table.
Hypothesis cancel_absent : forall now table,
  table !! j = None -> cancel_job table j now = (table, false).

Lemma run_other sched : forall s id',
  id' <> j ->
  jobs (run exec (fun text => [fail text]) cancel_job j sched s) !! id' = jobs s !! id'.
Proof using exec_other cancel_other.
  induction sched as [|t sched IH]; intros s id' Hne; [done|].
  cbn [run]. rewrite IH by done. destruct s as [table td]. destruct t as [now|now]; simpl.
  - destruct td as [|e rest]; [done|].
    destruct (exec j now e table) as [table'|text] eqn:He; simpl; [|done].
    by eapply exec_other.
  - by apply cancel_other.
Qed.

Lemma run_absent sched : forall s,
  jobs s !! j = None ->
  jobs (run exec (fun text => [fail text]) cancel_job j sched s) = jobs s.
Proof using exec_absent cancel_absent.
  induction sched as [|t sched IH]; intros s Hj; [done|].
  cbn [run].
  assert (Hstep : jobs (step exec (fun text => [fail text]) cancel_job j t s) = jobs s).
  { destruct s as [table td]. destruct t as [now|now]; simpl in *.
    - destruct td as [|e rest]; [done|].
      destruct (exec j now e table) as [table'|text] eqn:He; simpl; [|done].
      by eapply exec_absent.
    - by rewrite cancel_absent. }
  rewrite IH; rewrite Hstep; done.
Qed.

End Frame.

Lemma training_exec_other j now e (table table' : gmap string Training.TrainingStatus) id' :
  Training.exec j now e table = Ok table' -> id' <> j -> table' !! id' = table !! id'.
Proof.
  destruct e; simpl; intros [= <-] Hne; try done;
    unfold Training._update_job_status, Training._complete_job, Training._fail_job;
    destruct (table !! j); try done; by rewrite lookup_insert_ne.
Qed.

Lemma training_cancel_other j now (table : gmap string Training.TrainingStatus) id' :
  id' <> j -> fst (Training.cancel_training_job table j now) !! id' = table !! id'.
Proof.
  intros Hne. unfold Training.cancel_training_job.
  destruct (table !! j); [|done]. case_bool_decide; [|done]. simpl.
  by rewrite lookup_insert_ne.
Qed.

Lemma training_exec_absent j now e (table table' : gmap string Training.TrainingStatus) :
  table !! j = None -> Training.exec j now e table = Ok table' -> table' = table.
Proof.
  intros Hj. destruct e; simpl; intros [= <-]; try done;
    unfold Training._update_job_status, Training._complete_job, Training._fail_job;
    by rewrite Hj.
Qed.

Lemma training_cancel_absent j now (table : gmap string Training.TrainingStatus) :
  table !! j = None -> Training.cancel_training_job table j now = (table, false).
Proof. intros Hj. unfold Training.cancel_training_job. by rewrite Hj. Qed.

Lemma prediction_exec_other w j now (e : Prediction.event w)
    (table table' : gmap string Prediction.PredictionJob) id' :
  Prediction.exec j now e table = Ok table' -> id' <> j -> table' !! id' = table !! id'.
Proof.
  destruct e; simpl;
    unfold Prediction._update_job_status, Prediction.complete_job, Prediction._fail_job,
      Prediction.set_total_records, Prediction.set_processed_records;
    destruct (table !! j); intros [= <-] Hne; try done; by rewrite lookup_insert_ne.
Qed.

Lemma prediction_cancel_other j now (table : gmap string Prediction.PredictionJob) id' :
  id' <> j -> fst (Prediction.cancel_prediction_job table j now) !! id' = table !! id'.
Proof.
  intros Hne. unfold Prediction.cancel_prediction_job.
  destruct (table !! j); [|done]. case_bool_decide; [|done]. simpl.
  by rewrite lookup_insert_ne.
Qed.

Lemma prediction_exec_absent w j now (e : Prediction.event w)
    (table table' : gmap string Prediction.PredictionJob) :
  table !! j = None -> Prediction.exec j now e table = Ok table' -> table' = table.
Proof.
  intros Hj. destruct e; simpl;
    unfold Prediction._update_job_status, Prediction.complete_job, Prediction._fail_job,
      Prediction.set_total_records, Prediction.set_processed_records;
    rewrite ?Hj; by intros [= <-].
Qed.

Lemma prediction_cancel_absent j now (table : gmap string Prediction.PredictionJob) :
  table !! j = None -> Prediction.cancel_prediction_job table j now = (table, false).
Proof. intros Hj. unfold Prediction.cancel_prediction_job. by rewrite Hj. Qed.

Lemma validation_exec_other w j now (e : Validation.event w)
    (table table' : gmap string (Validation.ValidationJob w)) id' :
  Validation.exec j now e table = Ok table' -> id' <> j -> table' !! id' = table !! id'.
Proof.
  destruct e; simpl;
    unfold Validation._update_job_status, Validation.complete_job, Validation._fail_job;
    destruct (table !! j); intros [= <-] Hne; try done; by rewrite lookup_insert_ne.
Qed.

Lemma validation_cancel_other w j now (table : gmap string (Validation.ValidationJob w)) id' :
  id' <> j -> fst (Validation.cancel_validation_job table j now) !! id' = table !! id'.
Proof.
  intros Hne. unfold Validation.cancel_validation_job.
  destruct (table !! j); [|done]. case_bool_decide; [|done]. simpl.
  by rewrite lookup_insert_ne.
Qed.

Lemma validation_exec_absent w j now (e : Validation.event w)
    (table table' : gmap string (Validation.ValidationJob w)) :
  table !! j = None -> Validation.exec j now e table = Ok table' -> table' = table.
Proof.
  intros Hj. destruct e; simpl;
    unfold Validation._update_job_status, Validation.complete_job, Validation._fail_job;
    rewrite ?Hj; by intros [= <-].
Qed.

Lemma validation_cancel_absent w j now (table : gmap string (Validation.ValidationJob w)) :
  table !! j = None -> Validation.cancel_validation_job table j now = (table, false).
Proof. intros Hj. unfold Validation.cancel_validation_job. by rewrite Hj. Qed.

(** The worker of a job and the cancellation requests for it change no record
    but the one of that job, whatever the worker still has to do. *)
Theorem other_jobs_untouched (id id' : string) (sched : list tick) :
  id' <> id ->
  (forall s, jobs (Training.run_job id sched s) !! id' = jobs s !! id') /\
  (forall w (s : sys _ (Prediction.event w)),
     jobs (Prediction.run_job id sched s) !! id' = jobs s !! id') /\
  (forall w (s : sys _ (Validation.event w)),
     jobs (Validation.run_job id sched s) !! id' = jobs s !! id').
Proof.
  intros Hne. repeat apply conj.
  - intros s. apply run_other; [apply training_exec_other | apply training_cancel_other | done].
  - intros w s.
    apply run_other; [apply prediction_exec_other | apply prediction_cancel_other | done].
  - intros w s.
    apply run_other; [apply validation_exec_other | apply validation_cancel_other | done].
Qed.

Lemma other_jobs_untouched_witness :
  jobs (Training.run_job "job-1" [Work 1; Cancel 2; Work 3]
          (Training.submitted (training_world true) ∅ "job-1" 0
             (training_request Training.LINEAR_REGRESSION))) !! "job-2" = None.
Proof.
  exact (proj1 (other_jobs_untouched "job-1" "job-2" [Work 1; Cancel 2; Work 3]
                  ltac:(discriminate)) _).
Defined.

(** A job id that the table does not hold: status updates, the failure write
    and cancellation requests do nothing, the unguarded writes of the
    batch-prediction and validation workers raise a [KeyError] that their
    [except] clause turns into a failure write, which does nothing either.
    So the table stays as it is, and a cancellation request returns false. *)
Theorem unknown_job_is_ignored (id : string) (sched : list tick) :
  (forall table todo0,
     table !! id = None ->
     jobs (Training.run_job id sched (Sys table todo0)) = table /\
     forall now, Training.cancel_training_job table id now = (table, false)) /\
  (forall w table (todo0 : list (Prediction.event w)),
     table !! id = None ->
     jobs (Prediction.run_job id sched (Sys table todo0)) = table /\
     (forall now n, Prediction.exec (w := w) id now (Prediction.SetTotalRecords n) table
                    = Raise (str_KeyError id)) /\
     forall now, Prediction.cancel_prediction_job table id now = (table, false)) /\
  (forall w table (todo0 : list (Validation.event w)),
     table !! id = None ->
     jobs (Validation.run_job id sched (Sys table todo0)) = table /\
     (forall now res, Validation.exec id now (Validation.CompleteJob res) table
                      = Raise (str_KeyError id)) /\
     forall now, Validation.cancel_validation_job table id now = (table, false)).
Proof.
  repeat apply conj.
  - intros table todo0 Hj. split.
    + apply (run_absent Training.exec Training.FailJob Training.cancel_training_job id
               (training_exec_absent id) (training_cancel_absent id) sched (Sys table todo0) Hj).
    + intros now. by apply training_cancel_absent.
  - intros w table todo0 Hj. split; [|split].
    + apply (run_absent Prediction.exec Prediction.FailJob Prediction.cancel_prediction_job
               id (prediction_exec_absent w id) (prediction_cancel_absent id) sched
               (Sys table todo0) Hj).
    + intros now n. simpl. unfold Prediction.set_total_records. by rewrite Hj.
    + intros now. by apply prediction_cancel_absent.
  - intros w table todo0 Hj. split; [|split].
    + apply (run_absent Validation.exec Validation.FailJob Validation.cancel_validation_job
               id (validation_exec_absent w id) (validation_cancel_absent w id) sched
               (Sys table todo0) Hj).
    + intros now res. simpl. unfold Validation.complete_job. by rewrite Hj.
    + intros now. by apply validation_cancel_absent.
Qed.

(** ** A worker that has run to its end *)

Definition terminal (v : view) : Prop :=
  v_status v = "completed" \/ v_status v = "failed".

(** The number of steps a schedule gives to the worker. *)
Fixpoint work_ticks (sched : list tick) : nat :=
  match sched with
  | [] => 0
  | Work _ :: rest => S (work_ticks rest)
  | Cancel _ :: rest => work_ticks rest
  end.

Lemma view_step_done running good t v ks :
  running ∉ ["queued"; "completed"; "failed"; "cancelled"] ->
  job_inv running good v ks -> (ks = [] -> terminal v) ->
  snd (view_step running t (v, ks)) = [] -> terminal (fst (view_step running t (v, ks))).
Proof.
  intros Hfresh Hinv Hdone. destruct (running_neq running Hfresh) as (Nq & Nc & Nf & Nx).
  destruct t as [now|now]; simpl.
  - destruct ks as [|k rest]; simpl; [auto|]. intros ->.
    destruct (inv_closed _ _ _ _ Hinv) as [?|Hc]; [done|]. simpl in Hc.
    destruct k; try done; [by left|by right].
  - intros ->. specialize (Hdone eq_refl). unfold cancel_view.
    case_bool_decide as Hin; [|done]. exfalso.
    destruct Hdone as [E|E]; rewrite E in Hin; set_solver.
Qed.

Section Finished.
Context {Job E : Type}.
Variable exec : string -> datetime -> E -> gmap string Job -> result (gmap string Job).
Variable fail : string -> E.
Variable cancel_job : gmap string Job -> string -> datetime -> gmap string Job * bool.
Variable view_of : Job -> view.
Variable kind_of : E -> kind.
Variable running : string.
Variable j : string.

Hypothesis running_fresh : running ∉ ["queued"; "completed"; "failed"; "cancelled"].
Hypothesis exec_present : forall now e (table : gmap string Job) job,
  table !! j = Some job ->
  exists table' job',
    exec j now e table = Ok table' /\ table' !! j = Some job' /\
    view_of job' = apply_kind (kind_of e) (view_of job).
Hypothesis cancel_present : forall now (table : gmap string Job) job,
  table !! j = Some job ->
  exists job',
    fst (cancel_job table j now) !! j = Some job' /\
    view_of job' = cancel_view running (view_of job).

Let step1 := step exec (fun text => [fail text]) cancel_job j.
Let run1 := run exec (fun text => [fail text]) cancel_job j.

(** The invariant of a job, and a finished worker has left a terminal status. *)
Definition finishing (s : sys Job E) : Prop :=
  exists job, jobs s !! j = Some job /\
              job_inv running (fun _ => True) (view_of job) (map kind_of (todo s)) /\
              (todo s = [] -> terminal (view_of job)).

Lemma finishing_step t s :
  finishing s ->
  finishing (step1 t s) /\
  length (todo (step1 t s))
  = match t with Work _ => pred (length (todo s)) | Cancel _ => length (todo s) end.
Proof using running_fresh exec_present cancel_present.
  intros (job & Hj & Hinv & Hdone).
  destruct (step_sim exec fail cancel_job view_of kind_of running j
              exec_present cancel_present t s job Hj) as (job' & Hj' & Heq).
  fold step1 in Hj', Heq. split.
  - exists job'. split; [done|].
    pose proof (view_step_inv running (fun _ => True) running_fresh t _ _ Hinv) as Hinv'.
    assert (Hd : map kind_of (todo s) = [] -> terminal (view_of job)).
    { intros Hnil. apply Hdone. by destruct (todo s). }
    pose proof (view_step_done running (fun _ => True) t _ _ running_fresh Hinv Hd) as Hd'.
    rewrite <- Heq in Hinv', Hd'. simpl in Hinv', Hd'. split; [done|].
    intros Hnil. apply Hd'. by rewrite Hnil.
  - apply (f_equal snd) in Heq. simpl in Heq.
    apply (f_equal length) in Heq. rewrite length_map in Heq. rewrite Heq.
    destruct t; simpl; [|by rewrite length_map].
    destruct (todo s); [done|]. simpl. by rewrite length_map.
Qed.

Lemma finishing_run sched : forall s,
  finishing s ->
  finishing (run1 sched s) /\
  length (todo (run1 sched s)) = (length (todo s) - work_ticks sched)%nat.
Proof using running_fresh exec_present cancel_present.
  induction sched as [|t sched IH]; intros s Hs.
  - unfold run1. simpl. split; [done|]. lia.
  - destruct (finishing_step t s Hs) as [Hs' Hlen].
    destruct (IH _ Hs') as [Hf Hlen'].
    split; [exact Hf|].
    change (run1 (t :: sched) s) with (run1 sched (step1 t s)).
    rewrite Hlen', Hlen. destruct t; simpl; lia.
Qed.

End Finished.

Lemma protocol_nonempty running ks : protocol running ks -> ks <> [].
Proof. intros ((p & rest & ->) & _). done. Qed.

(** When the schedule gives the worker as many steps as it has actions, the
    worker is done and the job is completed or failed: a cancellation request
    on the way does not stop the worker, and does not keep the job from
    reaching one of the two. *)
Theorem finished_worker_is_terminal (id : string) (now : datetime) (sched : list tick) :
  (forall w table request,
     (length (Training._train_model w request) <= work_ticks sched)%nat ->
     let s := Training.run_job id sched (Training.submitted w table id now request) in
     todo s = [] /\
     exists job, jobs s !! id = Some job /\
                 (Training.status job = "completed" \/ Training.status job = "failed")) /\
  (forall w table request,
     (length (Prediction._run_batch_prediction w id request) <= work_ticks sched)%nat ->
     let s := Prediction.run_job id sched (Prediction.submitted w table id now request) in
     todo s = [] /\
     exists job, jobs s !! id = Some job /\
                 (Prediction.status job = "completed" \/ Prediction.status job = "failed")) /\
  (forall w table request,
     (length (Validation._run_validation w id request) <= work_ticks sched)%nat ->
     let s := Validation.run_job id sched (Validation.submitted w table id now request) in
     todo s = [] /\
     exists job, jobs s !! id = Some job /\
                 (Validation.status job = "completed" \/ Validation.status job = "failed")).
Proof.
  repeat apply conj.
  - intros w table request Hlen s.
    destruct (training_start (fun _ => True) w table id now request (fun _ _ => I)
                (training_texts_True w)) as (job0 & Hj0 & Hinv0).
    destruct (finishing_run Training.exec Training.FailJob Training.cancel_training_job
                Training.view_of Training.kind_of "training" id training_fresh
                (training_exec_present id) (training_cancel_present id) sched
                (Training.submitted w table id now request))
      as [(job & Hj & _ & Hdone) Hl].
    { exists job0. split; [done|]. split; [done|]. intros Hnil. exfalso.
      destruct (training_protocol (fun _ => True) (fun _ _ => I) w
                  (training_texts_True w) request) as [Hp _].
      apply protocol_nonempty in Hp. apply Hp. simpl in Hnil. by rewrite Hnil. }
    assert (Hnil : todo s = []).
    { apply length_zero_iff_nil. etransitivity; [exact Hl|]. simpl. lia. }
    split; [exact Hnil|]. exists job. split; [exact Hj|]. exact (Hdone Hnil).
  - intros w table request Hlen s.
    destruct (prediction_start (fun _ => True) w table id now request (fun _ _ => I)
                (prediction_texts_True w)) as (job0 & Hj0 & Hinv0).
    destruct (finishing_run Prediction.exec Prediction.FailJob
                Prediction.cancel_prediction_job
                Prediction.view_of Prediction.kind_of "running" id running_fresh
                (prediction_exec_present w id) (prediction_cancel_present id) sched
                (Prediction.submitted w table id now request))
      as [(job & Hj & _ & Hdone) Hl].
    { exists job0. split; [done|]. split; [done|]. intros Hnil. exfalso.
      destruct (prediction_protocol (fun _ => True) (fun _ _ => I) w
                  (prediction_texts_True w) id request) as [Hp _].
      apply protocol_nonempty in Hp. apply Hp. simpl in Hnil. by rewrite Hnil. }
    assert (Hnil : todo s = []).
    { apply length_zero_iff_nil. etransitivity; [exact Hl|]. simpl. lia. }
    split; [exact Hnil|]. exists job. split; [exact Hj|]. exact (Hdone Hnil).
  - intros w table request Hlen s.
    destruct (validation_start (fun _ => True) w table id now request (fun _ _ => I)
                (validation_texts_True w)) as (job0 & Hj0 & Hinv0).
    destruct (finishing_run Validation.exec Validation.FailJob
                Validation.cancel_validation_job
                Validation.view_of Validation.kind_of "running" id running_fresh
                (validation_exec_present w id) (validation_cancel_present w id) sched
                (Validation.submitted w table id now request))
      as [(job & Hj & _ & Hdone) Hl].
    { exists job0. split; [done|]. split; [done|]. intros Hnil. exfalso.
      destruct (validation_protocol (fun _ => True) (fun _ _ => I) w
                  (validation_texts_True w) id request) as [Hp _].
      apply protocol_nonempty in Hp. apply Hp. simpl in Hnil. by rewrite Hnil. }
    assert (Hnil : todo s = []).
    { apply length_zero_iff_nil. etransitivity; [exact Hl|]. simpl. lia. }
    split; [exact Hnil|]. exists job. split; [exact Hj|]. exact (Hdone Hnil).
Qed.

Lemma finished_worker_is_terminal_witness :
  let s := Training.run_job "job-1" ([Work 1; Cancel 2] ++ replicate 19 (Work 3))
             (Training.submitted (training_world true) ∅ "job-1" 0
                (training_request Training.LINEAR_REGRESSION)) in
  todo s = [] /\
  exists job, jobs s !! "job-1" = Some job /\
              (Training.status job = "completed" \/ Training.status job = "failed").
Proof.
  apply (proj1 (finished_worker_is_terminal "job-1" 0
                  ([Work 1; Cancel 2] ++ replicate 19 (Work 3)))).
  vm_compute. lia.
Defined.

(** ** Cancellation requests *)

(** A cancellation request answers true exactly for a job that is in the
    table and queued or running ("training" for a training job).  It then sets
    the status to cancelled and the completion time, and keeps progress,
    result, error message and start time; otherwise it changes nothing.  A
    second request for the same job answers false and changes nothing. *)
Theorem cancel_answers (id : string) (now now' : datetime) :
  (forall table,
     let r := Training.cancel_training_job table id now in
     (snd r = true <->
      exists job, table !! id = Some job /\ Training.status job ∈ ["queued"; "training"]) /\
     (snd r = true ->
      exists job job',
        table !! id = Some job /\ fst r = <[id := job']> table /\
        Training.status job' = "cancelled" /\ Training.completed_at job' = Some now /\
        Training.progress job' = Training.progress job /\
        Training.metrics job' = Training.metrics job /\
        Training.model_path job' = Training.model_path job /\
        Training.error_message job' = Training.error_message job /\
        Training.started_at job' = Training.started_at job) /\
     (snd r = false -> fst r = table) /\
     Training.cancel_training_job (fst r) id now' = (fst r, false)) /\
  (forall table,
     let r := Prediction.cancel_prediction_job table id now in
     (snd r = true <->
      exists job, table !! id = Some job /\ Prediction.status job ∈ ["queued"; "running"]) /\
     (snd r = true ->
      exists job job',
        table !! id = Some job /\ fst r = <[id := job']> table /\
        Prediction.status job' = "cancelled" /\ Prediction.completed_at job' = Some now /\
        Prediction.progress job' = Prediction.progress job /\
        Prediction.total_records job' = Prediction.total_records job /\
        Prediction.processed_records job' = Prediction.processed_records job /\
        Prediction.output_path job' = Prediction.output_path job /\
        Prediction.error_message job' = Prediction.error_message job /\
        Prediction.started_at job' = Prediction.started_at job) /\
     (snd r = false -> fst r = table) /\
     Prediction.cancel_prediction_job (fst r) id now' = (fst r, false)) /\
  (forall w (table : gmap string (Validation.ValidationJob w)),
     let r := Validation.cancel_validation_job table id now in
     (snd r = true <->
      exists job, table !! id = Some job /\ Validation.status job ∈ ["queued"; "running"]) /\
     (snd r = true ->
      exists job job',
        table !! id = Some job /\ fst r = <[id := job']> table /\
        Validation.status job' = "cancelled" /\ Validation.completed_at job' = Some now /\
        Validation.progress job' = Validation.progress job /\
        Validation.result_ job' = Validation.result_ job /\
        Validation.error_message job' = Validation.error_message job /\
        Validation.started_at job' = Validation.started_at job) /\
     (snd r = false -> fst r = table) /\
     Validation.cancel_validation_job (fst r) id now' = (fst r, false)).
Proof.
  repeat apply conj.
  - intros table. cbv zeta. unfold Training.cancel_training_job.
    destruct (table !! id) as [job|] eqn:Hj.
    + case_bool_decide as Hin; simpl.
      * repeat split; try done; [eauto|eexists _, _; repeat split; done|].
        by rewrite lookup_insert_eq.
      * repeat split; try done; [by intros (? & [= <-] & ?)|].
        by rewrite Hj, bool_decide_eq_false_2.
    + simpl. repeat split; try done; [by intros (? & ? & ?)|]. by rewrite Hj.
  - intros table. cbv zeta. unfold Prediction.cancel_prediction_job.
    destruct (table !! id) as [job|] eqn:Hj.
    + case_bool_decide as Hin; simpl.
      * repeat split; try done; [eauto|eexists _, _; repeat split; done|].
        by rewrite lookup_insert_eq.
      * repeat split; try done; [by intros (? & [= <-] & ?)|].
        by rewrite Hj, bool_decide_eq_false_2.
    + simpl. repeat split; try done; [by intros (? & ? & ?)|]. by rewrite Hj.
  - intros w table. cbv zeta. unfold Validation.cancel_validation_job.
    destruct (table !! id) as [job|] eqn:Hj.
    + case_bool_decide as Hin; simpl.
      * repeat split; try done; [eauto|eexists _, _; repeat split; done|].
        by rewrite lookup_insert_eq.
      * repeat split; try done; [by intros (? & [= <-] & ?)|].
        by rewrite Hj, bool_decide_eq_false_2.
    + simpl. repeat split; try done; [by intros (? & ? & ?)|]. by rewrite Hj.
Qed.

(** ** Time stamps *)

Definition tick_time (t : tick) : datetime :=
  match t with Work now => now | Cancel now => now end.

Section Stamped.
Context {Job E : Type}.
Variable exec : string -> datetime -> E -> gmap string Job -> result (gmap string Job).
Variable fail : string -> E.
Variable cancel_job : gmap string Job -> string -> datetime -> gmap string Job * bool.
Variable j : string.
Variable t0 : datetime.
Variable stamped : Job -> Prop.
Variable allowed : E -> Prop.

Hypothesis exec_stamped : forall now e (table : gmap string Job) job,
  allowed e -> t0 <= now -> table !! j = Some job -> stamped job ->
  exists table' job',
    exec j now e table = Ok table' /\ table' !! j = Some job' /\ stamped job'.
Hypothesis cancel_stamped : forall now (table : gmap string Job) job,
  t0 <= now -> table !! j = Some job -> stamped job ->
  exists job', fst (cancel_job table j now) !! j = Some job' /\ stamped job'.

Lemma run_stamped sched : forall s,
  Forall (fun t => t0 <= tick_time t) sched ->
  Forall allowed (todo s) ->
  (exists job, jobs s !! j = Some job /\ stamped job) ->
  exists job,
    jobs (run exec (fun text => [fail text]) cancel_job j sched s) !! j = Some job /\
    stamped job.
Proof using exec_stamped cancel_stamped.
  induction sched as [|t sched IH]; intros s Hs Hall Hjob; [done|].
  apply Forall_cons in Hs as [Ht Hs]. cbn [run].
  destruct Hjob as (job & Hj & Hst). destruct s as [table td]; simpl in *.
  destruct t as [now|now]; simpl in *.
  - destruct td as [|e rest]; [apply IH; eauto|].
    apply Forall_cons in Hall as [He Hall].
    destruct (exec_stamped now e table job He Ht Hj Hst) as (table' & job' & -> & ? & ?).
    apply IH; simpl; eauto.
  - apply IH; simpl; [done|done|]. by eapply cancel_stamped.
Qed.

End Stamped.

(** A status update of a worker that follows the protocol writes the running
    status. *)
Definition updates_running (running : string) (k : kind) : Prop :=
  forall status0 p, k = KUpdate status0 p -> status0 = running.

Lemma closed_updates running ks : closed running ks -> Forall (updates_running running) ks.
Proof.
  induction ks as [|k ks IH]; [done|]. intros Hc.
  apply closed_cons_inv in Hc as [[-> Hf]|(Hne & Hi & Hc)].
  - constructor; [|constructor]. intros ? ? ->. destruct Hf.
  - constructor; [|by apply IH]. intros ? ? ->. exact Hi.
Qed.

Lemma protocol_updates {E} (kind_of : E -> kind) running (trace : list E) :
  protocol running (map kind_of trace) ->
  Forall (fun e => updates_running running (kind_of e)) trace.
Proof.
  intros (_ & Hc & _). apply closed_updates in Hc.
  apply Forall_forall. intros e Hin.
  rewrite Forall_forall in Hc. apply Hc. by apply list_elem_of_fmap_2.
Qed.

(** A clock that never shows a time before the submission: every record of
    the job has the start time of the submission; a completion time, when
    set, is not before the start time; it is set in every completed, failed or
    cancelled record. *)
Theorem completion_after_start (id : string) (now : datetime) (sched : list tick) :
  Forall (fun t => now <= tick_time t) sched ->
  (forall w table request,
     exists job,
       jobs (Training.run_job id sched (Training.submitted w table id now request)) !! id
       = Some job /\
       Training.started_at job = Some now /\
       (forall c, Training.completed_at job = Some c -> now <= c) /\
       (Training.status job ∈ ["completed"; "failed"; "cancelled"] ->
        is_Some (Training.completed_at job))) /\
  (forall w table request,
     exists job,
       jobs (Prediction.run_job id sched (Prediction.submitted w table id now request))
         !! id = Some job /\
       Prediction.started_at job = Some now /\
       (forall c, Prediction.completed_at job = Some c -> now <= c) /\
       (Prediction.status job ∈ ["completed"; "failed"; "cancelled"] ->
        is_Some (Prediction.completed_at job))) /\
  (forall w table request,
     exists job,
       jobs (Validation.run_job id sched (Validation.submitted w table id now request))
         !! id = Some job /\
       Validation.started_at job = Some now /\
       (forall c, Validation.completed_at job = Some c -> now <= c) /\
       (Validation.status job ∈ ["completed"; "failed"; "cancelled"] ->
        is_Some (Validation.completed_at job))).
Proof.
  intros Hclock. repeat apply conj.
  - intros w table request.
    apply (run_stamped Training.exec Training.FailJob Training.cancel_training_job id now
             (fun job => Training.started_at job = Some now /\
                (forall c, Training.completed_at job = Some c -> now <= c) /\
                (Training.status job ∈ ["completed"; "failed"; "cancelled"] ->
                 is_Some (Training.completed_at job)))
             (fun e => updates_running "training" (Training.kind_of e))); [| |done| |].
    + intros t e tb job He Ht Hj (Hs & Hc & Hd).
      destruct e; simpl;
        unfold Training._update_job_status, Training._complete_job, Training._fail_job;
        rewrite ?Hj; eexists _, _; (split; [reflexivity|]);
        rewrite ?lookup_insert_eq; (split; [first [reflexivity | exact Hj]|]); simpl;
        repeat split; try done; try (by intros ? [= <-]); try (intros _; by eexists).
      intros Hin. exfalso. rewrite (He _ _ eq_refl) in Hin. set_solver.
    + intros t tb job Ht Hj (Hs & Hc & Hd). unfold Training.cancel_training_job.
      rewrite Hj. case_bool_decide; simpl; [|eauto].
      rewrite lookup_insert_eq. eexists. split; [done|]. simpl.
      repeat split; try done; try (by intros ? [= <-]); try (intros _; by eexists).
    + apply protocol_updates.
      apply (training_protocol (fun _ => True) (fun _ _ => I) w (training_texts_True w) request).
    + unfold Training.submitted, Training.start_training. simpl.
      rewrite lookup_insert_eq. eexists. split; [done|]. simpl.
      repeat split; try done. intros Hin. exfalso. set_solver.
  - intros w table request.
    apply (run_stamped Prediction.exec Prediction.FailJob Prediction.cancel_prediction_job
             id now
             (fun job => Prediction.started_at job = Some now /\
                (forall c, Prediction.completed_at job = Some c -> now <= c) /\
                (Prediction.status job ∈ ["completed"; "failed"; "cancelled"] ->
                 is_Some (Prediction.completed_at job)))
             (fun e => updates_running "running" (Prediction.kind_of e))); [| |done| |].
    + intros t e tb job He Ht Hj (Hs & Hc & Hd).
      destruct e; simpl;
        unfold Prediction._update_job_status, Prediction.complete_job,
          Prediction._fail_job, Prediction.set_total_records,
          Prediction.set_processed_records;
        rewrite ?Hj; eexists _, _; (split; [reflexivity|]);
        rewrite ?lookup_insert_eq; (split; [first [reflexivity | exact Hj]|]); simpl;
        repeat split; try done; try (by intros ? [= <-]); try (intros _; by eexists).
      intros Hin. exfalso. rewrite (He _ _ eq_refl) in Hin. set_solver.
    + intros t tb job Ht Hj (Hs & Hc & Hd). unfold Prediction.cancel_prediction_job.
      rewrite Hj. case_bool_decide; simpl; [|eauto].
      rewrite lookup_insert_eq. eexists. split; [done|]. simpl.
      repeat split; try done; try (by intros ? [= <-]); try (intros _; by eexists).
    + apply protocol_updates.
      apply (prediction_protocol (fun _ => True) (fun _ _ => I) w (prediction_texts_True w) id request).
    + unfold Prediction.submitted, Prediction.start_batch_prediction. simpl.
      rewrite lookup_insert_eq. eexists. split; [done|]. simpl.
      repeat split; try done. intros Hin. exfalso. set_solver.
  - intros w table request.
    apply (run_stamped Validation.exec Validation.FailJob
             Validation.cancel_validation_job id now
             (fun job => Validation.started_at job = Some now /\
                (forall c, Validation.completed_at job = Some c -> now <= c) /\
                (Validation.status job ∈ ["completed"; "failed"; "cancelled"] ->
                 is_Some (Validation.completed_at job)))
             (fun e => updates_running "running" (Validation.kind_of e))); [| |done| |].
    + intros t e tb job He Ht Hj (Hs & Hc & Hd).
      destruct e; simpl;
        unfold Validation._update_job_status, Validation.complete_job,
          Validation._fail_job;
        rewrite ?Hj; eexists _, _; (split; [reflexivity|]);
        rewrite ?lookup_insert_eq; (split; [first [reflexivity | exact Hj]|]); simpl;
        repeat split; try done; try (by intros ? [= <-]); try (intros _; by eexists).
      intros Hin. exfalso. rewrite (He _ _ eq_refl) in Hin. set_solver.
    + intros t tb job Ht Hj (Hs & Hc & Hd). unfold Validation.cancel_validation_job.
      rewrite Hj. case_bool_decide; simpl; [|eauto].
      rewrite lookup_insert_eq. eexists. split; [done|]. simpl.
      repeat split; try done; try (by intros ? [= <-]); try (intros _; by eexists).
    + apply protocol_updates.
      apply (validation_protocol (fun _ => True) (fun _ _ => I) w (validation_texts_True w) id request).
    + unfold Validation.submitted, Validation.start_validation. simpl.
      rewrite lookup_insert_eq. eexists. split; [done|]. simpl.
      repeat split; try done. intros Hin. exfalso. set_solver.
Qed.

Lemma completion_after_start_witness :
  exists job,
    jobs (Training.run_job "job-1" [Work 1; Cancel 2; Work 3]
            (Training.submitted (training_world true) ∅ "job-1" 0
               (training_request Training.LINEAR_REGRESSION))) !! "job-1" = Some job /\
    Training.started_at job = Some 0 /\
    (forall c, Training.completed_at job = Some c -> 0 <= c) /\
    (Training.status job ∈ ["completed"; "failed"; "cancelled"] ->
     is_Some (Training.completed_at job)).
Proof.
  apply (proj1 (completion_after_start "job-1" 0 [Work 1; Cancel 2; Work 3]
                  ltac:(repeat constructor; simpl; lia))).
Defined.

(** ** Progress stays between 0 and 100 *)

Definition percent (x : Q) : Prop := (0 <= x /\ x <= 100)%Q.

Lemma steps_percent running lo hi ks :
  (0 <= lo)%Q -> (hi <= 100)%Q -> steps running lo hi ks -> Forall percent (writes ks).
Proof.
  revert lo. induction ks as [|k ks IH]; intros lo Hlo Hhi Hs; [constructor|].
  destruct k; simpl in *; try done.
  - destruct Hs as (_ & Hle & Hs). constructor.
    + split; [by eapply Qle_trans|]. eapply Qle_trans; [|exact Hhi]. by eapply steps_le.
    + eapply IH; [|done|exact Hs]. by eapply Qle_trans.
  - by eapply IH.
Qed.

Lemma try_except_percent {E} (kind_of : E -> kind) running good e0 p
    (k : unit -> worker E unit) (fail : string -> E) :
  kind_of e0 = KUpdate running p -> (0 <= p)%Q ->
  rest_ok kind_of running good p (k tt) ->
  (forall text, kind_of (fail text) = KFail text) ->
  Forall percent (writes (map kind_of (try_except (emit e0 ≫= k) (fun text => [fail text])))).
Proof.
  intros He Hp Hk Hfail.
  unfold try_except, mbind, worker_bind, wbind, emit, rest_ok in *.
  destruct (k tt) as [evs [[]|text]]; simpl in *.
  - destruct Hk as (pre & Hpre & Hs). rewrite He, Hpre. simpl. rewrite writes_app. simpl.
    pose proof (steps_le _ _ _ _ Hs) as Hle.
    constructor; [split; done|]. apply Forall_app. split.
    + eapply steps_percent; [exact Hp| |exact Hs]. apply Qle_refl.
    + constructor; [|constructor]. split; [|apply Qle_refl]. by apply Qle_literal.
  - destruct Hk as [Hs _]. rewrite He, map_app. simpl. rewrite writes_app, Hfail. simpl.
    pose proof (steps_le _ _ _ _ Hs) as Hle. rewrite app_nil_r.
    constructor; [split; done|].
    eapply steps_percent; [exact Hp| |exact Hs]. apply Qle_refl.
Qed.

Section Percent.
Context {Job E : Type}.
Variable exec : string -> datetime -> E -> gmap string Job -> result (gmap string Job).
Variable fail : string -> E.
Variable cancel_job : gmap string Job -> string -> datetime -> gmap string Job * bool.
Variable view_of : Job -> view.
Variable kind_of : E -> kind.
Variable running : string.
Variable j : string.

Hypothesis exec_present : forall now e (table : gmap string Job) job,
  table !! j = Some job ->
  exists table' job',
    exec j now e table = Ok table' /\ table' !! j = Some job' /\
    view_of job' = apply_kind (kind_of e) (view_of job).
Hypothesis cancel_present : forall now (table : gmap string Job) job,
  table !! j = Some job ->
  exists job',
    fst (cancel_job table j now) !! j = Some job' /\
    view_of job' = cancel_view running (view_of job).

Lemma run_percent sched : forall s,
  (exists job, jobs s !! j = Some job /\ percent (v_progress (view_of job))) ->
  Forall percent (writes (map kind_of (todo s))) ->
  exists job,
    jobs (run exec (fun text => [fail text]) cancel_job j sched s) !! j = Some job /\
    percent (v_progress (view_of job)).
Proof using exec_present cancel_present.
  induction sched as [|t sched IH]; intros s Hjob Hall; [done|].
  cbn [run]. destruct Hjob as (job & Hj & Hp).
  destruct (step_sim exec fail cancel_job view_of kind_of running j
              exec_present cancel_present t s job Hj) as (job' & Hj' & Heq).
  pose proof (f_equal fst Heq) as Hv. pose proof (f_equal snd Heq) as Htd.
  cbn [fst snd] in Hv, Htd. clear Heq.
  apply IH.
  - exists job'. split; [done|]. rewrite Hv.
    destruct t as [now|now]; simpl.
    + destruct (map kind_of (todo s)) as [|k rest]; [done|]. simpl.
      destruct k; simpl in *; try done; by apply Forall_cons in Hall as [? _].
    + unfold cancel_view. by case_bool_decide.
  - rewrite Htd. destruct t as [now|now]; simpl; [|done].
    destruct (map kind_of (todo s)) as [|k rest]; [done|]. simpl.
    destruct k; simpl in *; try done; by apply Forall_cons in Hall as [_ ?].
Qed.

End Percent.

(** Every progress value a status read returns lies between 0 and 100. *)
Theorem progress_is_percent (id : string) (now : datetime) (sched : list tick) :
  (forall w table request,
     exists job,
       jobs (Training.run_job id sched (Training.submitted w table id now request)) !! id
       = Some job /\
       (0 <= Training.progress job <= 100)%Q) /\
  (forall w table request,
     exists job,
       jobs (Prediction.run_job id sched (Prediction.submitted w table id now request))
         !! id = Some job /\
       (0 <= Prediction.progress job <= 100)%Q) /\
  (forall w table request,
     exists job,
       jobs (Validation.run_job id sched (Validation.submitted w table id now request))
         !! id = Some job /\
       (0 <= Validation.progress job <= 100)%Q).
Proof.
  repeat apply conj.
  - intros w table request.
    apply (run_percent Training.exec Training.FailJob Training.cancel_training_job
             Training.view_of Training.kind_of "training" id
             (training_exec_present id) (training_cancel_present id)).
    + unfold Training.submitted, Training.start_training. simpl.
      rewrite lookup_insert_eq. eexists. split; [done|]. by split.
    + destruct (train_model_try_rest (fun _ => True) (fun _ _ => I) w
                  (training_texts_True w) request) as (p & k & Heq & Hp & Hk).
      unfold Training.submitted, Training._train_model. simpl. rewrite Heq.
      by eapply try_except_percent.
  - intros w table request.
    apply (run_percent Prediction.exec Prediction.FailJob Prediction.cancel_prediction_job
             Prediction.view_of Prediction.kind_of "running" id
             (prediction_exec_present w id) (prediction_cancel_present id)).
    + unfold Prediction.submitted, Prediction.start_batch_prediction. simpl.
      rewrite lookup_insert_eq. eexists. split; [done|]. by split.
    + destruct (run_batch_prediction_try_rest (fun _ => True) (fun _ _ => I) w
                  (prediction_texts_True w) id request) as (p & k & Heq & Hp & Hk).
      unfold Prediction.submitted, Prediction._run_batch_prediction. simpl. rewrite Heq.
      by eapply try_except_percent.
  - intros w table request.
    apply (run_percent Validation.exec Validation.FailJob Validation.cancel_validation_job
             Validation.view_of Validation.kind_of "running" id
             (validation_exec_present w id) (validation_cancel_present w id)).
    + unfold Validation.submitted, Validation.start_validation. simpl.
      rewrite lookup_insert_eq. eexists. split; [done|]. by split.
    + destruct (run_validation_try_rest (fun _ => True) (fun _ _ => I) w
                  (validation_texts_True w) id request) as (p & k & Heq & Hp & Hk).
      unfold Validation.submitted, Validation._run_validation. simpl. rewrite Heq.
      by eapply try_except_percent.
Qed.

(** ** The model cache over a sequence of calls *)

(** The calls that touch the model cache. *)
Inductive cache_call : Type :=
| LoadModel (model_id : string)
| ClearModelCache.

Definition cache_step (w : Prediction.world) (s : Prediction.cache_state w)
    (c : cache_call) : Prediction.cache_state w :=
  match c with
  | LoadModel model_id => snd (Prediction._load_model w s model_id)
  | ClearModelCache => Prediction.clear_model_cache w s
  end.

Definition cache_run (w : Prediction.world) (calls : list cache_call)
    (s : Prediction.cache_state w) : Prediction.cache_state w :=
  fold_left (cache_step w) calls s.

(** The file of a model. *)
Definition model_file (model_id : string) : string :=
  os_path_join Prediction.models_dir (model_id +:+ ".pkl").

(** Every cached reference denotes the object that was loaded from the file
    of its model id. *)
Definition cache_ok {w : Prediction.world} (s : Prediction.cache_state w) : Prop :=
  forall model_id ref,
    Prediction.models_cache s !! model_id = Some ref ->
    exists model,
      Prediction.deref s ref = Some model /\
      Prediction.joblib_load w (model_file model_id) = Ok model /\
      Prediction.os_path_exists w (model_file model_id) = true.

Lemma cache_step_ok w s c : cache_ok s -> cache_ok (cache_step w s c).
Proof.
  intros Hok. destruct c as [model_id|]; simpl.
  - unfold Prediction._load_model.
    destruct (Prediction.models_cache s !! model_id) as [ref|] eqn:Hc; [done|].
    fold (model_file model_id).
    destruct (Prediction.os_path_exists w (model_file model_id)) eqn:He; [|done].
    destruct (Prediction.joblib_load w (model_file model_id)) as [model|text] eqn:Hl;
      [|done].
    simpl. intros id' ref'. unfold Prediction.deref. simpl.
    destruct (decide (id' = model_id)) as [->|Hne].
    + rewrite lookup_insert_eq. intros [= <-]. exists model.
      by rewrite lookup_app_r, Nat.sub_diag.
    + rewrite lookup_insert_ne by done. intros Hin.
      destruct (Hok _ _ Hin) as (m & Hd & ? & ?). exists m.
      split; [|done]. by apply lookup_app_l_Some.
  - intros id' ref'. unfold Prediction.clear_model_cache. simpl.
    by rewrite lookup_empty.
Qed.

Lemma cache_run_ok w calls : forall s, cache_ok s -> cache_ok (cache_run w calls s).
Proof.
  induction calls as [|c calls IH]; intros s Hok; [done|].
  apply IH. by apply cache_step_ok.
Qed.

(** After any sequence of loads and clears on a cache that started empty, a
    load that returns gives an object that [joblib.load] returns for the file
    of that model id, a file that exists; a load that raises leaves the cache
    as it was, and raises either the not-found error, the file being missing,
    or the exception of [joblib.load]. *)
Theorem load_model_sound (w : Prediction.world) (calls : list cache_call)
    (model_id : string) :
  let s := cache_run w calls (Prediction.CacheState ∅ []) in
  match Prediction._load_model w s model_id with
  | (Ok ref, s') =>
      exists model,
        Prediction.deref s' ref = Some model /\
        Prediction.joblib_load w (model_file model_id) = Ok model /\
        Prediction.os_path_exists w (model_file model_id) = true
  | (Raise text, s') =>
      s' = s /\ Prediction.models_cache s !! model_id = None /\
      ((Prediction.os_path_exists w (model_file model_id) = false /\
        text = "Model " +:+ model_id +:+ " not found") \/
       (Prediction.os_path_exists w (model_file model_id) = true /\
        Prediction.joblib_load w (model_file model_id) = Raise text))
  end.
Proof.
  intros s.
  assert (Hok : cache_ok s).
  { apply cache_run_ok. intros ? ?. simpl. by rewrite lookup_empty. }
  unfold Prediction._load_model.
  destruct (Prediction.models_cache s !! model_id) as [ref|] eqn:Hc.
  - by apply Hok.
  - fold (model_file model_id).
    destruct (Prediction.os_path_exists w (model_file model_id)) eqn:He; simpl.
    + destruct (Prediction.joblib_load w (model_file model_id)) as [model|text] eqn:Hl.
      * exists model. unfold Prediction.deref. simpl.
        by rewrite lookup_app_r, Nat.sub_diag.
      * repeat split; try done. right. done.
    + repeat split; try done. by left.
Qed.

(** ** A finished worker and the cancellation requests on its way *)

(** The schedule without its cancellation requests. *)
Fixpoint work_only (sched : list tick) : list tick :=
  match sched with
  | [] => []
  | Work now :: rest => Work now :: work_only rest
  | Cancel _ :: rest => work_only rest
  end.

Section Uncancelled.
Context {Job E : Type}.
Variable exec : string -> datetime -> E -> gmap string Job -> result (gmap string Job).
Variable fail : string -> E.
Variable cancel_job : gmap string Job -> string -> datetime -> gmap string Job * bool.
Variable view_of : Job -> view.
Variable kind_of : E -> kind.
Variable running : string.
Variable j : string.
(** Equal but for the fields a cancellation request writes. *)
Variable same : Job -> Job -> Prop.

Hypothesis running_fresh : running ∉ ["queued"; "completed"; "failed"; "cancelled"].
Hypothesis exec_present : forall now e (table : gmap string Job) job,
  table !! j = Some job ->
  exists table' job',
    exec j now e table = Ok table' /\ table' !! j = Some job' /\
    view_of job' = apply_kind (kind_of e) (view_of job).
Hypothesis cancel_present : forall now (table : gmap string Job) job,
  table !! j = Some job ->
  exists job',
    fst (cancel_job table j now) !! j = Some job' /\
    view_of job' = cancel_view running (view_of job).
Hypothesis exec_same : forall now e (t1 t2 : gmap string Job) a b,
  t1 !! j = Some a -> t2 !! j = Some b -> same a b ->
  exists t1' t2' a' b',
    exec j now e t1 = Ok t1' /\ exec j now e t2 = Ok t2' /\
    t1' !! j = Some a' /\ t2' !! j = Some b' /\ same a' b' /\
    (is_final (kind_of e) -> a' = b').
Hypothesis cancel_same : forall now (table : gmap string Job) a b,
  table !! j = Some a -> same a b ->
  exists a',
    fst (cancel_job table j now) !! j = Some a' /\ same a' b /\
    (terminal (view_of a) -> a' = a).

Let step1 := step exec (fun text => [fail text]) cancel_job j.
Let run1 := run exec (fun text => [fail text]) cancel_job j.

(** A run and the same run without the cancellation requests. *)
Definition paired (s s' : sys Job E) : Prop :=
  todo s = todo s' /\
  finishing view_of kind_of running j s /\
  exists a b, jobs s !! j = Some a /\ jobs s' !! j = Some b /\ same a b /\
              (todo s = [] -> a = b).

Lemma paired_work now s s' :
  paired s s' -> paired (step1 (Work now) s) (step1 (Work now) s').
Proof using running_fresh exec_present cancel_present exec_same.
  intros (Htd & Hfin & a & b & Ha & Hb & Hsame & Heq).
  pose proof (finishing_step exec fail cancel_job view_of kind_of running j
                running_fresh exec_present cancel_present (Work now) s Hfin) as [Hfin' _].
  split; [|split; [exact Hfin'|]].
  - unfold step1. destruct s as [t1 td], s' as [t2 td']. simpl in *. subst td'.
    destruct td as [|e rest]; [done|].
    destruct (exec_same now e t1 t2 a b Ha Hb Hsame)
      as (t1' & t2' & a' & b' & -> & -> & _). done.
  - destruct Hfin as (a0 & Ha0 & Hinv & _). rewrite Ha in Ha0. injection Ha0 as <-.
    unfold step1. destruct s as [t1 td], s' as [t2 td']. simpl in *. subst td'.
    destruct td as [|e rest]; simpl; [eauto 10|].
    destruct (exec_same now e t1 t2 a b Ha Hb Hsame)
      as (t1' & t2' & a' & b' & -> & -> & Ha' & Hb' & Hsame' & Hfinal).
    simpl. exists a', b'. repeat split; try done.
    intros ->. apply Hfinal.
    destruct (inv_closed _ _ _ _ Hinv) as [?|Hc]; [done|]. exact Hc.
Qed.

Lemma paired_cancel now s s' : paired s s' -> paired (step1 (Cancel now) s) s'.
Proof using running_fresh exec_present cancel_present cancel_same.
  intros (Htd & Hfin & a & b & Ha & Hb & Hsame & Heq).
  pose proof (finishing_step exec fail cancel_job view_of kind_of running j
                running_fresh exec_present cancel_present (Cancel now) s Hfin) as [Hfin' _].
  split; [exact Htd|]. split; [exact Hfin'|].
  destruct (cancel_same now (jobs s) a b Ha Hsame) as (a' & Ha' & Hsame' & Hterm).
  exists a', b. simpl. repeat split; try done.
  intros Hnil. destruct Hfin as (a0 & Ha0 & _ & Hdone).
  rewrite Ha in Ha0. injection Ha0 as <-.
  rewrite (Hterm (Hdone Hnil)). by apply Heq.
Qed.

Lemma paired_run sched : forall s s',
  paired s s' -> paired (run1 sched s) (run1 (work_only sched) s').
Proof using running_fresh exec_present cancel_present exec_same cancel_same.
  induction sched as [|t sched IH]; intros s s' Hp; [done|].
  destruct t as [now|now]; simpl.
  - apply IH. by apply paired_work.
  - apply IH. by apply paired_cancel.
Qed.

End Uncancelled.

Definition training_same (a b : Training.TrainingStatus) : Prop :=
  Training.job_id a = Training.job_id b /\ Training.progress a = Training.progress b /\
  Training.metrics a = Training.metrics b /\
  Training.error_message a = Training.error_message b /\
  Training.started_at a = Training.started_at b /\
  Training.model_path a = Training.model_path b.

Definition prediction_same (a b : Prediction.PredictionJob) : Prop :=
  Prediction.job_id a = Prediction.job_id b /\
  Prediction.model_id a = Prediction.model_id b /\
  Prediction.dataset_id a = Prediction.dataset_id b /\
  Prediction.progress a = Prediction.progress b /\
  Prediction.total_records a = Prediction.total_records b /\
  Prediction.processed_records a = Prediction.processed_records b /\
  Prediction.output_path a = Prediction.output_path b /\
  Prediction.error_message a = Prediction.error_message b /\
  Prediction.started_at a = Prediction.started_at b.

Definition validation_same {w} (a b : Validation.ValidationJob w) : Prop :=
  Validation.job_id a = Validation.job_id b /\
  Validation.model_id a = Validation.model_id b /\
  Validation.dataset_id a = Validation.dataset_id b /\
  Validation.progress a = Validation.progress b /\
  Validation.error_message a = Validation.error_message b /\
  Validation.started_at a = Validation.started_at b /\
  Validation.result_ a = Validation.result_ b.

Lemma training_exec_same j now e (t1 t2 : gmap string Training.TrainingStatus) a b :
  t1 !! j = Some a -> t2 !! j = Some b -> training_same a b ->
  exists t1' t2' a' b',
    Training.exec j now e t1 = Ok t1' /\ Training.exec j now e t2 = Ok t2' /\
    t1' !! j = Some a' /\ t2' !! j = Some b' /\ training_same a' b' /\
    (is_final (Training.kind_of e) -> a' = b').
Proof.
  intros Ha Hb Hs. unfold training_same in *.
  destruct e; simpl;
    unfold Training._update_job_status, Training._complete_job, Training._fail_job;
    rewrite ?Ha, ?Hb; eexists _, _, _, _;
    (split; [reflexivity|]); (split; [reflexivity|]);
    rewrite ?lookup_insert_eq;
    (split; [first [reflexivity | eassumption]|]);
    (split; [first [reflexivity | eassumption]|]);
    (split; [simpl; tauto|]); try done;
    intros _; destruct a, b; simpl in *; decompose [and] Hs; by subst.
Qed.

Lemma training_cancel_same j now (table : gmap string Training.TrainingStatus) a b :
  table !! j = Some a -> training_same a b ->
  exists a',
    fst (Training.cancel_training_job table j now) !! j = Some a' /\ training_same a' b /\
    (terminal (Training.view_of a) -> a' = a).
Proof.
  intros Ha Hs. unfold Training.cancel_training_job. rewrite Ha.
  case_bool_decide as Hin; simpl.
  - rewrite lookup_insert_eq. eexists. split; [done|]. split; [exact Hs|].
    intros [E|E]; simpl in E; rewrite E in Hin; set_solver.
  - eauto.
Qed.

Lemma prediction_exec_same w j now (e : Prediction.event w)
    (t1 t2 : gmap string Prediction.PredictionJob) a b :
  t1 !! j = Some a -> t2 !! j = Some b -> prediction_same a b ->
  exists t1' t2' a' b',
    Prediction.exec j now e t1 = Ok t1' /\ Prediction.exec j now e t2 = Ok t2' /\
    t1' !! j = Some a' /\ t2' !! j = Some b' /\ prediction_same a' b' /\
    (is_final (Prediction.kind_of e) -> a' = b').
Proof.
  intros Ha Hb Hs. unfold prediction_same in *.
  destruct e; simpl;
    unfold Prediction._update_job_status, Prediction.complete_job, Prediction._fail_job,
      Prediction.set_total_records, Prediction.set_processed_records;
    rewrite ?Ha, ?Hb; eexists _, _, _, _;
    (split; [reflexivity|]); (split; [reflexivity|]);
    rewrite ?lookup_insert_eq;
    (split; [first [reflexivity | eassumption]|]);
    (split; [first [reflexivity | eassumption]|]);
    (split; [simpl; tauto|]); try done;
    intros _; destruct a, b; simpl in *; decompose [and] Hs; by subst.
Qed.

Lemma prediction_cancel_same j now (table : gmap string Prediction.PredictionJob) a b :
  table !! j = Some a -> prediction_same a b ->
  exists a',
    fst (Prediction.cancel_prediction_job table j now) !! j = Some a' /\
    prediction_same a' b /\
    (terminal (Prediction.view_of a) -> a' = a).
Proof.
  intros Ha Hs. unfold Prediction.cancel_prediction_job. rewrite Ha.
  case_bool_decide as Hin; simpl.
  - rewrite lookup_insert_eq. eexists. split; [done|]. split; [exact Hs|].
    intros [E|E]; simpl in E; rewrite E in Hin; set_solver.
  - eauto.
Qed.

Lemma validation_exec_same w j now (e : Validation.event w)
    (t1 t2 : gmap string (Validation.ValidationJob w)) a b :
  t1 !! j = Some a -> t2 !! j = Some b -> validation_same a b ->
  exists t1' t2' a' b',
    Validation.exec j now e t1 = Ok t1' /\ Validation.exec j now e t2 = Ok t2' /\
    t1' !! j = Some a' /\ t2' !! j = Some b' /\ validation_same a' b' /\
    (is_final (Validation.kind_of e) -> a' = b').
Proof.
  intros Ha Hb Hs. unfold validation_same in *.
  destruct e; simpl;
    unfold Validation._update_job_status, Validation.complete_job, Validation._fail_job;
    rewrite ?Ha, ?Hb; eexists _, _, _, _;
    (split; [reflexivity|]); (split; [reflexivity|]);
    rewrite ?lookup_insert_eq;
    (split; [first [reflexivity | eassumption]|]);
    (split; [first [reflexivity | eassumption]|]);
    (split; [simpl; tauto|]); try done;
    intros _; destruct a, b; simpl in *; decompose [and] Hs; by subst.
Qed.

Lemma validation_cancel_same w j now (table : gmap string (Validation.ValidationJob w)) a b :
  table !! j = Some a -> validation_same a b ->
  exists a',
    fst (Validation.cancel_validation_job table j now) !! j = Some a' /\
    validation_same a' b /\
    (terminal (Validation.view_of a) -> a' = a).
Proof.
  intros Ha Hs. unfold Validation.cancel_validation_job. rewrite Ha.
  case_bool_decide as Hin; simpl.
  - rewrite lookup_insert_eq. eexists. split; [done|]. split; [exact Hs|].
    intros [E|E]; simpl in E; rewrite E in Hin; set_solver.
  - eauto.
Qed.

Lemma training_finishing w table id now request :
  finishing Training.view_of Training.kind_of "training" id
            (Training.submitted w table id now request).
Proof.
  destruct (training_start (fun _ => True) w table id now request (fun _ _ => I)
              (training_texts_True w)) as (job0 & Hj0 & Hinv0).
  exists job0. split; [done|]. split; [done|]. intros Hnil. exfalso.
  destruct (training_protocol (fun _ => True) (fun _ _ => I) w
              (training_texts_True w) request) as [Hp _].
  apply protocol_nonempty in Hp. apply Hp. simpl in Hnil. by rewrite Hnil.
Qed.

Lemma prediction_finishing w table id now request :
  finishing Prediction.view_of Prediction.kind_of "running" id
            (Prediction.submitted w table id now request).
Proof.
  destruct (prediction_start (fun _ => True) w table id now request (fun _ _ => I)
              (prediction_texts_True w)) as (job0 & Hj0 & Hinv0).
  exists job0. split; [done|]. split; [done|]. intros Hnil. exfalso.
  destruct (prediction_protocol (fun _ => True) (fun _ _ => I) w
              (prediction_texts_True w) id request) as [Hp _].
  apply protocol_nonempty in Hp. apply Hp. simpl in Hnil. by rewrite Hnil.
Qed.

Lemma validation_finishing w table id now request :
  finishing Validation.view_of Validation.kind_of "running" id
            (Validation.submitted w table id now request).
Proof.
  destruct (validation_start (fun _ => True) w table id now request (fun _ _ => I)
              (validation_texts_True w)) as (job0 & Hj0 & Hinv0).
  exists job0. split; [done|]. split; [done|]. intros Hnil. exfalso.
  destruct (validation_protocol (fun _ => True) (fun _ _ => I) w
              (validation_texts_True w) id request) as [Hp _].
  apply protocol_nonempty in Hp. apply Hp. simpl in Hnil. by rewrite Hnil.
Qed.

Lemma paired_start {Job E} (view_of : Job -> view) (kind_of : E -> kind) running j
    (same : Job -> Job -> Prop) (s : sys Job E) :
  (forall a, same a a) -> finishing view_of kind_of running j s ->
  paired view_of kind_of running j same s s.
Proof.
  intros Hrefl Hfin. split; [done|]. split; [done|].
  destruct Hfin as (a & Ha & _). exists a, a. auto.
Qed.

Lemma paired_done {Job E} (view_of : Job -> view) (kind_of : E -> kind) running j
    (same : Job -> Job -> Prop) (s s' : sys Job E) :
  paired view_of kind_of running j same s s' -> todo s = [] ->
  todo s' = [] /\ jobs s !! j = jobs s' !! j.
Proof.
  intros (Htd & _ & a & b & Ha & Hb & _ & Heq) Hnil.
  split; [by rewrite <- Htd|]. rewrite Ha, Hb. f_equal. by apply Heq.
Qed.

(** Once the worker of a job is done, the record of the job is the one the
    same worker steps leave when no cancellation is requested at all: status,
    progress, result, error message and both time stamps are the same. *)
Theorem cancellation_leaves_no_trace (id : string) (now : datetime) (sched : list tick) :
  (forall w table request,
     let s0 := Training.submitted w table id now request in
     todo (Training.run_job id sched s0) = [] ->
     todo (Training.run_job id (work_only sched) s0) = [] /\
     jobs (Training.run_job id sched s0) !! id
     = jobs (Training.run_job id (work_only sched) s0) !! id) /\
  (forall w table request,
     let s0 := Prediction.submitted w table id now request in
     todo (Prediction.run_job id sched s0) = [] ->
     todo (Prediction.run_job id (work_only sched) s0) = [] /\
     jobs (Prediction.run_job id sched s0) !! id
     = jobs (Prediction.run_job id (work_only sched) s0) !! id) /\
  (forall w table request,
     let s0 := Validation.submitted w table id now request in
     todo (Validation.run_job id sched s0) = [] ->
     todo (Validation.run_job id (work_only sched) s0) = [] /\
     jobs (Validation.run_job id sched s0) !! id
     = jobs (Validation.run_job id (work_only sched) s0) !! id).
Proof.
  repeat apply conj.
  - intros w table request s0.
    apply (paired_done Training.view_of Training.kind_of "training" id training_same).
    apply (paired_run Training.exec Training.FailJob Training.cancel_training_job
             Training.view_of Training.kind_of "training" id training_same
             training_fresh (training_exec_present id) (training_cancel_present id)
             (training_exec_same id) (training_cancel_same id)).
    apply paired_start; [by intros a|]. apply training_finishing.
  - intros w table request s0.
    apply (paired_done Prediction.view_of Prediction.kind_of "running" id prediction_same).
    apply (paired_run Prediction.exec Prediction.FailJob Prediction.cancel_prediction_job
             Prediction.view_of Prediction.kind_of "running" id prediction_same
             running_fresh (prediction_exec_present w id) (prediction_cancel_present id)
             (prediction_exec_same w id) (prediction_cancel_same id)).
    apply paired_start; [by intros a|]. apply prediction_finishing.
  - intros w table request s0.
    apply (paired_done Validation.view_of Validation.kind_of "running" id validation_same).
    apply (paired_run Validation.exec Validation.FailJob Validation.cancel_validation_job
             Validation.view_of Validation.kind_of "running" id validation_same
             running_fresh (validation_exec_present w id) (validation_cancel_present w id)
             (validation_exec_same w id) (validation_cancel_same w id)).
    apply paired_start; [by intros a|]. apply validation_finishing.
Qed.

Lemma cancellation_leaves_no_trace_witness :
  let s0 := Training.submitted (training_world true) ∅ "job-1" 0
              (training_request Training.LINEAR_REGRESSION) in
  let sched := [Work 1; Cancel 2] ++ replicate 19 (Work 3) in
  todo (Training.run_job "job-1" (work_only sched) s0) = [] /\
  jobs (Training.run_job "job-1" sched s0) !! "job-1"
  = jobs (Training.run_job "job-1" (work_only sched) s0) !! "job-1".
Proof.
  apply (proj1 (cancellation_leaves_no_trace "job-1" 0
                  ([Work 1; Cancel 2] ++ replicate 19 (Work 3)))).
  vm_compute. reflexivity.
Defined.

(** ** What a finished worker leaves in the record *)

(** The view of a record the worker has finished with [final], from a view
    that had no error message and no result. *)
Definition settled (final : kind) (p : Q) (v : view) : Prop :=
  match final with
  | KComplete => v = View "completed" 100 true None
  | KFail text => v = View "failed" p false (Some text)
  | _ => False
  end.

(** The last progress value written, [p] when there is none. *)
Definition last_write (p : Q) (ks : list kind) : Q := default p (last (writes ks)).

(** A worker on its way to [final], or done with it. *)
Definition heading (running : string) (final : kind) (p : Q) (a : view * list kind) : Prop :=
  (last (snd a) = Some final /\ closed running (snd a) /\
   v_error (fst a) = None /\ v_payload (fst a) = false /\
   last_write (v_progress (fst a)) (removelast (snd a)) = p) \/
  (snd a = [] /\ settled final p (fst a)).

Lemma last_write_update status0 p0 p ks :
  last_write p0 (KUpdate status0 p :: ks) = last_write p ks.
Proof.
  unfold last_write. cbn [writes]. rewrite last_cons. by destruct (last (writes ks)).
Qed.

Lemma heading_step running final p t a :
  running ∉ ["queued"; "completed"; "failed"; "cancelled"] ->
  heading running final p a -> heading running final p (view_step running t a).
Proof.
  intros Hfresh. destruct (running_neq running Hfresh) as (Nq & Nc & Nf & Nx).
  destruct a as [v ks]. unfold heading at 1. cbn [fst snd].
  intros [(Hlast & Hc & He & Hp & Hw)|[-> Hs]]; unfold heading.
  - destruct t as [now|now]; simpl.
    + destruct ks as [|k rest]; [done|]. simpl.
      destruct rest as [|k' rest'].
      * right. split; [done|]. injection Hlast as ->. simpl in Hc, Hw.
        unfold last_write in Hw. simpl in Hw. subst p.
        destruct v as [st pr pay er]; simpl in *; subst.
        by destruct final.
      * left. destruct Hc as [Hi Hc]. split; [by rewrite last_cons_cons in Hlast|].
        split; [done|].
        destruct k as [status0 p0| | |]; simpl in Hi; try done.
        cbn [apply_kind v_error v_payload v_progress].
        split; [done|]. split; [done|].
        change (removelast (KUpdate status0 p0 :: k' :: rest'))
          with (KUpdate status0 p0 :: removelast (k' :: rest')) in Hw.
        by rewrite last_write_update in Hw.
    + left. unfold cancel_view. case_bool_decide; simpl; auto.
  - right. split; [by destruct t|].
    destruct t as [now|now]; simpl; [done|].
    unfold cancel_view. case_bool_decide as Hin; [|done]. exfalso.
    destruct final; simpl in Hs; try done; subst v; simpl in Hin; set_solver.
Qed.

Section Outcome.
Context {Job E : Type}.
Variable exec : string -> datetime -> E -> gmap string Job -> result (gmap string Job).
Variable fail : string -> E.
Variable cancel_job : gmap string Job -> string -> datetime -> gmap string Job * bool.
Variable view_of : Job -> view.
Variable kind_of : E -> kind.
Variable running : string.
Variable j : string.
Variable final : kind.
Variable p : Q.

Hypothesis running_fresh : running ∉ ["queued"; "completed"; "failed"; "cancelled"].
Hypothesis exec_present : forall now e (table : gmap string Job) job,
  table !! j = Some job ->
  exists table' job',
    exec j now e table = Ok table' /\ table' !! j = Some job' /\
    view_of job' = apply_kind (kind_of e) (view_of job).
Hypothesis cancel_present : forall now (table : gmap string Job) job,
  table !! j = Some job ->
  exists job',
    fst (cancel_job table j now) !! j = Some job' /\
    view_of job' = cancel_view running (view_of job).

Lemma heading_run sched : forall s,
  (exists job, jobs s !! j = Some job /\
               heading running final p (view_of job, map kind_of (todo s))) ->
  exists job,
    jobs (run exec (fun text => [fail text]) cancel_job j sched s) !! j = Some job /\
    heading running final p
      (view_of job,
       map kind_of (todo (run exec (fun text => [fail text]) cancel_job j sched s))).
Proof using running_fresh exec_present cancel_present.
  induction sched as [|t sched IH]; intros s Hs; [done|].
  cbn [run]. apply IH. destruct Hs as (job & Hj & Hh).
  destruct (step_sim exec fail cancel_job view_of kind_of running j
              exec_present cancel_present t s job Hj) as (job' & Hj' & Heq).
  exists job'. split; [done|]. rewrite Heq. by apply heading_step.
Qed.

End Outcome.

(** The write a [try] block ends its worker with. *)
Definition final_of {A} (r : result A) : kind :=
  match r with
  | Ok _ => KComplete
  | Raise text => KFail text
  end.

Lemma try_except_heading {E} (kind_of : E -> kind) running good e0 p
    (k : unit -> worker E unit) (fail : string -> E) :
  kind_of e0 = KUpdate running p -> (0 <= p)%Q ->
  rest_ok kind_of running good p (k tt) ->
  (forall text, kind_of (fail text) = KFail text) ->
  let m := emit e0 ≫= k in
  let trace := map kind_of (try_except m (fun text => [fail text])) in
  last trace = Some (final_of (snd m)) /\
  removelast trace
  = match snd m with
    | Ok _ => removelast (map kind_of (fst m))
    | Raise _ => map kind_of (fst m)
    end.
Proof.
  intros He Hp Hk Hfail. cbv zeta.
  unfold try_except, mbind, worker_bind, wbind, emit, rest_ok in *.
  destruct (k tt) as [evs [[]|text]]; cbn -[removelast last] in *.
  - destruct Hk as (pre & Hpre & Hs). rewrite Hpre.
    split; [|done]. by rewrite app_comm_cons, last_snoc.
  - rewrite map_app. cbn [map]. rewrite Hfail.
    split; [by rewrite app_comm_cons, last_snoc|].
    by rewrite app_comm_cons, removelast_last.
Qed.

Lemma heading_start running final (trace : list kind) :
  protocol running trace -> last trace = Some final ->
  heading running final (last_write 0 (removelast trace))
          (View "queued" 0 false None, trace).
Proof. intros (_ & Hc & _) Hl. left. simpl. auto. Qed.

Lemma heading_done running final p v :
  heading running final p (v, []) -> settled final p v.
Proof. intros [(Hl & _)|[_ Hs]]; [done|exact Hs]. Qed.

Lemma training_outcome w table id now request sched :
  let s := Training.run_job id sched (Training.submitted w table id now request) in
  let m := Training._train_model_try w request in
  todo s = [] ->
  exists job,
    jobs s !! id = Some job /\
    settled (final_of (snd m)) (last_write 0 (map Training.kind_of (fst m)))
            (Training.view_of job).
Proof.
  intros s m Hnil.
  destruct (train_model_try_rest (fun _ => True) (fun _ _ => I) w
              (training_texts_True w) request) as (p & k & Heq & Hp & Hk).
  destruct (try_except_heading Training.kind_of "training" (fun _ => True)
              (Training.UpdateJobStatus "training" p) p k Training.FailJob
              eq_refl Hp Hk (fun _ => eq_refl)) as [Hlast Hrm].
  rewrite <- Heq in Hlast, Hrm. fold m in Hlast, Hrm.
  destruct (training_protocol (fun _ => True) (fun _ _ => I) w
              (training_texts_True w) request) as [Hproto _].
  destruct (heading_run Training.exec Training.FailJob Training.cancel_training_job
              Training.view_of Training.kind_of "training" id (final_of (snd m))
              (last_write 0 (removelast (map Training.kind_of
                                           (Training._train_model w request))))
              training_fresh (training_exec_present id) (training_cancel_present id)
              sched (Training.submitted w table id now request)) as (job & Hj & Hh).
  { unfold Training.submitted, Training.start_training. cbn [jobs todo fst].
    eexists. split; [apply lookup_insert_eq|].
    apply heading_start; [exact Hproto | exact Hlast]. }
  unfold s, Training.run_job in Hnil |- *. rewrite Hnil in Hh. apply heading_done in Hh.
  exists job. split; [exact Hj|].
  change (Training._train_model w request)
    with (try_except m (fun text => [Training.FailJob text])) in Hh.
  rewrite Hrm in Hh.
  destruct (snd m) eqn:E; [done|exact Hh].
Qed.

Lemma prediction_outcome w table id now request sched :
  let s := Prediction.run_job id sched (Prediction.submitted w table id now request) in
  let m := Prediction._run_batch_prediction_try w id request in
  todo s = [] ->
  exists job,
    jobs s !! id = Some job /\
    settled (final_of (snd m)) (last_write 0 (map Prediction.kind_of (fst m)))
            (Prediction.view_of job).
Proof.
  intros s m Hnil.
  destruct (run_batch_prediction_try_rest (fun _ => True) (fun _ _ => I) w
              (prediction_texts_True w) id request) as (p & k & Heq & Hp & Hk).
  destruct (try_except_heading Prediction.kind_of "running" (fun _ => True)
              (Prediction.UpdateJobStatus "running" p) p k Prediction.FailJob
              eq_refl Hp Hk (fun _ => eq_refl)) as [Hlast Hrm].
  rewrite <- Heq in Hlast, Hrm. fold m in Hlast, Hrm.
  destruct (prediction_protocol (fun _ => True) (fun _ _ => I) w
              (prediction_texts_True w) id request) as [Hproto _].
  destruct (heading_run Prediction.exec Prediction.FailJob Prediction.cancel_prediction_job
              Prediction.view_of Prediction.kind_of "running" id (final_of (snd m))
              (last_write 0 (removelast (map Prediction.kind_of
                                           (Prediction._run_batch_prediction w id request))))
              running_fresh (prediction_exec_present w id) (prediction_cancel_present id)
              sched (Prediction.submitted w table id now request)) as (job & Hj & Hh).
  { unfold Prediction.submitted, Prediction.start_batch_prediction. cbn [jobs todo fst].
    eexists. split; [apply lookup_insert_eq|].
    apply heading_start; [exact Hproto | exact Hlast]. }
  unfold s, Prediction.run_job in Hnil |- *. rewrite Hnil in Hh. apply heading_done in Hh.
  exists job. split; [exact Hj|].
  change (Prediction._run_batch_prediction w id request)
    with (try_except m (fun text => [Prediction.FailJob text])) in Hh.
  rewrite Hrm in Hh.
  destruct (snd m) eqn:E; [done|exact Hh].
Qed.

Lemma validation_outcome w table id now request sched :
  let s := Validation.run_job id sched (Validation.submitted w table id now request) in
  let m := Validation._run_validation_try w id request in
  todo s = [] ->
  exists job,
    jobs s !! id = Some job /\
    settled (final_of (snd m)) (last_write 0 (map Validation.kind_of (fst m)))
            (Validation.view_of job).
Proof.
  intros s m Hnil.
  destruct (run_validation_try_rest (fun _ => True) (fun _ _ => I) w
              (validation_texts_True w) id request) as (p & k & Heq & Hp & Hk).
  destruct (try_except_heading Validation.kind_of "running" (fun _ => True)
              (Validation.UpdateJobStatus "running" p) p k Validation.FailJob
              eq_refl Hp Hk (fun _ => eq_refl)) as [Hlast Hrm].
  rewrite <- Heq in Hlast, Hrm. fold m in Hlast, Hrm.
  destruct (validation_protocol (fun _ => True) (fun _ _ => I) w
              (validation_texts_True w) id request) as [Hproto _].
  destruct (heading_run Validation.exec Validation.FailJob Validation.cancel_validation_job
              Validation.view_of Validation.kind_of "running" id (final_of (snd m))
              (last_write 0 (removelast (map Validation.kind_of
                                           (Validation._run_validation w id request))))
              running_fresh (validation_exec_present w id) (validation_cancel_present w id)
              sched (Validation.submitted w table id now request)) as (job & Hj & Hh).
  { unfold Validation.submitted, Validation.start_validation. cbn [jobs todo fst].
    eexists. split; [apply lookup_insert_eq|].
    apply heading_start; [exact Hproto | exact Hlast]. }
  unfold s, Validation.run_job in Hnil |- *. rewrite Hnil in Hh. apply heading_done in Hh.
  exists job. split; [exact Hj|].
  change (Validation._run_validation w id request)
    with (try_except m (fun text => [Validation.FailJob text])) in Hh.
  rewrite Hrm in Hh.
  destruct (snd m) eqn:E; [done|exact Hh].
Qed.

Lemma payload_false {A} (o : option A) : bool_decide (is_Some o) = false -> o = None.
Proof. destruct o; [|done]. intros H. apply bool_decide_eq_false in H. by destruct H. Qed.

Lemma payload_true {A} (o : option A) : bool_decide (is_Some o) = true -> is_Some o.
Proof. apply bool_decide_eq_true. Qed.

(** Once its worker is done, a job is completed when the [try] block of the
    worker returned, with progress 100, its result set and no error message;
    it is failed when the block raised, with the text of the exception as
    error message, no result, and the progress of the last update before the
    exception.  Cancellation requests on the way change none of this. *)
Theorem worker_outcome (id : string) (now : datetime) (sched : list tick) :
  (forall w table request,
     let s := Training.run_job id sched (Training.submitted w table id now request) in
     todo s = [] ->
     exists job,
       jobs s !! id = Some job /\
       match Training._train_model_try w request with
       | (_, Ok _) =>
           Training.status job = "completed" /\ Training.progress job = 100%Q /\
           is_Some (Training.metrics job) /\ Training.error_message job = None
       | (evs, Raise text) =>
           Training.status job = "failed" /\ Training.error_message job = Some text /\
           Training.metrics job = None /\
           Training.progress job = last_write 0 (map Training.kind_of evs)
       end) /\
  (forall w table request,
     let s := Prediction.run_job id sched (Prediction.submitted w table id now request) in
     todo s = [] ->
     exists job,
       jobs s !! id = Some job /\
       match Prediction._run_batch_prediction_try w id request with
       | (_, Ok _) =>
           Prediction.status job = "completed" /\ Prediction.progress job = 100%Q /\
           is_Some (Prediction.output_path job) /\ Prediction.error_message job = None
       | (evs, Raise text) =>
           Prediction.status job = "failed" /\ Prediction.error_message job = Some text /\
           Prediction.output_path job = None /\
           Prediction.progress job = last_write 0 (map Prediction.kind_of evs)
       end) /\
  (forall w table request,
     let s := Validation.run_job id sched (Validation.submitted w table id now request) in
     todo s = [] ->
     exists job,
       jobs s !! id = Some job /\
       match Validation._run_validation_try w id request with
       | (_, Ok _) =>
           Validation.status job = "completed" /\ Validation.progress job = 100%Q /\
           is_Some (Validation.result_ job) /\ Validation.error_message job = None
       | (evs, Raise text) =>
           Validation.status job = "failed" /\ Validation.error_message job = Some text /\
           Validation.result_ job = None /\
           Validation.progress job = last_write 0 (map Validation.kind_of evs)
       end).
Proof.
  repeat apply conj.
  - intros w table request s Hnil.
    destruct (training_outcome w table id now request sched Hnil) as (job & Hj & Hs).
    exists job. split; [exact Hj|].
    destruct (Training._train_model_try w request) as [evs [[]|text]];
      simpl in Hs; injection Hs as Hst Hpr Hpay Her; repeat split; try done.
    + by apply payload_true.
    + by apply payload_false.
  - intros w table request s Hnil.
    destruct (prediction_outcome w table id now request sched Hnil) as (job & Hj & Hs).
    exists job. split; [exact Hj|].
    destruct (Prediction._run_batch_prediction_try w id request) as [evs [[]|text]];
      simpl in Hs; injection Hs as Hst Hpr Hpay Her; repeat split; try done.
    + by apply payload_true.
    + by apply payload_false.
  - intros w table request s Hnil.
    destruct (validation_outcome w table id now request sched Hnil) as (job & Hj & Hs).
    exists job. split; [exact Hj|].
    destruct (Validation._run_validation_try w id request) as [evs [[]|text]];
      simpl in Hs; injection Hs as Hst Hpr Hpay Her; repeat split; try done.
    + by apply payload_true.
    + by apply payload_false.
Qed.

Lemma worker_outcome_witness :
  let s := Training.run_job "job-1" ([Work 1; Cancel 2] ++ replicate 19 (Work 3))
             (Training.submitted (training_world true) ∅ "job-1" 0
                (training_request Training.RANDOM_FOREST)) in
  exists job,
    jobs s !! "job-1" = Some job /\
    Training.status job = "completed" /\ Training.progress job = 100%Q /\
    is_Some (Training.metrics job) /\ Training.error_message job = None.
Proof.
  apply (proj1 (worker_outcome "job-1" 0 ([Work 1; Cancel 2] ++ replicate 19 (Work 3)))
           (training_world true) ∅ (training_request Training.RANDOM_FOREST)).
  vm_compute. reflexivity.
Defined.

(** ** Jobs whose input is missing *)

(** A job whose data set file does not exist: the worker writes its first
    update, tests for the file and records the failure; it reads nothing and
    loads nothing.  Once it is done the job is failed with the not-found
    message, without a result, at the progress of the first update (10, and
    5 for a batch prediction). *)
Theorem missing_dataset_fails (id : string) (now : datetime) (sched : list tick) :
  (forall w table request,
     let path := os_path_join Training.data_dir (Training.dataset_id request +:+ ".csv") in
     let text := "Dataset " +:+ Training.dataset_id request +:+ " not found" in
     Training.os_path_exists w path = false ->
     Training._train_model w request
     = [Training.UpdateJobStatus "training" 10;
        Training.External (Training.OsPathExists path); Training.FailJob text] /\
     let s := Training.run_job id sched (Training.submitted w table id now request) in
     (todo s = [] ->
      exists job,
        jobs s !! id = Some job /\ Training.status job = "failed" /\
        Training.error_message job = Some text /\ Training.metrics job = None /\
        Training.progress job = 10%Q)) /\
  (forall w table request,
     let path :=
       os_path_join Prediction.data_dir (Prediction.req_dataset_id request +:+ ".csv") in
     let text := "Dataset " +:+ Prediction.req_dataset_id request +:+ " not found" in
     Prediction.os_path_exists w path = false ->
     Prediction._run_batch_prediction w id request
     = [Prediction.UpdateJobStatus "running" 5;
        Prediction.External (Prediction.OsPathExists path); Prediction.FailJob text] /\
     let s := Prediction.run_job id sched (Prediction.submitted w table id now request) in
     (todo s = [] ->
      exists job,
        jobs s !! id = Some job /\ Prediction.status job = "failed" /\
        Prediction.error_message job = Some text /\ Prediction.output_path job = None /\
        Prediction.progress job = 5%Q)) /\
  (forall w table request,
     let path :=
       os_path_join Validation.data_dir (Validation.req_dataset_id request +:+ ".csv") in
     let text := "Dataset " +:+ Validation.req_dataset_id request +:+ " not found" in
     Validation.os_path_exists w path = false ->
     Validation._run_validation w id request
     = [Validation.UpdateJobStatus "running" 10;
        Validation.External (Validation.OsPathExists path); Validation.FailJob text] /\
     let s := Validation.run_job id sched (Validation.submitted w table id now request) in
     (todo s = [] ->
      exists job,
        jobs s !! id = Some job /\ Validation.status job = "failed" /\
        Validation.error_message job = Some text /\ Validation.result_ job = None /\
        Validation.progress job = 10%Q)).
Proof.
  repeat apply conj.
  - intros w table request path text He.
    assert (Hm : Training._train_model_try w request
                 = ([Training.UpdateJobStatus "training" 10;
                     Training.External (Training.OsPathExists path)], Raise text)).
    { unfold Training._train_model_try. fold path. rewrite He. reflexivity. }
    split; [unfold Training._train_model; by rewrite Hm|].
    intros s Hnil.
    destruct (training_outcome w table id now request sched Hnil) as (job & Hj & Hs).
    exists job. split; [exact Hj|]. rewrite Hm in Hs. simpl in Hs.
    injection Hs as Hst Hpr Hpay Her. repeat split; try done. by apply payload_false.
  - intros w table request path text He.
    assert (Hm : Prediction._run_batch_prediction_try w id request
                 = ([Prediction.UpdateJobStatus "running" 5;
                     Prediction.External (Prediction.OsPathExists path)], Raise text)).
    { unfold Prediction._run_batch_prediction_try. fold path. rewrite He. reflexivity. }
    split; [unfold Prediction._run_batch_prediction; by rewrite Hm|].
    intros s Hnil.
    destruct (prediction_outcome w table id now request sched Hnil) as (job & Hj & Hs).
    exists job. split; [exact Hj|]. rewrite Hm in Hs. simpl in Hs.
    injection Hs as Hst Hpr Hpay Her. repeat split; try done. by apply payload_false.
  - intros w table request path text He.
    assert (Hm : Validation._run_validation_try w id request
                 = ([Validation.UpdateJobStatus "running" 10;
                     Validation.External (Validation.OsPathExists path)], Raise text)).
    { unfold Validation._run_validation_try. fold path. rewrite He. reflexivity. }
    split; [unfold Validation._run_validation; by rewrite Hm|].
    intros s Hnil.
    destruct (validation_outcome w table id now request sched Hnil) as (job & Hj & Hs).
    exists job. split; [exact Hj|]. rewrite Hm in Hs. simpl in Hs.
    injection Hs as Hst Hpr Hpay Her. repeat split; try done. by apply payload_false.
Qed.

Lemma missing_dataset_fails_witness :
  let s := Training.run_job "job-1" [Work 1; Cancel 2; Work 3; Work 4]
             (Training.submitted (training_world false) ∅ "job-1" 0
                (training_request Training.XGBOOST)) in
  exists job,
    jobs s !! "job-1" = Some job /\ Training.status job = "failed" /\
    Training.error_message job = Some "Dataset ds1 not found" /\
    Training.metrics job = None /\ Training.progress job = 10%Q.
Proof.
  apply (proj2 (proj1 (missing_dataset_fails "job-1" 0 [Work 1; Cancel 2; Work 3; Work 4])
                  (training_world false) ∅ (training_request Training.XGBOOST) eq_refl)).
  reflexivity.
Defined.

(** A batch prediction or validation job whose model file does not exist,
    the data set being there: the worker reads the data set, tests for the
    model file and records the failure, without loading a model.  Once it is
    done the job is failed with the not-found message and no result, at
    progress 10 for a batch prediction and 20 for a validation. *)
Theorem missing_model_fails (id : string) (now : datetime) (sched : list tick) :
  (forall w table request df,
     let data :=
       os_path_join Prediction.data_dir (Prediction.req_dataset_id request +:+ ".csv") in
     let path :=
       os_path_join Prediction.models_dir (Prediction.req_model_id request +:+ ".pkl") in
     let text := "Model " +:+ Prediction.req_model_id request +:+ " not found" in
     Prediction.os_path_exists w data = true ->
     Prediction.pd_read_csv w data = Ok df ->
     Prediction.os_path_exists w path = false ->
     Prediction._run_batch_prediction w id request
     = [Prediction.UpdateJobStatus "running" 5;
        Prediction.External (Prediction.OsPathExists data);
        Prediction.External (Prediction.PdReadCsv data);
        Prediction.SetTotalRecords (Z.of_nat (length df));
        Prediction.UpdateJobStatus "running" 10;
        Prediction.External (Prediction.OsPathExists path); Prediction.FailJob text] /\
     let s := Prediction.run_job id sched (Prediction.submitted w table id now request) in
     (todo s = [] ->
      exists job,
        jobs s !! id = Some job /\ Prediction.status job = "failed" /\
        Prediction.error_message job = Some text /\ Prediction.output_path job = None /\
        Prediction.progress job = 10%Q)) /\
  (forall w table request df,
     let data :=
       os_path_join Validation.data_dir (Validation.req_dataset_id request +:+ ".csv") in
     let path :=
       os_path_join Validation.models_dir (Validation.req_model_id request +:+ ".pkl") in
     let text := "Model " +:+ Validation.req_model_id request +:+ " not found" in
     Validation.os_path_exists w data = true ->
     Validation.pd_read_csv w data = Ok df ->
     Validation.os_path_exists w path = false ->
     Validation._run_validation w id request
     = [Validation.UpdateJobStatus "running" 10;
        Validation.External (Validation.OsPathExists data);
        Validation.External (Validation.PdReadCsv data);
        Validation.UpdateJobStatus "running" 20;
        Validation.External (Validation.OsPathExists path); Validation.FailJob text] /\
     let s := Validation.run_job id sched (Validation.submitted w table id now request) in
     (todo s = [] ->
      exists job,
        jobs s !! id = Some job /\ Validation.status job = "failed" /\
        Validation.error_message job = Some text /\ Validation.result_ job = None /\
        Validation.progress job = 20%Q)).
Proof.
  repeat apply conj.
  - intros w table request df data path text Hd Hr He.
    assert (Hm : Prediction._run_batch_prediction_try w id request
                 = ([Prediction.UpdateJobStatus "running" 5;
                     Prediction.External (Prediction.OsPathExists data);
                     Prediction.External (Prediction.PdReadCsv data);
                     Prediction.SetTotalRecords (Z.of_nat (length df));
                     Prediction.UpdateJobStatus "running" 10;
                     Prediction.External (Prediction.OsPathExists path)], Raise text)).
    { unfold Prediction._run_batch_prediction_try. fold data. fold path.
      rewrite Hd, Hr, He. reflexivity. }
    split; [unfold Prediction._run_batch_prediction; by rewrite Hm|].
    intros s Hnil.
    destruct (prediction_outcome w table id now request sched Hnil) as (job & Hj & Hs).
    exists job. split; [exact Hj|]. rewrite Hm in Hs. simpl in Hs.
    injection Hs as Hst Hpr Hpay Her. repeat split; try done. by apply payload_false.
  - intros w table request df data path text Hd Hr He.
    assert (Hm : Validation._run_validation_try w id request
                 = ([Validation.UpdateJobStatus "running" 10;
                     Validation.External (Validation.OsPathExists data);
                     Validation.External (Validation.PdReadCsv data);
                     Validation.UpdateJobStatus "running" 20;
                     Validation.External (Validation.OsPathExists path)], Raise text)).
    { unfold Validation._run_validation_try. fold data. fold path.
      rewrite Hd, Hr, He. reflexivity. }
    split; [unfold Validation._run_validation; by rewrite Hm|].
    intros s Hnil.
    destruct (validation_outcome w table id now request sched Hnil) as (job & Hj & Hs).
    exists job. split; [exact Hj|]. rewrite Hm in Hs. simpl in Hs.
    injection Hs as Hst Hpr Hpay Her. repeat split; try done. by apply payload_false.
Qed.

Lemma missing_model_fails_witness :
  let request :=
    {| Validation.req_model_id := "m2"; Validation.req_dataset_id := "ds1";
       Validation.validation_type := "holdout"; Validation.cv_folds := 5;
       Validation.req_metrics := ["accuracy"] |} in
  let s := Validation.run_job "job-1" (Cancel 1 :: replicate 6 (Work 2))
             (Validation.submitted validation_world ∅ "job-1" 0 request) in
  exists job,
    jobs s !! "job-1" = Some job /\ Validation.status job = "failed" /\
    Validation.error_message job = Some "Model m2 not found" /\
    Validation.result_ job = None /\ Validation.progress job = 20%Q.
Proof.
  intros request.
  apply (proj2 (proj2 (missing_model_fails "job-1" 0 (Cancel 1 :: replicate 6 (Work 2)))
                  validation_world ∅ request "df" eq_refl eq_refl eq_refl)).
  reflexivity.
Defined.

(** ** The result of a completed job *)

Lemma basename_plain (s : string) :
  "/"%char ∉ String.list_ascii_of_string s -> Training.os_path_basename s = s.
Proof.
  destruct s as [|c rest]; [done|]. simpl. intros Hn.
  rewrite bool_decide_eq_false_2 by (intros ->; apply Hn; by left).
  rewrite bool_decide_eq_false_2 by (intros Hin; apply Hn; by right).
  done.
Qed.

Lemma list_ascii_app (a b : string) :
  String.list_ascii_of_string (a +:+ b)
  = String.list_ascii_of_string a ++ String.list_ascii_of_string b.
Proof. induction a as [|c a IH]; [done|]. simpl. by rewrite IH. Qed.

Lemma basename_dir (dir name : string) :
  "/"%char ∉ String.list_ascii_of_string name ->
  Training.os_path_basename (os_path_join dir name) = name.
Proof.
  intros Hn. unfold os_path_join.
  induction dir as [|c dir IH]; simpl.
  - rewrite ?bool_decide_eq_true_2 by done. by apply basename_plain.
  - case_bool_decide; [exact IH|].
    rewrite bool_decide_eq_true_2; [exact IH|].
    rewrite list_ascii_app. apply elem_of_app. right. simpl. by left.
Qed.

Lemma str_replace_suffix (name : string) :
  "."%char ∉ String.list_ascii_of_string name ->
  forall fuel, (String.length name < fuel)%nat ->
  Training.str_replace_fuel fuel ".pkl" "" (name +:+ ".pkl") = name.
Proof.
  induction name as [|c name IH]; intros Hn fuel Hf.
  - destruct fuel as [|fuel]; [simpl in Hf; lia|]. simpl.
    by destruct fuel.
  - destruct fuel as [|fuel]; [simpl in Hf; lia|].
    simpl in Hn.
    change (Training.str_replace_fuel (S fuel) ".pkl" "" (String c name +:+ ".pkl"))
      with (if String.prefix ".pkl" (String c (name +:+ ".pkl"))
            then "" +:+ Training.str_replace_fuel fuel ".pkl" ""
                          (Training.string_drop (String.length ".pkl")
                             (String c (name +:+ ".pkl")))
            else String c (Training.str_replace_fuel fuel ".pkl" "" (name +:+ ".pkl"))).
    assert (Hc : c <> "."%char) by (intros ->; apply Hn; by left).
    assert (Hp : String.prefix ".pkl" (String c (name +:+ ".pkl")) = false).
    { cbn [String.prefix]. destruct (Ascii.ascii_dec "." c) as [E|E]; [by subst|done]. }
    rewrite Hp. f_equal. apply IH; [intros Hin; apply Hn; by right|].
    simpl in Hf. lia.
Qed.

Lemma string_length_app (a b : string) :
  String.length (a +:+ b) = (String.length a + String.length b)%nat.
Proof. induction a as [|c a IH]; [done|]. simpl. by rewrite IH. Qed.

(** The model id comes back out of the path the worker stored it under. *)
Lemma model_id_of_path (model_id : string) :
  "/"%char ∉ String.list_ascii_of_string model_id ->
  "."%char ∉ String.list_ascii_of_string model_id ->
  Training.str_replace ".pkl" "" (Training.os_path_basename (os_path_join "models" (model_id +:+ ".pkl")))
  = model_id.
Proof.
  intros Hs Hd. rewrite basename_dir.
  - unfold Training.str_replace. apply str_replace_suffix; [done|].
    rewrite string_length_app. simpl. lia.
  - rewrite list_ascii_app. intros Hin. apply elem_of_app in Hin as [Hin|Hin]; [done|].
    simpl in Hin. set_solver.
Qed.

Section Always.
Context {E : Type}.
Variable P : E -> Prop.

(** Every action of [m] satisfies [P]. *)
Definition always {A} (m : worker E A) : Prop := Forall P (fst m).

Lemma always_bind {A B} (m : worker E A) (k : A -> worker E B) :
  always m -> (forall a, snd m = Ok a -> always (k a)) -> always (m ≫= k).
Proof.
  destruct m as [evs [a|text]]; unfold always; simpl; intros Hm Hk; [|done].
  specialize (Hk a eq_refl). unfold mbind, worker_bind, wbind.
  destruct (k a) as [evs' r]. simpl in *. by apply Forall_app.
Qed.

Lemma always_emit e : P e -> always (emit e).
Proof. intros He. by constructor. Qed.

Lemma always_call {A} e (r : result A) : P e -> always (call e r).
Proof. intros He. by constructor. Qed.

Lemma always_quiet {A} (m : worker E A) : fst m = [] -> always m.
Proof. unfold always. by intros ->. Qed.

Lemma always_try_except (m : worker E unit) (fail : string -> E) :
  always m -> (forall text, P (fail text)) ->
  Forall P (try_except m (fun text => [fail text])).
Proof.
  destruct m as [evs [[]|text]]; unfold always; simpl; intros Hm Hf; [done|].
  apply Forall_app. split; [done|]. by constructor.
Qed.

End Always.

Section Kept.
Context {Job E : Type}.
Variable exec : string -> datetime -> E -> gmap string Job -> result (gmap string Job).
Variable fail : string -> E.
Variable cancel_job : gmap string Job -> string -> datetime -> gmap string Job * bool.
Variable j : string.
Variable kept : Job -> Prop.
Variable allowed : E -> Prop.

Hypothesis exec_kept : forall now e (table : gmap string Job) job,
  allowed e -> table !! j = Some job -> kept job ->
  exists table' job',
    exec j now e table = Ok table' /\ table' !! j = Some job' /\ kept job'.
Hypothesis cancel_kept : forall now (table : gmap string Job) job,
  table !! j = Some job -> kept job ->
  exists job', fst (cancel_job table j now) !! j = Some job' /\ kept job'.

Lemma run_kept sched : forall s,
  Forall allowed (todo s) ->
  (exists job, jobs s !! j = Some job /\ kept job) ->
  exists job,
    jobs (run exec (fun text => [fail text]) cancel_job j sched s) !! j = Some job /\
    kept job.
Proof using exec_kept cancel_kept.
  induction sched as [|t sched IH]; intros s Hall Hjob; [done|].
  cbn [run]. destruct Hjob as (job & Hj & Hk). destruct s as [table td]; simpl in *.
  destruct t as [now|now]; simpl in *.
  - destruct td as [|e rest]; [apply IH; eauto|].
    apply Forall_cons in Hall as [He Hall].
    destruct (exec_kept now e table job He Hj Hk) as (table' & job' & -> & ? & ?).
    apply IH; simpl; eauto.
  - apply IH; simpl; [done|]. by eapply cancel_kept.
Qed.

End Kept.

(** The path a training worker stores its model under. *)
Definition stored_path (w : Training.world) : string :=
  os_path_join Training.models_dir (Training.uuid4 w +:+ ".pkl").

Definition metric_names : gset string := {["mse"; "rmse"; "mae"; "r2_score"]}.

(** What the completion write of a training worker carries. *)
Definition training_allowed (w : Training.world) (e : Training.event) : Prop :=
  match e with
  | Training.UpdateJobStatus status0 _ => status0 = "training"
  | Training.CompleteJob model_id model_path0 metrics0 _ =>
      model_id = Training.uuid4 w /\ model_path0 = stored_path w /\
      dom metrics0 = metric_names
  | _ => True
  end.

Lemma calculate_metrics_names w y_true y_pred ms :
  snd (Training._calculate_metrics w y_true y_pred) = Ok ms -> dom ms = metric_names.
Proof.
  unfold Training._calculate_metrics, mbind, worker_bind, wbind, call, mret, worker_ret, wret.
  destruct (Training.mean_squared_error w y_true y_pred); [|done].
  destruct (Training.mean_absolute_error w y_true y_pred); [|done].
  destruct (Training.r2_score w y_true y_pred); [|done].
  simpl. intros [= <-]. unfold metric_names. rewrite !dom_insert_L, dom_empty_L.
  set_solver.
Qed.

Lemma train_model_allowed w request :
  Forall (training_allowed w) (Training._train_model w request).
Proof.
  unfold Training._train_model. apply always_try_except; [|done].
  unfold Training._train_model_try.
  eapply always_bind; [by apply always_emit | intros _ _].
  eapply always_bind; [by apply always_call | intros found _].
  eapply always_bind; [apply always_quiet; by destruct (negb found) | intros _ _].
  eapply always_bind; [by apply always_call | intros df _].
  eapply always_bind; [by apply always_emit | intros _ _].
  eapply always_bind; [by apply always_call | intros X _].
  eapply always_bind; [by apply always_call | intros y _].
  eapply always_bind;
    [by apply always_call | intros [[[X_train X_test] y_train] y_test] _].
  eapply always_bind; [by apply always_emit | intros _ _].
  eapply always_bind; [| intros model _].
  { unfold Training._create_model.
    repeat case_bool_decide; try (by apply always_call). by apply always_quiet. }
  eapply always_bind; [by apply always_call | intros model' _].
  eapply always_bind; [by apply always_emit | intros _ _].
  eapply always_bind; [by apply always_call | intros y_pred _].
  eapply always_bind; [| intros ms Hms].
  { unfold Training._calculate_metrics.
    repeat (eapply always_bind; [by apply always_call | intros ? _]).
    by apply always_quiet. }
  eapply always_bind; [by apply always_emit | intros _ _].
  eapply always_bind; [by apply always_call | intros _ _].
  apply always_emit. simpl. split; [done|]. split; [done|].
  by eapply calculate_metrics_names.
Qed.

(** A training record that says completed holds what the completion write
    stored. *)
Definition training_kept (w : Training.world) (job : Training.TrainingStatus) : Prop :=
  Training.status job = "completed" ->
  Training.model_path job = Some (stored_path w) /\
  (exists ms, Training.metrics job = Some ms /\ dom ms = metric_names) /\
  is_Some (Training.completed_at job).

Lemma training_exec_kept w j now e (table : gmap string Training.TrainingStatus) job :
  training_allowed w e -> table !! j = Some job -> training_kept w job ->
  exists table' job',
    Training.exec j now e table = Ok table' /\ table' !! j = Some job' /\
    training_kept w job'.
Proof.
  intros He Hj Hk. unfold training_kept in *.
  destruct e; simpl in *;
    unfold Training._update_job_status, Training._complete_job, Training._fail_job;
    rewrite ?Hj; eexists _, _; (split; [reflexivity|]);
    rewrite ?lookup_insert_eq; (split; [first [reflexivity | eassumption]|]); simpl;
    try done.
  - by subst.
  - intros _. destruct He as (_ & -> & Hd). eauto.
Qed.

Lemma training_cancel_kept w j now (table : gmap string Training.TrainingStatus) job :
  table !! j = Some job -> training_kept w job ->
  exists job',
    fst (Training.cancel_training_job table j now) !! j = Some job' /\
    training_kept w job'.
Proof.
  intros Hj Hk. unfold Training.cancel_training_job. rewrite Hj.
  case_bool_decide; simpl; [|eauto].
  rewrite lookup_insert_eq. eexists. split; [done|]. by intros ?.
Qed.

(** What the completion write of a validation worker carries. *)
Definition validation_allowed {w} (id : string) (request : Validation.ValidationRequest)
    (res : Validation.ValidationResult w) : Prop :=
  Validation.res_job_id res = id /\
  Validation.res_model_id w res = Validation.req_model_id request /\
  Validation.res_dataset_id w res = Validation.req_dataset_id request /\
  Validation.res_validation_type w res = Validation.validation_type request.

Definition validation_event_allowed {w} (id : string)
    (request : Validation.ValidationRequest) (e : Validation.event w) : Prop :=
  match e with
  | Validation.CompleteJob res => validation_allowed id request res
  | _ => True
  end.

Lemma run_validation_allowed w id request :
  Forall (validation_event_allowed id request) (Validation._run_validation w id request).
Proof.
  unfold Validation._run_validation. apply always_try_except; [|done].
  unfold Validation._run_validation_try.
  eapply always_bind; [by apply always_emit | intros _ _].
  eapply always_bind; [by apply always_call | intros found _].
  eapply always_bind; [apply always_quiet; by destruct (negb found) | intros _ _].
  eapply always_bind; [by apply always_call | intros df _].
  eapply always_bind; [by apply always_emit | intros _ _].
  eapply always_bind; [by apply always_call | intros found' _].
  eapply always_bind; [apply always_quiet; by destruct (negb found') | intros _ _].
  eapply always_bind; [by apply always_call | intros model _].
  eapply always_bind; [by apply always_emit | intros _ _].
  eapply always_bind; [by apply always_quiet | intros target_column _].
  eapply always_bind; [by apply always_call | intros X _].
  eapply always_bind; [by apply always_call | intros y _].
  eapply always_bind;
    [case_bool_decide; by apply always_call
    | intros [[[[metrics0 cv_scores] matrix] report] duration] _].
  eapply always_bind; [by apply always_emit | intros _ _].
  by apply always_emit.
Qed.

(** The result of a validation record is one its own worker has stored. *)
Definition validation_kept {w} (id : string) (request : Validation.ValidationRequest)
    (job : Validation.ValidationJob w) : Prop :=
  Validation.model_id job = Validation.req_model_id request /\
  Validation.dataset_id job = Validation.req_dataset_id request /\
  forall res, Validation.result_ job = Some res -> validation_allowed id request res.

Lemma validation_exec_kept w id request now (e : Validation.event w)
    (table : gmap string (Validation.ValidationJob w)) job :
  validation_event_allowed id request e -> table !! id = Some job ->
  validation_kept id request job ->
  exists table' job',
    Validation.exec id now e table = Ok table' /\ table' !! id = Some job' /\
    validation_kept id request job'.
Proof.
  intros He Hj Hk. unfold validation_kept in *.
  destruct e; simpl in *;
    unfold Validation._update_job_status, Validation.complete_job, Validation._fail_job;
    rewrite ?Hj; eexists _, _; (split; [reflexivity|]);
    rewrite ?lookup_insert_eq; (split; [first [reflexivity | eassumption]|]); simpl;
    try done.
  destruct Hk as (? & ? & _). split; [done|]. split; [done|]. by intros ? [= <-].
Qed.

Lemma validation_cancel_kept w id request now
    (table : gmap string (Validation.ValidationJob w)) job :
  table !! id = Some job -> validation_kept id request job ->
  exists job',
    fst (Validation.cancel_validation_job table id now) !! id = Some job' /\
    validation_kept id request job'.
Proof.
  intros Hj Hk. unfold Validation.cancel_validation_job. rewrite Hj.
  case_bool_decide; simpl; [|eauto].
  rewrite lookup_insert_eq. eexists. split; [done|]. exact Hk.
Qed.



(** ** compare_models: the order of the candidates *)

Lemma float_lt_between b x s :
  float_lt b s = true -> float_lt b x = false -> x <> NaN -> float_lt x s = true.
Proof.
  destruct b as [| | |b], x as [| | |x], s as [| | |s]; try done.
  intros H1 H2 _. apply float_lt_Fin in H1. apply float_lt_Fin.
  simpl in H2. apply negb_false_iff, Qle_bool_iff in H2.
  eapply Qle_lt_trans; eauto.
Qed.

Lemma float_gt_between b x s :
  float_lt s b = true -> float_lt x b = false -> x <> NaN -> float_lt s x = true.
Proof.
  destruct b as [| | |b], x as [| | |x], s as [| | |s]; try done.
  intros H1 H2 _. apply float_lt_Fin in H1. apply float_lt_Fin.
  simpl in H2. apply negb_false_iff, Qle_bool_iff in H2.
  eapply Qlt_le_trans; eauto.
Qed.

(** A score that beats what another score does not beat is better than it. *)
Lemma better_between c b x s :
  better c s b = true -> better c x b = false -> x <> NaN -> better c s x = true.
Proof.
  unfold better, float_gt. destruct (Validation.higher_is_better c).
  - apply float_lt_between.
  - apply float_gt_between.
Qed.

(** The selection loop picks the first of the best: the scores before the
    pick are worse, the scores after it are not better. *)
Lemma select_best_first c l : forall bm0 bs0,
  let r := fold_left (Validation.select_best c) l (bm0, bs0) in
  r = (bm0, bs0) \/
  exists l1 id ms l2,
    l = l1 ++ (id, ms) :: l2 /\ fst r = Some id /\ ms !! c = Some (snd r) /\
    better c (snd r) bs0 = true /\
    (forall id' ms' s', (id', ms') ∈ l1 -> ms' !! c = Some s' -> s' <> NaN ->
                        better c (snd r) s' = true) /\
    (forall id' ms' s', (id', ms') ∈ l2 -> ms' !! c = Some s' ->
                        better c s' (snd r) = false).
Proof.
  induction l as [|[id ms] l IH]; intros bm0 bs0; cbv zeta; cbn [fold_left]; [by left|].
  rewrite select_best_unfold.
  destruct (ms !! c) as [s|] eqn:Hs.
  - destruct (better c s bs0) eqn:Hb.
    + right. destruct (IH (Some id) s) as [Hr|(l1 & id1 & ms1 & l2 & -> & Hf & Hm & Hb1 & H1 & H2)].
      * exists [], id, ms, l. rewrite Hr. simpl. repeat split; try done.
        -- intros ? ? ? Hin. by apply elem_of_nil in Hin.
        -- intros id' ms' s' Hin Hs'.
           destruct (select_best_fold c l (Some id) s) as [Hall _].
           rewrite Hr in Hall. by eapply Hall.
      * exists ((id, ms) :: l1), id1, ms1, l2. repeat split; try done.
        -- by eapply better_trans.
        -- intros id' ms' s' Hin Hs' Hn. apply elem_of_cons in Hin as [[= -> ->]|Hin].
           ++ rewrite Hs in Hs'. by injection Hs' as <-.
           ++ by eapply H1.
    + destruct (IH bm0 bs0) as [Hr|(l1 & id1 & ms1 & l2 & -> & Hf & Hm & Hb1 & H1 & H2)];
        [by left|right].
      exists ((id, ms) :: l1), id1, ms1, l2. repeat split; try done.
      intros id' ms' s' Hin Hs' Hn. apply elem_of_cons in Hin as [[= -> ->]|Hin].
      * rewrite Hs in Hs'. injection Hs' as <-. by eapply better_between.
      * by eapply H1.
  - destruct (IH bm0 bs0) as [Hr|(l1 & id1 & ms1 & l2 & -> & Hf & Hm & Hb1 & H1 & H2)];
      [by left|right].
    exists ((id, ms) :: l1), id1, ms1, l2. repeat split; try done.
    intros id' ms' s' Hin Hs' Hn. apply elem_of_cons in Hin as [[= -> ->]|Hin].
    + congruence.
    + by eapply H1.
Qed.

Lemma dict_set_keys {V} (d : list (string * V)) k v :
  (dict_set d k v).*1 = if bool_decide (k ∈ d.*1) then d.*1 else d.*1 ++ [k].
Proof.
  induction d as [|[k0 v0] d IH]; [done|].
  cbn [dict_set fmap list_fmap fst].
  destruct (decide (k0 = k)) as [->|Hne].
  - rewrite bool_decide_eq_true_2 by done.
    rewrite bool_decide_eq_true_2; [done|by left].
  - rewrite bool_decide_eq_false_2 by done.
    cbn [fmap list_fmap fst]. change (list_fmap _ _ fst ?l) with (l.*1). rewrite IH.
    destruct (decide (k ∈ d.*1)) as [Hin|Hin].
    + rewrite !bool_decide_eq_true_2; [done|by right|done].
    + rewrite !bool_decide_eq_false_2; [done| |done].
      intros Hin'. apply elem_of_cons in Hin' as [->|Hin']; done.
Qed.

Lemma results_keys w X_train X_test y_train y_test is_regression ids : forall acc pre,
  acc.*1 `sublist_of` pre ->
  (fold_left (Validation.evaluate_model w X_train X_test y_train y_test is_regression)
     ids acc).*1 `sublist_of` pre ++ ids.
Proof.
  induction ids as [|x ids IH]; intros acc pre Hsub; cbn [fold_left].
  - by rewrite app_nil_r.
  - rewrite (cons_middle x pre ids), app_assoc. apply IH.
    rewrite evaluate_model_unfold.
    destruct (candidate_metrics _ _ _ _ _ _ x);
      [|by apply sublist_inserts_r].
    rewrite dict_set_keys. case_bool_decide.
    + by apply sublist_inserts_r.
    + by apply sublist_app.
Qed.

(** A comparison that returns echoes its arguments and the time.  Its
    metrics list the evaluated candidates once each, in the order in which
    [model_ids] names them.  When a best model is named, every candidate
    listed before it has a worse score for the criterion (or nan, or none) and
    no candidate listed after it has a better one: among equal scores the
    first candidate wins.  (A best model whose id is the empty string is
    reported as "none".) *)
Theorem compare_models_first_wins (w : Validation.world) (model_ids : list string)
    (dataset_id criteria : string) (now : datetime) (cmp : Validation.ModelComparison) :
  Validation.compare_models w model_ids dataset_id criteria now = Ok cmp ->
  Validation.cmp_models cmp = model_ids /\
  Validation.cmp_dataset_id cmp = dataset_id /\
  Validation.cmp_comparison_criteria cmp = criteria /\
  Validation.cmp_created_at cmp = now /\
  NoDup ((Validation.cmp_metrics cmp).*1) /\
  (Validation.cmp_metrics cmp).*1 `sublist_of` model_ids /\
  (Validation.best_model cmp = "none" \/
   exists l1 ms l2 s,
     Validation.cmp_metrics cmp = l1 ++ (Validation.best_model cmp, ms) :: l2 /\
     ms !! criteria = Some s /\
     (forall id' ms' s', (id', ms') ∈ l1 -> ms' !! criteria = Some s' -> s' <> NaN ->
                         better criteria s s' = true) /\
     (forall id' ms' s', (id', ms') ∈ l2 -> ms' !! criteria = Some s' ->
                         better criteria s' s = false)).
Proof.
  intros Hcmp. unfold Validation.compare_models in Hcmp.
  destruct (Validation.os_path_exists w _) eqn:He; [|done]. cbn [negb] in Hcmp.
  unfold mbind, mret, result_bind, result_ret in Hcmp.
  destruct (Validation.pd_read_csv w _) as [df|] eqn:Hdf; [|done].
  destruct (Validation.last_column w df) as [target|] eqn:Ht; [|done].
  destruct (Validation.getitem_columns w df _) as [X|] eqn:HX; [|done].
  destruct (Validation.getitem_column w df target) as [y|] eqn:Hy; [|done].
  destruct (Validation.train_test_split w X y)
    as [[[[X_train X_test] y_train] y_test]|] eqn:Hs; [|done].
  injection Hcmp as <-.
  cbn [Validation.cmp_metrics Validation.best_model Validation.cmp_models
       Validation.cmp_dataset_id Validation.cmp_comparison_criteria
       Validation.cmp_created_at].
  set (is_regression := Validation._is_regression_problem w y).
  set (results := fold_left _ model_ids []).
  destruct (results_fold w X_train X_test y_train y_test is_regression model_ids [])
    as [Hnd Hres].
  { constructor. }
  { intros ? ? Hin. by apply elem_of_nil in Hin. }
  fold results in Hres, Hnd.
  assert (Hmem : forall id ms, (id, ms) ∈ results -> id ∈ model_ids).
  { intros id ms Hin. apply Hres in Hin as [[? _]|Hin]; [done|by apply elem_of_nil in Hin]. }
  repeat split; try done.
  - apply (results_keys w X_train X_test y_train y_test is_regression model_ids [] []).
    done.
  - destruct (select_best_first criteria results None
                (if Validation.higher_is_better criteria then NegInf else PosInf))
      as [Hr|(l1 & id & ms & l2 & Hl & Hf & Hm & Hb & H1 & H2)].
    + left. by rewrite Hr.
    + rewrite Hf. destruct (decide (id = "")) as [->|Hid]; [by left|right].
      rewrite or_none_Some by done.
      exists l1, ms, l2. eexists. split; [exact Hl|]. split; [exact Hm|]. done.
Qed.

Lemma compare_models_first_wins_witness :
  match Validation.compare_models validation_world ["m3"; "m1"; "m3"] "ds1" "precision" 0
  with
  | Ok cmp =>
      Validation.best_model cmp = "m3" /\
      (Validation.cmp_metrics cmp).*1 = ["m3"; "m1"] /\
      (Validation.cmp_metrics cmp).*1 `sublist_of` ["m3"; "m1"; "m3"] /\
      (Validation.best_model cmp = "none" \/
       exists l1 ms l2 s,
         Validation.cmp_metrics cmp = l1 ++ (Validation.best_model cmp, ms) :: l2 /\
         ms !! "precision" = Some s /\
         (forall id' ms' s', (id', ms') ∈ l1 -> ms' !! "precision" = Some s' ->
                             s' <> NaN -> better "precision" s s' = true) /\
         (forall id' ms' s', (id', ms') ∈ l2 -> ms' !! "precision" = Some s' ->
                             better "precision" s' s = false))
  | Raise _ => False
  end.
Proof.
  destruct (Validation.compare_models validation_world ["m3"; "m1"; "m3"] "ds1"
              "precision" 0) as [cmp|text] eqn:Hcmp; [|by vm_compute in Hcmp].
  pose proof (compare_models_first_wins validation_world ["m3"; "m1"; "m3"] "ds1"
                "precision" 0 cmp Hcmp) as (_ & _ & _ & _ & _ & Hsub & Hbest).
  assert (Hv : cmp = match Validation.compare_models validation_world ["m3"; "m1"; "m3"]
                             "ds1" "precision" 0 with
                     | Ok c => c
                     | Raise _ => cmp
                     end) by (by rewrite Hcmp).
  split; [rewrite Hv; by vm_compute|]. split; [rewrite Hv; by vm_compute|].
  split; [exact Hsub|exact Hbest].
Defined.

(** ** A batch prediction over an empty data set *)

(** A data set without rows: the loop over the batches is not entered, so the
    model predicts nothing and no progress is computed (there is no division
    by the zero row count).  The worker writes an output with no predictions
    and, even when confidence scores were asked for, no confidence scores, and
    completes the job. *)
Theorem empty_dataset_completes (w : Prediction.world) (id : string)
    (request : Prediction.BatchPredictionRequest) (model : Prediction.Estimator w) :
  let data :=
    os_path_join Prediction.data_dir (Prediction.req_dataset_id request +:+ ".csv") in
  let path :=
    os_path_join Prediction.models_dir (Prediction.req_model_id request +:+ ".pkl") in
  let json := bool_decide (Prediction.output_format request = "json") in
  let out :=
    os_path_join Prediction.outputs_dir
      (id +:+ (if json then "_predictions.json" else "_predictions.csv")) in
  Prediction.os_path_exists w data = true ->
  Prediction.pd_read_csv w data = Ok [] ->
  Prediction.os_path_exists w path = true ->
  Prediction.joblib_load w path = Ok model ->
  Prediction.write_file w out = Ok tt ->
  Prediction._run_batch_prediction w id request
  = [Prediction.UpdateJobStatus "running" 5;
     Prediction.External (Prediction.OsPathExists data);
     Prediction.External (Prediction.PdReadCsv data);
     Prediction.SetTotalRecords 0;
     Prediction.UpdateJobStatus "running" 10;
     Prediction.External (Prediction.OsPathExists path);
     Prediction.External (Prediction.JoblibLoad path);
     Prediction.UpdateJobStatus "running" 20;
     Prediction.External
       (if json then
          Prediction.JsonDump out
            {| Prediction.out_predictions := [];
               Prediction.out_model_id := Prediction.req_model_id request;
               Prediction.out_dataset_id := Prediction.req_dataset_id request;
               Prediction.out_created_at := Prediction.isoformat_now w;
               Prediction.out_confidence_scores := None |}
        else
          Prediction.ToCsv out
            {| Prediction.csv_rows := []; Prediction.csv_prediction := [];
               Prediction.csv_confidence := None |});
     Prediction.CompleteJob out] /\
  forall table now sched,
    let s := Prediction.run_job id sched (Prediction.submitted w table id now request) in
    todo s = [] ->
    exists job,
      jobs s !! id = Some job /\ Prediction.status job = "completed" /\
      Prediction.progress job = 100%Q /\ Prediction.error_message job = None /\
      is_Some (Prediction.output_path job).
Proof.
  intros data path json out Hd Hr He Hl Hw.
  assert (Hm : Prediction._run_batch_prediction_try w id request
               = (Prediction._run_batch_prediction w id request, Ok tt) /\
               Prediction._run_batch_prediction w id request
               = [Prediction.UpdateJobStatus "running" 5;
                  Prediction.External (Prediction.OsPathExists data);
                  Prediction.External (Prediction.PdReadCsv data);
                  Prediction.SetTotalRecords 0;
                  Prediction.UpdateJobStatus "running" 10;
                  Prediction.External (Prediction.OsPathExists path);
                  Prediction.External (Prediction.JoblibLoad path);
                  Prediction.UpdateJobStatus "running" 20;
                  Prediction.External
                    (if json then
                       Prediction.JsonDump out
                         {| Prediction.out_predictions := [];
                            Prediction.out_model_id := Prediction.req_model_id request;
                            Prediction.out_dataset_id := Prediction.req_dataset_id request;
                            Prediction.out_created_at := Prediction.isoformat_now w;
                            Prediction.out_confidence_scores := None |}
                     else
                       Prediction.ToCsv out
                         {| Prediction.csv_rows := []; Prediction.csv_prediction := [];
                            Prediction.csv_confidence := None |});
                  Prediction.CompleteJob out]).
  { unfold Prediction._run_batch_prediction, Prediction._run_batch_prediction_try.
    fold data. fold path. rewrite Hd, Hr, He, Hl.
    unfold out, json in *. clear out json.
    destruct (Prediction.include_confidence request);
      case_bool_decide; cbn; rewrite Hw; by cbn. }
  destruct Hm as [Htry Htrace]. split; [exact Htrace|].
  intros table now sched s Hnil.
  destruct (prediction_outcome w table id now request sched Hnil) as (job & Hj & Hs).
  exists job. split; [exact Hj|]. rewrite Htry in Hs. simpl in Hs.
  injection Hs as Hst Hpr Hpay Her. repeat split; try done. by apply payload_true.
Qed.

Lemma empty_dataset_completes_witness :
  let trace :=
    Prediction._run_batch_prediction (prediction_world 0 0) "job-1"
      (batch_request "csv" true) in
  Prediction.External
    (Prediction.ToCsv "outputs/job-1_predictions.csv"
       {| Prediction.csv_rows := []; Prediction.csv_prediction := [];
          Prediction.csv_confidence := None |}) ∈ trace /\
  forall table now sched,
    let s := Prediction.run_job "job-1" sched
               (Prediction.submitted (prediction_world 0 0) table "job-1" now
                  (batch_request "csv" true)) in
    todo s = [] ->
    exists job,
      jobs s !! "job-1" = Some job /\ Prediction.status job = "completed" /\
      Prediction.progress job = 100%Q /\ Prediction.error_message job = None /\
      is_Some (Prediction.output_path job).
Proof.
  destruct (empty_dataset_completes (prediction_world 0 0) "job-1"
              (batch_request "csv" true) "models/m1.pkl"
              eq_refl eq_refl eq_refl eq_refl eq_refl) as [Htrace Hrun].
  split; [|exact Hrun]. cbv zeta. rewrite Htrace. set_solver.
Defined.

(** ** The progress values of validation and batch prediction *)

Section MoreCheckpoints.
Context {E : Type}.
Variable kind_of : E -> kind.

Lemma follows_bind_Ok {A B} exp mid rest (m : worker E A) (k : A -> worker E B) :
  follows kind_of exp mid m -> (forall a, snd m = Ok a -> follows kind_of mid rest (k a)) ->
  follows kind_of exp rest (m ≫= k).
Proof.
  destruct m as [evs [a|text]]; unfold follows; simpl; intros Hm Hk.
  - specialize (Hk a eq_refl). unfold mbind, worker_bind, wbind.
    destruct (k a) as [evs' [b|text']]; simpl in *; rewrite map_app, writes_app.
    + by rewrite <- app_assoc, Hk.
    + destruct Hk as [r Hr]. exists r. by rewrite <- app_assoc, Hr.
  - exact Hm.
Qed.

Lemma follows_silent exp e : kind_of e = KSilent -> follows kind_of exp exp (emit e).
Proof. intros He. unfold follows. simpl. by rewrite He. Qed.

Lemma follows_for_each {S X} (f : X -> Q) (body : S -> X -> worker E S) xs :
  (forall acc x rest, follows kind_of (f x :: rest) rest (body acc x)) ->
  forall acc rest, follows kind_of (map f xs ++ rest) rest (for_each body xs acc).
Proof.
  intros Hbody. induction xs as [|x xs IH]; intros acc rest; simpl.
  - by apply follows_quiet.
  - eapply follows_bind; [apply Hbody|]. intros acc'. apply IH.
Qed.

(** The writes of a worker are first ones of the checkpoints of its [try]
    block, and all of them when the block returns. *)
Lemma try_except_writes exp (m : worker E unit) (fail : string -> E) :
  follows kind_of exp [] m -> (forall text, kind_of (fail text) = KFail text) ->
  let ws := writes (map kind_of (try_except m (fun text => [fail text]))) in
  ws `prefix_of` exp /\ (forall u, snd m = Ok u -> ws = exp).
Proof.
  intros Hf Hfail. destruct m as [evs [[]|text]]; unfold follows in Hf; simpl in *.
  - rewrite app_nil_r in Hf. by rewrite Hf.
  - rewrite map_app, writes_app. simpl. rewrite Hfail. simpl. rewrite app_nil_r.
    split; [|done]. destruct Hf as [r Hr]. exists r. by rewrite Hr.
Qed.

End MoreCheckpoints.

Lemma run_validation_try_follows w id request :
  follows Validation.kind_of [10; 20; 30; 80; 100]%Q []
          (Validation._run_validation_try w id request).
Proof.
  unfold Validation._run_validation_try.
  eapply follows_bind; [by eapply follows_update | intros _].
  eapply follows_bind; [by apply follows_call | intros found].
  eapply follows_bind; [apply follows_quiet; by destruct (negb found) | intros _].
  eapply follows_bind; [by apply follows_call | intros df].
  eapply follows_bind; [by eapply follows_update | intros _].
  eapply follows_bind; [by apply follows_call | intros found'].
  eapply follows_bind; [apply follows_quiet; by destruct (negb found') | intros _].
  eapply follows_bind; [by apply follows_call | intros model].
  eapply follows_bind; [by eapply follows_update | intros _].
  eapply follows_bind; [by apply follows_quiet | intros target_column].
  eapply follows_bind; [by apply follows_call | intros X].
  eapply follows_bind; [by apply follows_call | intros y].
  eapply follows_bind;
    [case_bool_decide; by apply follows_call
    | intros [[[[metrics0 cv_scores] matrix] report] duration]].
  eapply follows_bind; [by eapply follows_update | intros _].
  by apply follows_complete.
Qed.

(** The checkpoints of a batch prediction over [n] rows. *)
Definition batch_checkpoints (n : Z) : list Q :=
  [5; 10; 20]%Q ++ map (batch_progress n) (py_range 0 n Prediction.batch_size) ++ [100%Q].

Lemma batch_body_follows w request model df acc i rest :
  follows Prediction.kind_of (batch_progress (Z.of_nat (length df)) i :: rest) rest
          (Prediction.batch_body w request model df (Z.of_nat (length df)) acc i).
Proof.
  unfold Prediction.batch_body. destruct acc as [predictions scores].
  eapply follows_bind; [by apply follows_call | intros ps].
  eapply follows_bind; [| intros sc].
  { destruct (Prediction.include_confidence request).
    - eapply follows_bind; [by apply follows_call | intros c]. by apply follows_quiet.
    - by apply follows_quiet. }
  eapply follows_bind; [by apply follows_silent | intros _].
  eapply follows_bind; [by eapply follows_update | intros _].
  by apply follows_quiet.
Qed.

Lemma run_batch_prediction_try_follows w id request :
  let n :=
    match Prediction.pd_read_csv w
            (os_path_join Prediction.data_dir (Prediction.req_dataset_id request +:+ ".csv"))
    with
    | Ok df => Z.of_nat (length df)
    | Raise _ => 0
    end in
  follows Prediction.kind_of (batch_checkpoints n) []
          (Prediction._run_batch_prediction_try w id request).
Proof.
  intros n. unfold Prediction._run_batch_prediction_try, batch_checkpoints.
  eapply follows_bind; [by eapply follows_update | intros _].
  eapply follows_bind; [by apply follows_call | intros found].
  eapply follows_bind; [apply follows_quiet; by destruct (negb found) | intros _].
  eapply follows_bind_Ok; [by apply follows_call | intros df Hdf].
  simpl in Hdf. unfold n. rewrite Hdf. clear n.
  eapply follows_bind; [by apply follows_silent | intros _].
  eapply follows_bind; [by eapply follows_update | intros _].
  eapply follows_bind; [by apply follows_call | intros found'].
  eapply follows_bind; [apply follows_quiet; by destruct (negb found') | intros _].
  eapply follows_bind; [by apply follows_call | intros model].
  eapply follows_bind; [by eapply follows_update | intros _].
  eapply follows_bind; [| intros [predictions scores]].
  { apply (follows_for_each Prediction.kind_of (batch_progress (Z.of_nat (length df)))).
    intros acc x rest. apply batch_body_follows. }
  eapply follows_bind; [| intros out].
  { case_bool_decide.
    - eapply follows_bind; [by apply follows_call | intros _]. by apply follows_quiet.
    - eapply follows_bind; [by apply follows_quiet | intros _].
      eapply follows_bind; [apply follows_quiet; by destruct (truthy_list scores) | intros _].
      eapply follows_bind; [by apply follows_call | intros _]. by apply follows_quiet. }
  by apply follows_complete.
Qed.

Lemma run_validation_completes w id request res :
  Validation.CompleteJob res ∈ Validation._run_validation w id request ->
  snd (Validation._run_validation_try w id request) = Ok tt.
Proof.
  intros Hin.
  destruct (run_validation_try_rest (fun _ => True) (fun _ _ => I) w
              (validation_texts_True w) id request) as (p & k & Heq & _ & Hk).
  unfold Validation._run_validation in *. rewrite Heq in *.
  destruct (complete_means_ok Validation.kind_of "running" (fun _ => True)
              (Validation.UpdateJobStatus "running" p) p k
              Validation.FailJob (Validation.CompleteJob res)) as [evs Hevs]; try done.
  by rewrite Hevs.
Qed.

Lemma last_batch_progress (n : Z) :
  0 < n ->
  exists p, last (map (batch_progress n) (py_range 0 n Prediction.batch_size)) = Some p /\
            (p == 80)%Q.
Proof.
  intros Hn. pose proof (last_batch_is_all n ltac:(lia)) as Hall.
  set (l := py_range 0 n Prediction.batch_size) in *. clearbody l.
  destruct l as [|i0 l _] using rev_ind.
  - simpl in Hall. lia.
  - rewrite map_app in Hall |- *. simpl (map _ [_]) in Hall |- *.
    rewrite last_snoc in Hall. rewrite last_snoc. simpl in Hall.
    eexists. split; [reflexivity|]. unfold batch_progress. rewrite Hall.
    assert (Hq : ~ (inject_Z n == 0)%Q).
    { intros E. unfold Qeq, inject_Z in E. simpl in E. lia. }
    field. exact Hq.
Qed.

(** The progress a validation worker writes is 10, 20, 30, 80 and, with the
    completion, 100.  A batch prediction over N rows writes 5, 10, 20, then
    20 + 60 * processed / N after each batch, and 100 with the completion;
    the value after the last batch is 80.  A worker that fails has written
    the first ones of these values, a worker that completes all of them. *)
Theorem progress_checkpoints :
  (forall w id request,
     let trace := Validation._run_validation w id request in
     let ws := writes (map Validation.kind_of trace) in
     ws `prefix_of` [10; 20; 30; 80; 100]%Q /\
     (forall res, Validation.CompleteJob res ∈ trace -> ws = [10; 20; 30; 80; 100]%Q)) /\
  (forall w id request,
     let trace := Prediction._run_batch_prediction w id request in
     let ws := writes (map Prediction.kind_of trace) in
     let n :=
       match Prediction.pd_read_csv w
               (os_path_join Prediction.data_dir
                  (Prediction.req_dataset_id request +:+ ".csv"))
       with
       | Ok df => Z.of_nat (length df)
       | Raise _ => 0
       end in
     ws `prefix_of` batch_checkpoints n /\
     (forall path, Prediction.CompleteJob path ∈ trace -> ws = batch_checkpoints n)) /\
  (forall n i, 0 < n -> 0 <= i ->
     (batch_progress n i
      == 20 + 60 * inject_Z (Z.min (i + 1000) n) / inject_Z n)%Q /\
     (20 <= batch_progress n i <= 80)%Q) /\
  (forall n, 0 < n ->
     exists p, last (map (batch_progress n) (py_range 0 n Prediction.batch_size)) = Some p /\
               (p == 80)%Q).
Proof.
  repeat apply conj.
  - intros w id request trace ws.
    destruct (try_except_writes Validation.kind_of _ _ Validation.FailJob
                (run_validation_try_follows w id request) (fun _ => eq_refl))
      as [Hpre Hall].
    split; [exact Hpre|]. intros res Hin. apply (Hall tt).
    by eapply run_validation_completes.
  - intros w id request trace ws n.
    destruct (try_except_writes Prediction.kind_of _ _ Prediction.FailJob
                (run_batch_prediction_try_follows w id request) (fun _ => eq_refl))
      as [Hpre Hall].
    split; [exact Hpre|]. intros path Hin. apply (Hall tt).
    by rewrite (run_batch_prediction_completes w id request path Hin).
  - intros n i Hn Hi. split.
    + unfold batch_progress, Prediction.batch_size.
      assert (Hq : ~ (inject_Z n == 0)%Q).
      { intros E. unfold Qeq, inject_Z in E. simpl in E. lia. }
      field. exact Hq.
    + by apply batch_progress_bounds.
  - apply last_batch_progress.
Qed.

Lemma progress_checkpoints_witness :
  exists p, last (map (batch_progress 2500) (py_range 0 2500 Prediction.batch_size)) = Some p /\
            (p == 80)%Q.
Proof. apply (proj2 (proj2 (proj2 progress_checkpoints)) 2500). lia. Defined.

(** ** The record counts of a batch prediction *)

Section Tracked.
Context {Job E : Type}.
Variable exec : string -> datetime -> E -> gmap string Job -> result (gmap string Job).
Variable fail : string -> E.
Variable cancel_job : gmap string Job -> string -> datetime -> gmap string Job * bool.
Variable j : string.
(** An invariant of the record and the actions its worker still has to do. *)
Variable tracked : Job -> list E -> Prop.

Hypothesis exec_tracked : forall now e rest (table : gmap string Job) job,
  table !! j = Some job -> tracked job (e :: rest) ->
  exists table' job',
    exec j now e table = Ok table' /\ table' !! j = Some job' /\ tracked job' rest.
Hypothesis cancel_tracked : forall now (table : gmap string Job) job todo0,
  table !! j = Some job -> tracked job todo0 ->
  exists job', fst (cancel_job table j now) !! j = Some job' /\ tracked job' todo0.

Lemma run_tracked sched : forall s,
  (exists job, jobs s !! j = Some job /\ tracked job (todo s)) ->
  exists job,
    jobs (run exec (fun text => [fail text]) cancel_job j sched s) !! j = Some job /\
    tracked job (todo (run exec (fun text => [fail text]) cancel_job j sched s)).
Proof using exec_tracked cancel_tracked.
  induction sched as [|t sched IH]; intros s Hs; [done|].
  cbn [run]. apply IH. destruct Hs as (job & Hj & Ht). destruct s as [table td].
  simpl in *. destruct t as [now|now]; simpl.
  - destruct td as [|e rest]; [eauto|].
    destruct (exec_tracked now e rest table job Hj Ht) as (table' & job' & -> & ? & ?).
    simpl. eauto.
  - by eapply cancel_tracked.
Qed.

End Tracked.

(** An action that writes neither of the two counts. *)
Definition quiet {w} (e : Prediction.event w) : Prop :=
  match e with
  | Prediction.SetTotalRecords _ | Prediction.SetProcessedRecords _ => False
  | _ => True
  end.

(** An action that leaves the total alone and keeps the processed count
    within [0, n]. *)
Definition within {w} (n : Z) (e : Prediction.event w) : Prop :=
  match e with
  | Prediction.SetTotalRecords _ => False
  | Prediction.SetProcessedRecords p => 0 <= p <= n
  | _ => True
  end.

(** The total is written at most once, as [n], and before any processed
    count. *)
Definition counted {w} (n : Z) (evs : list (Prediction.event w)) : Prop :=
  Forall quiet evs \/
  exists pre post,
    evs = pre ++ Prediction.SetTotalRecords n :: post /\
    Forall quiet pre /\ Forall (within n) post.

Lemma counted_bind {w A B} n (m : worker (Prediction.event w) A)
    (k : A -> worker (Prediction.event w) B) :
  always quiet m -> (forall a, snd m = Ok a -> counted n (fst (k a))) ->
  counted n (fst (m ≫= k)).
Proof.
  destruct m as [evs [a|text]]; unfold always; simpl; intros Hm Hk; [|by left].
  specialize (Hk a eq_refl). unfold mbind, worker_bind, wbind.
  destruct (k a) as [evs' r]. simpl in *.
  destruct Hk as [Hq|(pre & post & -> & Hpre & Hpost)].
  - left. by apply Forall_app.
  - right. exists (evs ++ pre), post. rewrite <- app_assoc.
    split; [done|]. split; [by apply Forall_app|done].
Qed.

Lemma counted_set {w B} n (m : worker (Prediction.event w) B) :
  always (within n) m ->
  counted n (fst (emit (Prediction.SetTotalRecords n) ≫= fun _ => m)).
Proof.
  intros Hm. right. exists [], (fst m). unfold mbind, worker_bind, wbind, emit.
  destruct m as [evs r]. simpl. done.
Qed.

Lemma counted_try_except {w} n (m : worker (Prediction.event w) unit) :
  counted n (fst m) ->
  counted n (try_except m (fun text => [Prediction.FailJob text])).
Proof.
  destruct m as [evs [[]|text]]; simpl; [done|].
  intros [Hq|(pre & post & -> & Hpre & Hpost)].
  - left. apply Forall_app. split; [done|]. by constructor.
  - right. exists pre, (post ++ [Prediction.FailJob text]).
    rewrite <- app_assoc. split; [done|]. split; [done|].
    apply Forall_app. split; [done|]. by constructor.
Qed.

Lemma always_for_each {E S X} (P : E -> Prop) (body : S -> X -> worker E S) xs :
  (forall acc x, x ∈ xs -> always P (body acc x)) ->
  forall acc, always P (for_each body xs acc).
Proof.
  induction xs as [|x xs IH]; intros Hbody acc; simpl.
  - by apply always_quiet.
  - apply always_bind; [apply Hbody; by left|]. intros acc' _.
    apply IH. intros ? ? ?. apply Hbody. by right.
Qed.

Lemma batch_body_within w request model df acc i :
  0 <= i ->
  always (within (Z.of_nat (length df)))
         (Prediction.batch_body w request model df (Z.of_nat (length df)) acc i).
Proof.
  intros Hi. unfold Prediction.batch_body. destruct acc as [predictions scores].
  eapply always_bind; [by apply always_call | intros ps _].
  eapply always_bind; [| intros sc _].
  { destruct (Prediction.include_confidence request).
    - eapply always_bind; [by apply always_call | intros c _]. by apply always_quiet.
    - by apply always_quiet. }
  eapply always_bind; [| intros _ _].
  { apply always_emit. simpl. unfold Prediction.batch_size. lia. }
  eapply always_bind; [by apply always_emit | intros _ _].
  by apply always_quiet.
Qed.

Lemma py_range_nonneg n step x : 0 < step -> x ∈ py_range 0 n step -> 0 <= x.
Proof.
  intros Hs Hin. unfold py_range in Hin.
  apply list_elem_of_fmap in Hin as (k & -> & _). nia.
Qed.

(** The number of rows of the data set of a request, 0 if it cannot be read. *)
Definition rows_of (w : Prediction.world) (request : Prediction.BatchPredictionRequest) : Z :=
  match Prediction.pd_read_csv w
          (os_path_join Prediction.data_dir (Prediction.req_dataset_id request +:+ ".csv"))
  with
  | Ok df => Z.of_nat (length df)
  | Raise _ => 0
  end.

Lemma run_batch_prediction_counted w id request :
  counted (rows_of w request) (Prediction._run_batch_prediction w id request).
Proof.
  unfold Prediction._run_batch_prediction. apply counted_try_except.
  unfold Prediction._run_batch_prediction_try.
  eapply counted_bind; [by apply always_emit | intros _ _].
  eapply counted_bind; [by apply always_call | intros found _].
  eapply counted_bind; [apply always_quiet; by destruct (negb found) | intros _ _].
  eapply counted_bind; [by apply always_call | intros df Hdf].
  simpl in Hdf. unfold rows_of. rewrite Hdf.
  apply counted_set.
  eapply always_bind; [by apply always_emit | intros _ _].
  eapply always_bind; [by apply always_call | intros found' _].
  eapply always_bind; [apply always_quiet; by destruct (negb found') | intros _ _].
  eapply always_bind; [by apply always_call | intros model _].
  eapply always_bind; [by apply always_emit | intros _ _].
  eapply always_bind; [| intros [predictions scores] _].
  { apply always_for_each. intros acc x Hin. apply batch_body_within.
    eapply py_range_nonneg; [|exact Hin]. unfold Prediction.batch_size. lia. }
  eapply always_bind; [| intros out _].
  { case_bool_decide.
    - eapply always_bind; [by apply always_call | intros _ _]. by apply always_quiet.
    - eapply always_bind; [by apply always_quiet | intros _ _].
      eapply always_bind; [apply always_quiet; by destruct (truthy_list scores) | intros _ _].
      eapply always_bind; [by apply always_call | intros _ _]. by apply always_quiet. }
  by apply always_emit.
Qed.

(** Before the total is written both counts are 0; afterwards the total is
    [n] and the processed count lies within [0, n]. *)
Definition records_tracked {w} (n : Z) (job : Prediction.PredictionJob)
    (todo0 : list (Prediction.event w)) : Prop :=
  (Prediction.total_records job = 0 /\ Prediction.processed_records job = 0 /\
   counted n todo0) \/
  (Prediction.total_records job = n /\ 0 <= Prediction.processed_records job <= n /\
   Forall (within n) todo0).

Lemma prediction_exec_tracked w n id now (e : Prediction.event w) rest
    (table : gmap string Prediction.PredictionJob) job :
  0 <= n -> table !! id = Some job -> records_tracked n job (e :: rest) ->
  exists table' job',
    Prediction.exec id now e table = Ok table' /\ table' !! id = Some job' /\
    records_tracked n job' rest.
Proof.
  intros Hn Hj Ht.
  destruct Ht as [(Ht & Hp & Hc)|(Ht & Hp & Hall)].
  - assert (Hrest : quiet e -> counted n rest).
    { intros He. destruct Hc as [Hq|(pre & post & Heq & Hpre & Hpost)].
      - apply Forall_cons in Hq as [_ Hq]. by left.
      - destruct pre as [|e' pre]; simpl in Heq; injection Heq as -> ->; [done|].
        apply Forall_cons in Hpre as [_ Hpre]. right. eauto. }
    destruct e as [status0 p| m | p | out | text | c]; simpl;
      unfold Prediction._update_job_status, Prediction.complete_job, Prediction._fail_job,
        Prediction.set_total_records, Prediction.set_processed_records;
      rewrite ?Hj.
    + eexists _, _; split; [reflexivity|]; split; [apply lookup_insert_eq|]. left. simpl. split; [done|]. split; [done|]. by apply Hrest.
    + eexists _, _; split; [reflexivity|]; split; [apply lookup_insert_eq|].
      destruct Hc as [Hq|(pre & post & Heq & Hpre & Hpost)].
      * apply Forall_cons in Hq as [[] _].
      * destruct pre as [|e' pre]; simpl in Heq.
        -- injection Heq as -> ->. right. simpl. split; [done|]. split; [lia|done].
        -- injection Heq as <- ->. apply Forall_cons in Hpre as [[] _].
    + exfalso. destruct Hc as [Hq|(pre & post & Heq & Hpre & Hpost)].
      * apply Forall_cons in Hq as [[] _].
      * destruct pre as [|e' pre]; simpl in Heq; [done|].
        injection Heq as <- ->. apply Forall_cons in Hpre as [[] _].
    + eexists _, _; split; [reflexivity|]; split; [apply lookup_insert_eq|]. left. simpl. split; [done|]. split; [done|]. by apply Hrest.
    + eexists _, _; split; [reflexivity|]; split; [apply lookup_insert_eq|]. left. simpl. split; [done|]. split; [done|]. by apply Hrest.
    + eexists _, _. split; [done|]. split; [exact Hj|]. left. split; [done|]. split; [done|]. by apply Hrest.
  - apply Forall_cons in Hall as [He Hall].
    destruct e as [status0 p| m | p | out | text | c]; simpl in *;
      unfold Prediction._update_job_status, Prediction.complete_job, Prediction._fail_job,
        Prediction.set_total_records, Prediction.set_processed_records;
      rewrite ?Hj; try done.
    + eexists _, _; split; [reflexivity|]; split; [apply lookup_insert_eq|]. right. simpl. auto.
    + eexists _, _; split; [reflexivity|]; split; [apply lookup_insert_eq|]. right. simpl. auto.
    + eexists _, _; split; [reflexivity|]; split; [apply lookup_insert_eq|]. right. simpl. auto.
    + eexists _, _; split; [reflexivity|]; split; [apply lookup_insert_eq|]. right. simpl. auto.
    + eexists _, _. split; [done|]. split; [exact Hj|]. right. auto.
Qed.

Lemma prediction_cancel_tracked w n id now
    (table : gmap string Prediction.PredictionJob) job (todo0 : list (Prediction.event w)) :
  table !! id = Some job -> records_tracked n job todo0 ->
  exists job',
    fst (Prediction.cancel_prediction_job table id now) !! id = Some job' /\
    records_tracked n job' todo0.
Proof.
  intros Hj Ht. unfold Prediction.cancel_prediction_job. rewrite Hj.
  case_bool_decide; simpl; [|eauto].
  rewrite lookup_insert_eq. eexists. split; [done|]. exact Ht.
Qed.

(** At every moment, whatever the collaborators answer and whatever
    cancellation requests come in, the processed count of a batch prediction
    job lies between 0 and its total, and the total is 0 or the number of rows
    of the data set. *)
Theorem processed_within_total (id : string) (now : datetime) (sched : list tick)
    (w : Prediction.world) (table : gmap string Prediction.PredictionJob)
    (request : Prediction.BatchPredictionRequest) :
  let s := Prediction.run_job id sched (Prediction.submitted w table id now request) in
  exists job,
    jobs s !! id = Some job /\
    0 <= Prediction.processed_records job <= Prediction.total_records job /\
    (Prediction.total_records job = 0 \/
     exists df,
       Prediction.pd_read_csv w
         (os_path_join Prediction.data_dir (Prediction.req_dataset_id request +:+ ".csv"))
       = Ok df /\
       Prediction.total_records job = Z.of_nat (length df)).
Proof.
  intros s.
  assert (Hn : 0 <= rows_of w request).
  { unfold rows_of. destruct (Prediction.pd_read_csv w _); lia. }
  destruct (run_tracked Prediction.exec Prediction.FailJob Prediction.cancel_prediction_job
              id (records_tracked (rows_of w request))
              (fun now e rest table job => prediction_exec_tracked w _ id now e rest table job Hn)
              (prediction_cancel_tracked w _ id) sched
              (Prediction.submitted w table id now request)) as (job & Hj & Ht).
  { unfold Prediction.submitted, Prediction.start_batch_prediction. cbn [jobs todo fst].
    eexists. split; [apply lookup_insert_eq|]. left. simpl.
    split; [done|]. split; [done|]. apply run_batch_prediction_counted. }
  exists job. split; [exact Hj|].
  destruct Ht as [(Ht & Hp & _)|(Ht & Hp & _)].
  - rewrite Ht, Hp. split; [lia|by left].
  - rewrite Ht. split; [done|]. unfold rows_of in *.
    destruct (Prediction.pd_read_csv w _) as [df|]; [right; eauto|by left].
Qed.

(** ** app/services/prediction_service.py: real-time predictions *)

Module RealTime.

(** [PredictionRequest]; [data] is the list of records of the request. *)
Record PredictionRequest (Data : Type) : Type := {
  model_id : string;
  data : Data;
  include_confidence : bool;
  include_explanation : bool
}.
Arguments model_id {Data} _.
Arguments data {Data} _.
Arguments include_confidence {Data} _.
Arguments include_explanation {Data} _.

Record PredictionResponse (Explanation : Type) : Type := {
  predictions : list pyfloat;
  confidence_scores : option (list pyfloat);
  explanations : option (list Explanation);
  resp_model_id : string;
  prediction_time : datetime;
  processing_duration : Z
}.
Arguments predictions {Explanation} _.
Arguments confidence_scores {Explanation} _.
Arguments explanations {Explanation} _.
Arguments resp_model_id {Explanation} _.
Arguments prediction_time {Explanation} _.
Arguments processing_duration {Explanation} _.

Section Predict.
Variable w : Prediction.world.
Variables Data Explanation : Type.
(** [pd.DataFrame(request.data)] *)
Variable pd_DataFrame : Data -> result (list (Prediction.Row w)).
(** [_generate_explanations]: its [try] catches every exception and answers
    [None] then. *)
Variable _generate_explanations :
  Prediction.Estimator w -> list (Prediction.Row w) -> list pyfloat ->
  option (list Explanation).

(** The [try] block of [predict], after the model is loaded; the [except]
    clause logs and raises the exception again.  [now1] and [now2] are the two
    later readings of the clock. *)
Definition predict_with (model : Prediction.Estimator w)
    (request : PredictionRequest Data) (start_time now1 now2 : datetime)
  : result (PredictionResponse Explanation) :=
  df ← pd_DataFrame (data request);
  predictions_list ← Prediction.predict w model df;
  let confidence_scores0 :=
    if include_confidence request
    then Prediction._calculate_confidence_scores w model df predictions_list
    else None in
  let explanations0 :=
    if include_explanation request
    then _generate_explanations model df predictions_list
    else None in
  let processing_duration0 := now1 - start_time in
  mret {| predictions := predictions_list;
          confidence_scores := confidence_scores0;
          explanations := explanations0;
          resp_model_id := model_id request;
          prediction_time := now2;
          processing_duration := processing_duration0 |}.

(** [predict]: the model comes from [_load_model], which may change the
    cache.  A reference that [_load_model] returns denotes an object. *)
Definition predict (s : Prediction.cache_state w) (request : PredictionRequest Data)
    (start_time now1 now2 : datetime)
  : result (PredictionResponse Explanation) * Prediction.cache_state w :=
  match Prediction._load_model w s (model_id request) with
  | (Raise text, s') => (Raise text, s')
  | (Ok ref, s') =>
      match Prediction.deref s' ref with
      | Some model => (predict_with model request start_time now1 now2, s')
      | None => (Raise "dangling model reference", s')
      end
  end.

End Predict.

End RealTime.

(** A real-time prediction, after any sequence of loads and clears of the
    cache.  It returns exactly when the model loads (from the cache or from
    its file), the frame can be built and the model predicts; an exception of
    one of the three goes to the caller.  A confidence computation that
    raises, and an explanation that cannot be generated, leave their field
    empty and do not fail the prediction.  The response carries the model's
    predictions and the model id of the request.  The cache afterwards holds
    whatever the load has left, and a second prediction with the same request
    loads nothing and returns the same predictions. *)
Theorem predict_is_best_effort (w : Prediction.world) (Data Explanation : Type)
    (pd_DataFrame : Data -> result (list (Prediction.Row w)))
    (gen : Prediction.Estimator w -> list (Prediction.Row w) -> list pyfloat ->
           option (list Explanation))
    (calls : list cache_call) (request : RealTime.PredictionRequest Data)
    (t0 t1 t2 : datetime) :
  let s := cache_run w calls (Prediction.CacheState ∅ []) in
  let id := RealTime.model_id request in
  let r := RealTime.predict w Data Explanation pd_DataFrame gen s request t0 t1 t2 in
  snd r = cache_step w s (LoadModel id) /\
  match fst r with
  | Ok resp =>
      exists model df,
        Prediction.joblib_load w (model_file id) = Ok model /\
        pd_DataFrame (RealTime.data request) = Ok df /\
        Prediction.predict w model df = Ok (RealTime.predictions resp) /\
        RealTime.resp_model_id resp = id /\
        RealTime.prediction_time resp = t2 /\
        RealTime.processing_duration resp = t1 - t0 /\
        RealTime.confidence_scores resp
        = (if RealTime.include_confidence request then
             match Prediction.confidence_try w model df (RealTime.predictions resp) with
             | Ok scores => Some scores
             | Raise _ => None
             end
           else None) /\
        RealTime.explanations resp
        = (if RealTime.include_explanation request
           then gen model df (RealTime.predictions resp) else None) /\
        forall t0' t1' t2',
          exists resp',
            RealTime.predict w Data Explanation pd_DataFrame gen (snd r) request t0' t1' t2'
            = (Ok resp', snd r) /\
            RealTime.predictions resp' = RealTime.predictions resp /\
            RealTime.confidence_scores resp' = RealTime.confidence_scores resp
  | Raise text =>
      fst (Prediction._load_model w s id) = Raise text \/
      exists model,
        Prediction.joblib_load w (model_file id) = Ok model /\
        (pd_DataFrame (RealTime.data request) = Raise text \/
         exists df, pd_DataFrame (RealTime.data request) = Ok df /\
                    Prediction.predict w model df = Raise text)
  end.
Proof.
  intros s id r.
  assert (Hok : cache_ok s).
  { apply cache_run_ok. intros ? ?. simpl. by rewrite lookup_empty. }
  pose proof (cache_step_ok w s (LoadModel id) Hok) as Hok'.
  unfold r, RealTime.predict. fold id. cbn [cache_step] in Hok' |- *.
  destruct (Prediction._load_model w s id) as [[ref|text] s'] eqn:Hload; simpl in *;
    [|split; [done|by left]].
  assert (Hc : Prediction.models_cache s' !! id = Some ref).
  { unfold Prediction._load_model in Hload.
    destruct (Prediction.models_cache s !! id) as [ref0|] eqn:Hc0.
    - by injection Hload as <- <-.
    - destruct (negb _); [done|].
      destruct (Prediction.joblib_load w _); [|done].
      injection Hload as <- <-. simpl. apply lookup_insert_eq. }
  destruct (Hok' id ref Hc) as (model & Hd & Hl & He). rewrite Hd.
  split; [done|].
  unfold RealTime.predict_with, mbind, mret, result_bind, result_ret.
  destruct (pd_DataFrame (RealTime.data request)) as [df|text] eqn:Hdf;
    [|right; exists model; auto].
  destruct (Prediction.predict w model df) as [ps|text] eqn:Hp;
    [|right; exists model; split; [done|]; right; eauto].
  exists model, df. cbn.
  repeat split; try done.
  intros t0' t1' t2'. unfold RealTime.predict. fold id.
  unfold Prediction._load_model at 1. rewrite Hc, Hd.
  unfold RealTime.predict_with, mbind, mret, result_bind, result_ret.
  rewrite ?Hdf, ?Hp. eexists. split; [reflexivity|]. done.
Qed.

(** ** C1: a cancellation request and the worker that goes on *)

Lemma work_ticks_works times : work_ticks (map Work times) = length times.
Proof. induction times as [|t times IH]; [done|]. simpl. by rewrite IH. Qed.

Section CancelledUntilWritten.
Context {Job E : Type}.
Variable exec : string -> datetime -> E -> gmap string Job -> result (gmap string Job).
Variable fail : string -> E.
Variable cancel_job : gmap string Job -> string -> datetime -> gmap string Job * bool.
Variable view_of : Job -> view.
Variable kind_of : E -> kind.
Variable running : string.
Variable j : string.

Hypothesis running_fresh : running ∉ ["queued"; "completed"; "failed"; "cancelled"].
Hypothesis exec_present : forall now e (table : gmap string Job) job,
  table !! j = Some job ->
  exists table' job',
    exec j now e table = Ok table' /\ table' !! j = Some job' /\
    view_of job' = apply_kind (kind_of e) (view_of job).
Hypothesis cancel_present : forall now (table : gmap string Job) job,
  table !! j = Some job ->
  exists job',
    fst (cancel_job table j now) !! j = Some job' /\
    view_of job' = cancel_view running (view_of job).

Let step1 := step exec (fun text => [fail text]) cancel_job j.
Let run1 := run exec (fun text => [fail text]) cancel_job j.

(** An action that does not write the status. *)
Definition silent (e : E) : Prop := kind_of e = KSilent.

(** While the worker alone runs, a cancelled status lasts exactly as long as
    its actions are silent. *)
Lemma works_status times : forall s job,
  jobs s !! j = Some job ->
  Forall (fun e => updates_running running (kind_of e)) (todo s) ->
  exists job',
    jobs (run1 (map Work times) s) !! j = Some job' /\
    (v_status (view_of job') = "cancelled" <->
     v_status (view_of job) = "cancelled" /\ Forall silent (take (length times) (todo s))).
Proof using running_fresh exec_present.
  destruct (running_neq running running_fresh) as (Nq & Nc & Nf & Nx).
  induction times as [|t times IH]; intros s job Hj Hup.
  - exists job. split; [done|]. simpl. rewrite take_0. split; [auto|by intros [? _]].
  - destruct s as [table td]. simpl in Hj, Hup. unfold run1. cbn [map run step todo jobs].
    destruct td as [|e rest].
    + destruct (IH (Sys table []) job Hj Hup) as (job' & Hj' & Hiff).
      exists job'. split; [exact Hj'|]. cbn [todo] in Hiff |- *.
      rewrite take_nil in Hiff. rewrite take_nil. exact Hiff.
    + apply Forall_cons in Hup as [He Hup].
      destruct (exec_present t e table job Hj) as (table' & job1 & -> & Hj1 & Hv).
      destruct (IH (Sys table' rest) job1 Hj1 Hup) as (job' & Hj' & Hiff).
      exists job'. split; [exact Hj'|]. rewrite Hiff. cbn [length take todo].
      rewrite Forall_cons, Hv. unfold silent.
      destruct (kind_of e) as [status0 p| |text|] eqn:Hk; simpl.
      * assert (status0 = running) as -> by (by eapply He).
        split; [by intros [? _]|by intros (_ & ? & _)].
      * split; [by intros [? _]|by intros (_ & ? & _)].
      * split; [by intros [? _]|by intros (_ & ? & _)].
      * split; [intros [? ?]; auto|intros (? & _ & ?); auto].
Qed.

Lemma cancelled_until_written s job now :
  finishing view_of kind_of running j s ->
  jobs s !! j = Some job -> v_status (view_of job) ∈ ["queued"; running] ->
  todo (step1 (Cancel now) s) = todo s /\ todo s <> [] /\
  (exists job2, jobs (step1 (Cancel now) s) !! j = Some job2 /\
                v_status (view_of job2) = "cancelled") /\
  forall times,
    exists job3,
      jobs (run1 (map Work times) (step1 (Cancel now) s)) !! j = Some job3 /\
      (v_status (view_of job3) = "cancelled" <->
       Forall silent (take (length times) (todo s))) /\
      ((length (todo s) <= length times)%nat -> terminal (view_of job3)).
Proof using running_fresh exec_present cancel_present.
  destruct (running_neq running running_fresh) as (Nq & Nc & Nf & Nx).
  intros Hfin Hj Hst.
  pose proof Hfin as (job0 & Hj0 & Hinv & Hdone).
  rewrite Hj in Hj0. injection Hj0 as <-.
  assert (Hne : todo s <> []).
  { intros Hnil. destruct (Hdone Hnil) as [Eq|Eq]; rewrite Eq in Hst; set_solver. }
  split; [done|]. split; [exact Hne|].
  destruct (cancel_present now (jobs s) job Hj) as (job2 & Hj2 & Hv2).
  assert (Hc2 : v_status (view_of job2) = "cancelled").
  { rewrite Hv2. unfold cancel_view. by rewrite bool_decide_eq_true_2. }
  split; [exists job2; by split|].
  intros times.
  assert (Hup : Forall (fun e => updates_running running (kind_of e)) (todo s)).
  { destruct (inv_closed _ _ _ _ Hinv) as [Hnil|Hc].
    - by destruct (todo s).
    - apply closed_updates in Hc. apply Forall_forall. intros e Hin.
      rewrite Forall_forall in Hc. apply Hc. by apply list_elem_of_fmap_2. }
  destruct (works_status times (step1 (Cancel now) s) job2 Hj2 Hup) as (job3 & Hj3 & Hiff).
  exists job3. split; [exact Hj3|]. split.
  - rewrite Hiff. simpl. split; [by intros [_ ?]|by split].
  - intros Hlen.
    destruct (finishing_step exec fail cancel_job view_of kind_of running j
                running_fresh exec_present cancel_present (Cancel now) s Hfin)
      as [Hfin2 _].
    destruct (finishing_run exec fail cancel_job view_of kind_of running j
                running_fresh exec_present cancel_present (map Work times) _ Hfin2)
      as [(job3' & Hj3' & _ & Hdone3) Hl].
    fold run1 step1 in Hj3', Hdone3, Hl. rewrite Hj3 in Hj3'. injection Hj3' as <-.
    apply Hdone3. apply length_zero_iff_nil. rewrite Hl, work_ticks_works. simpl. lia.
Qed.

End CancelledUntilWritten.

(** C1 (amended): a cancellation request on a queued or running job answers
    true and sets its status to cancelled; the worker is not stopped, it still
    has all its actions to do.  Its later writes do not look at the status
    they replace: when the worker alone goes on, the status is still cancelled
    exactly as long as every action it has done since is silent (a call to a
    collaborator, a record count), so that its next status update, its
    completion write or its failure write replaces cancelled; and once the
    worker is done the status is completed or failed, for all three job
    kinds. *)
Theorem finish_overwrites_cancelled (id : string) (now : datetime) (sched : list tick)
    (now' : datetime) :
  (forall w table request job,
     let s1 := Training.run_job id sched (Training.submitted w table id now request) in
     let s2 := Training.step_job id (Cancel now') s1 in
     jobs s1 !! id = Some job -> Training.status job ∈ ["queued"; "training"] ->
     snd (Training.cancel_training_job (jobs s1) id now') = true /\
     Training.status <$> jobs s2 !! id = Some "cancelled" /\
     todo s2 = todo s1 /\ todo s1 <> [] /\
     forall times,
       exists job3,
         jobs (Training.run_job id (map Work times) s2) !! id = Some job3 /\
         (Training.status job3 = "cancelled" <->
          Forall (fun e => Training.kind_of e = KSilent)
                 (take (length times) (todo s1))) /\
         ((length (todo s1) <= length times)%nat ->
          Training.status job3 = "completed" \/ Training.status job3 = "failed")) /\
  (forall w table request job,
     let s1 :=
       Prediction.run_job id sched (Prediction.submitted w table id now request) in
     let s2 := Prediction.step_job id (Cancel now') s1 in
     jobs s1 !! id = Some job -> Prediction.status job ∈ ["queued"; "running"] ->
     snd (Prediction.cancel_prediction_job (jobs s1) id now') = true /\
     Prediction.status <$> jobs s2 !! id = Some "cancelled" /\
     todo s2 = todo s1 /\ todo s1 <> [] /\
     forall times,
       exists job3,
         jobs (Prediction.run_job id (map Work times) s2) !! id = Some job3 /\
         (Prediction.status job3 = "cancelled" <->
          Forall (fun e => Prediction.kind_of e = KSilent)
                 (take (length times) (todo s1))) /\
         ((length (todo s1) <= length times)%nat ->
          Prediction.status job3 = "completed" \/ Prediction.status job3 = "failed")) /\
  (forall w table request job,
     let s1 :=
       Validation.run_job id sched (Validation.submitted w table id now request) in
     let s2 := Validation.step_job id (Cancel now') s1 in
     jobs s1 !! id = Some job -> Validation.status job ∈ ["queued"; "running"] ->
     snd (Validation.cancel_validation_job (jobs s1) id now') = true /\
     Validation.status <$> jobs s2 !! id = Some "cancelled" /\
     todo s2 = todo s1 /\ todo s1 <> [] /\
     forall times,
       exists job3,
         jobs (Validation.run_job id (map Work times) s2) !! id = Some job3 /\
         (Validation.status job3 = "cancelled" <->
          Forall (fun e => Validation.kind_of e = KSilent)
                 (take (length times) (todo s1))) /\
         ((length (todo s1) <= length times)%nat ->
          Validation.status job3 = "completed" \/ Validation.status job3 = "failed")).
Proof.
  repeat apply conj.
  - intros w table request job s1 s2 Hj Hst.
    destruct (finishing_run Training.exec Training.FailJob Training.cancel_training_job
                Training.view_of Training.kind_of "training" id training_fresh
                (training_exec_present id) (training_cancel_present id) sched _
                (training_finishing w table id now request)) as [Hfin _].
    destruct (cancelled_until_written Training.exec Training.FailJob
                Training.cancel_training_job Training.view_of Training.kind_of
                "training" id training_fresh (training_exec_present id)
                (training_cancel_present id) _ job now' Hfin Hj Hst)
      as (Htd & Hne & (job2 & Hj2 & Hc2) & Hrun).
    split.
    { unfold Training.cancel_training_job. rewrite Hj.
      by rewrite bool_decide_eq_true_2. }
    split; [unfold s2, s1, Training.step_job, Training.run_job; by rewrite Hj2, <- Hc2|].
    split; [exact Htd|]. split; [exact Hne|exact Hrun].
  - intros w table request job s1 s2 Hj Hst.
    destruct (finishing_run Prediction.exec Prediction.FailJob
                Prediction.cancel_prediction_job
                Prediction.view_of Prediction.kind_of "running" id running_fresh
                (prediction_exec_present w id) (prediction_cancel_present id) sched _
                (prediction_finishing w table id now request)) as [Hfin _].
    destruct (cancelled_until_written Prediction.exec Prediction.FailJob
                Prediction.cancel_prediction_job Prediction.view_of Prediction.kind_of
                "running" id running_fresh (prediction_exec_present w id)
                (prediction_cancel_present id) _ job now' Hfin Hj Hst)
      as (Htd & Hne & (job2 & Hj2 & Hc2) & Hrun).
    split.
    { unfold Prediction.cancel_prediction_job. rewrite Hj.
      by rewrite bool_decide_eq_true_2. }
    split; [unfold s2, s1, Prediction.step_job, Prediction.run_job; by rewrite Hj2, <- Hc2|].
    split; [exact Htd|]. split; [exact Hne|exact Hrun].
  - intros w table request job s1 s2 Hj Hst.
    destruct (finishing_run Validation.exec Validation.FailJob
                Validation.cancel_validation_job
                Validation.view_of Validation.kind_of "running" id running_fresh
                (validation_exec_present w id) (validation_cancel_present w id) sched _
                (validation_finishing w table id now request)) as [Hfin _].
    destruct (cancelled_until_written Validation.exec Validation.FailJob
                Validation.cancel_validation_job Validation.view_of Validation.kind_of
                "running" id running_fresh (validation_exec_present w id)
                (validation_cancel_present w id) _ job now' Hfin Hj Hst)
      as (Htd & Hne & (job2 & Hj2 & Hc2) & Hrun).
    split.
    { unfold Validation.cancel_validation_job. rewrite Hj.
      by rewrite bool_decide_eq_true_2. }
    split; [unfold s2, s1, Validation.step_job, Validation.run_job; by rewrite Hj2, <- Hc2|].
    split; [exact Htd|]. split; [exact Hne|exact Hrun].
Qed.


(** The training job of the scenario, cancelled after its first update: the
    19 actions the worker still does end with the completion write. *)
Lemma finish_overwrites_cancelled_witness :
  let s1 := Training.run_job "job-1" [Work 1]
              (Training.submitted (training_world true) ∅ "job-1" 0
                 (training_request Training.LINEAR_REGRESSION)) in
  let s2 := Training.step_job "job-1" (Cancel 2) s1 in
  Training.status <$> jobs s1 !! "job-1" = Some "training" /\
  snd (Training.cancel_training_job (jobs s1) "job-1" 2) = true /\
  Training.status <$> jobs s2 !! "job-1" = Some "cancelled" /\
  todo s2 = todo s1 /\
  exists job3,
    jobs (Training.run_job "job-1" (map Work (replicate 19 3)) s2) !! "job-1" = Some job3 /\
    Training.status job3 = "completed".
Proof.
  intros s1 s2.
  assert (Hj : jobs s1 !! "job-1"
               = Some {| Training.job_id := "job-1"; Training.status := "training";
                         Training.progress := 10; Training.metrics := None;
                         Training.error_message := None;
                         Training.started_at := Some 0;
                         Training.completed_at := None;
                         Training.model_path := None |}) by (vm_compute; reflexivity).
  pose proof (proj1 (finish_overwrites_cancelled "job-1" 0 [Work 1] 2)
              (training_world true) ∅ (training_request Training.LINEAR_REGRESSION)
              _ Hj) as H.
  cbv zeta in H.
  destruct H as (Hc & Hs2 & Htd & _ & Hrun).
  { apply elem_of_cons. right. apply elem_of_cons. by left. }
  split; [by rewrite Hj|]. split; [exact Hc|]. split; [exact Hs2|]. split; [exact Htd|].
  destruct (Hrun (replicate 19 3)) as (job3 & Hj3 & Hiff & Hend).
  exists job3. split; [exact Hj3|].
  assert (Hlen : (length (todo s1) <= length (replicate 19 3))%nat)
    by (vm_compute; lia).
  destruct (Hend Hlen) as [Hdone|Hdone]; [exact Hdone|].
  exfalso.
  assert (Hfinal : Training.status <$>
                     jobs (Training.run_job "job-1" (map Work (replicate 19 3)) s2)
                     !! "job-1" = Some "completed") by (vm_compute; reflexivity).
  unfold s2, s1 in Hfinal. rewrite Hj3 in Hfinal. simpl in Hfinal. congruence.
Defined.

(** ** compare_models: the metrics that are compared *)

Definition regression_names : gset string := {["mse"; "rmse"; "mae"; "r2_score"]}.
Definition classification_names : gset string :=
  {["accuracy"; "precision"; "recall"; "f1_score"]}.

Lemma regression_metrics_names w y_true y_pred ms :
  Validation._calculate_regression_metrics w y_true y_pred = Ok ms ->
  dom ms = regression_names.
Proof.
  unfold Validation._calculate_regression_metrics, mbind, mret, result_bind, result_ret.
  destruct (Validation.mean_squared_error w y_true y_pred); [|done].
  destruct (Validation.mean_absolute_error w y_true y_pred); [|done].
  destruct (Validation.r2_score w y_true y_pred); [|done].
  intros [= <-]. unfold regression_names. rewrite !dom_insert_L, dom_empty_L. set_solver.
Qed.

Lemma classification_metrics_names w y_true y_pred ms :
  Validation._calculate_classification_metrics w y_true y_pred = Ok ms ->
  dom ms = classification_names.
Proof.
  unfold Validation._calculate_classification_metrics, mbind, mret, result_bind, result_ret.
  destruct (Validation.accuracy_score w y_true y_pred); [|done].
  destruct (Validation.precision_score w y_true y_pred); [|done].
  destruct (Validation.recall_score w y_true y_pred); [|done].
  destruct (Validation.f1_score w y_true y_pred); [|done].
  intros [= <-]. unfold classification_names. rewrite !dom_insert_L, dom_empty_L.
  set_solver.
Qed.

Lemma candidate_metrics_names w X_train X_test y_train y_test is_regression id ms :
  candidate_metrics w X_train X_test y_train y_test is_regression id = Some ms ->
  dom ms = if is_regression then regression_names else classification_names.
Proof.
  unfold candidate_metrics, Validation.evaluate_try, mbind, result_bind.
  destruct (Validation.os_path_exists w _); [|done].
  destruct (Validation.joblib_load w _) as [model|]; [|done].
  destruct (Validation.fit w model X_train y_train) as [model'|]; [|done].
  destruct (Validation.predict w model' X_test) as [y_pred|]; [|done].
  destruct is_regression.
  - destruct (Validation._calculate_regression_metrics w y_test y_pred) eqn:E; [|done].
    intros [= <-]. by eapply regression_metrics_names.
  - destruct (Validation._calculate_classification_metrics w y_test y_pred) eqn:E; [|done].
    intros [= <-]. by eapply classification_metrics_names.
Qed.

Lemma select_best_none c l bm0 bs0 :
  (forall id ms, (id, ms) ∈ l -> ms !! c = None) ->
  fold_left (Validation.select_best c) l (bm0, bs0) = (bm0, bs0).
Proof.
  induction l as [|[id ms] l IH]; intros Hl; [done|].
  cbn [fold_left]. rewrite select_best_unfold.
  rewrite (Hl id ms) by (by left). apply IH. intros ? ? ?. eapply Hl. by right.
Qed.

(** ** C7: compare_models *)

(** C7, as the code has it: the criterion names of the code are the metric
    names ["f1_score"] and ["r2_score"].  Under the criterion ["f1"] both
    candidates are evaluated, each with an f1 score of 1/2, and no best model
    is named. *)
Lemma f1_selects_nothing :
  match Validation.compare_models validation_world ["m1"; "m3"] "ds1" "f1" 0 with
  | Ok cmp =>
      Validation.best_model cmp = "none" /\
      map (fun item => (fst item, snd item !! "f1_score", snd item !! "f1"))
          (Validation.cmp_metrics cmp)
      = [("m1", Some (Fin (1 # 2)), None); ("m3", Some (Fin (1 # 2)), None)]
  | Raise _ => False
  end.
Proof.
  destruct (Validation.compare_models validation_world ["m1"; "m3"] "ds1" "f1" 0)
    as [cmp|text] eqn:Hcmp; [|by vm_compute in Hcmp].
  assert (Hv : cmp = match Validation.compare_models validation_world ["m1"; "m3"]
                             "ds1" "f1" 0 with
                     | Ok c => c
                     | Raise _ => cmp
                     end) by (by rewrite Hcmp).
  split; rewrite Hv; by vm_compute.
Qed.

Lemma or_none_id id :
  Validation.or_none (Some id) = if bool_decide (id = "") then "none" else id.
Proof.
  unfold Validation.or_none, truthy_str. case_bool_decide as Hid.
  - by subst.
  - destruct (String.eqb id "") eqn:E; [|done]. by apply String.eqb_eq in E.
Qed.

(** The names under which a candidate can have a score. *)
Definition criterion_names : list string :=
  ["accuracy"; "precision"; "recall"; "f1_score"; "mse"; "rmse"; "mae"; "r2_score"].

(** C7 (amended): when [compare_models] returns, its [metrics] hold exactly
    the candidates that were found, loaded and evaluated, each with its
    metrics, and a candidate that fails any of these is skipped; the
    comparison returns for any other list of candidates as well.  The best
    model is a candidate with a score for the criterion that beats the
    starting score, such that no candidate has a better score; it is reported
    under its id, and as "none" when its id is the empty string.  Better means
    higher for the criteria accuracy, precision, recall, f1_score and
    r2_score, and lower for every other criterion, mse, mae and rmse among
    them.  When no candidate has such a score the best model is "none"; this
    is so for every criterion that is not the name of a metric, f1 and r2
    among them. *)
Theorem compare_models_best (w : Validation.world) (model_ids : list string)
    (dataset_id criteria : string) (now : datetime) (cmp : Validation.ModelComparison) :
  Validation.compare_models w model_ids dataset_id criteria now = Ok cmp ->
  (exists X_train X_test y_train y_test is_regression,
     forall id ms,
       (id, ms) ∈ Validation.cmp_metrics cmp <->
       id ∈ model_ids /\
       candidate_metrics w X_train X_test y_train y_test is_regression id = Some ms) /\
  (forall model_ids',
     exists cmp', Validation.compare_models w model_ids' dataset_id criteria now = Ok cmp') /\
  ((Validation.best_model cmp = "none" /\
    forall id ms s,
      (id, ms) ∈ Validation.cmp_metrics cmp -> ms !! criteria = Some s ->
      better criteria s (worst criteria) = false) \/
   (exists id ms s,
      (id, ms) ∈ Validation.cmp_metrics cmp /\
      Validation.best_model cmp = (if bool_decide (id = "") then "none" else id) /\
      ms !! criteria = Some s /\
      better criteria s (worst criteria) = true /\
      forall id' ms' s',
        (id', ms') ∈ Validation.cmp_metrics cmp -> ms' !! criteria = Some s' ->
        better criteria s' s = false)) /\
  (forall s b,
     (criteria ∈ ["accuracy"; "precision"; "recall"; "f1_score"; "r2_score"] ->
      better criteria s b = float_gt s b /\ worst criteria = NegInf) /\
     (criteria ∉ ["accuracy"; "precision"; "recall"; "f1_score"; "r2_score"] ->
      better criteria s b = float_lt s b /\ worst criteria = PosInf)) /\
  (criteria ∉ criterion_names -> Validation.best_model cmp = "none").
Proof.
  intros Hcmp. unfold Validation.compare_models in Hcmp.
  destruct (Validation.os_path_exists w _) eqn:He; [|done]. cbn [negb] in Hcmp.
  unfold mbind, mret, result_bind, result_ret in Hcmp.
  destruct (Validation.pd_read_csv w _) as [df|] eqn:Hdf; [|done].
  destruct (Validation.last_column w df) as [target|] eqn:Ht; [|done].
  destruct (Validation.getitem_columns w df _) as [X|] eqn:HX; [|done].
  destruct (Validation.getitem_column w df target) as [y|] eqn:Hy; [|done].
  destruct (Validation.train_test_split w X y)
    as [[[[X_train X_test] y_train] y_test]|] eqn:Hs; [|done].
  injection Hcmp as <-. cbn [Validation.cmp_metrics Validation.best_model].
  set (is_regression := Validation._is_regression_problem w y).
  set (results := fold_left _ model_ids []).
  destruct (results_fold w X_train X_test y_train y_test is_regression model_ids [])
    as [_ Hres].
  { constructor. }
  { intros ? ? Hin. by apply elem_of_nil in Hin. }
  fold results in Hres.
  repeat apply conj.
  - exists X_train, X_test, y_train, y_test, is_regression. intros id ms.
    rewrite Hres. split; [|by left].
    intros [?|Hin]; [done|by apply elem_of_nil in Hin].
  - intros model_ids'. unfold Validation.compare_models.
    rewrite He. cbn [negb]. unfold mbind, mret, result_bind, result_ret.
    rewrite Hdf, Ht, HX, Hy, Hs. eauto.
  - destruct (select_best_fold criteria results None (worst criteria)) as [Hall Hcase].
    unfold worst in *.
    set (r := fold_left (Validation.select_best criteria) results
                (None, if Validation.higher_is_better criteria then NegInf else PosInf))
      in *.
    destruct Hcase as [[Hr Hno]|(id & ms & Hin & Hf & Hm & Hb)].
    + left. rewrite Hr. simpl. split; [done|exact Hno].
    + right. exists id, ms, (snd r). rewrite Hf, or_none_id.
      repeat split; try done.
  - intros s b. unfold better, worst, Validation.higher_is_better. split; intros Hin.
    + by rewrite bool_decide_eq_true_2.
    + by rewrite bool_decide_eq_false_2.
  - intros Hc. rewrite select_best_none; [done|].
    intros id ms Hin. apply not_elem_of_dom.
    apply Hres in Hin as [[_ Hcand]|Hin]; [|by apply elem_of_nil in Hin].
    rewrite (candidate_metrics_names _ _ _ _ _ _ _ _ Hcand).
    intros Hd. apply Hc. unfold criterion_names.
    destruct is_regression; unfold regression_names, classification_names in Hd;
      rewrite !elem_of_union, !elem_of_singleton in Hd;
      destruct Hd as [[[->| ->]| ->]| ->]; repeat first [by left | right].
Qed.

Lemma compare_models_best_witness :
  match Validation.compare_models validation_world ["m1"; "m2"; "m3"] "ds1" "accuracy" 0
  with
  | Ok cmp =>
      Validation.best_model cmp = "m3" /\
      (Validation.cmp_metrics cmp).*1 = ["m1"; "m3"] /\
      ((Validation.best_model cmp = "none" /\
        forall id ms s,
          (id, ms) ∈ Validation.cmp_metrics cmp -> ms !! "accuracy" = Some s ->
          better "accuracy" s (worst "accuracy") = false) \/
       (exists id ms s,
          (id, ms) ∈ Validation.cmp_metrics cmp /\
          Validation.best_model cmp = (if bool_decide (id = "") then "none" else id) /\
          ms !! "accuracy" = Some s /\
          better "accuracy" s (worst "accuracy") = true /\
          forall id' ms' s',
            (id', ms') ∈ Validation.cmp_metrics cmp -> ms' !! "accuracy" = Some s' ->
            better "accuracy" s' s = false))
  | Raise _ => False
  end.
Proof.
  destruct (Validation.compare_models validation_world ["m1"; "m2"; "m3"] "ds1"
              "accuracy" 0) as [cmp|text] eqn:E.
  - split; [|split].
    + vm_compute in E. injection E as <-. reflexivity.
    + vm_compute in E. injection E as <-. reflexivity.
    + exact (proj1 (proj2 (proj2
                (compare_models_best validation_world ["m1"; "m2"; "m3"] "ds1"
                   "accuracy" 0 cmp E)))).
  - vm_compute in E. discriminate.
Defined.

(** The metrics of every compared candidate are the four regression metrics
    when the target column is numeric with more than 10 distinct values, and
    the four classification metrics otherwise.  A criterion that is not among
    them selects no model: the comparison names "none" as the best model; so
    does a comparison by accuracy, the default criterion, on a regression
    target. *)
Theorem compare_models_metric_names (w : Validation.world) (model_ids : list string)
    (dataset_id criteria : string) (now : datetime) (cmp : Validation.ModelComparison) :
  Validation.compare_models w model_ids dataset_id criteria now = Ok cmp ->
  exists df target y,
    Validation.pd_read_csv w
      (os_path_join Validation.data_dir (dataset_id +:+ ".csv")) = Ok df /\
    last (Validation.columns w df) = Some target /\
    Validation.getitem_column w df target = Ok y /\
    let regression :=
      Validation.is_numeric_dtype w y && bool_decide (Validation.nunique w y > 10) in
    let names := if regression then regression_names else classification_names in
    (forall id ms, (id, ms) ∈ Validation.cmp_metrics cmp -> dom ms = names) /\
    (criteria ∉ names -> Validation.best_model cmp = "none") /\
    (regression = true -> criteria = "accuracy" -> Validation.best_model cmp = "none").
Proof.
  intros Hcmp. unfold Validation.compare_models in Hcmp.
  destruct (Validation.os_path_exists w _) eqn:He; [|done]. cbn [negb] in Hcmp.
  unfold mbind, mret, result_bind, result_ret in Hcmp.
  destruct (Validation.pd_read_csv w _) as [df|] eqn:Hdf; [|done].
  destruct (Validation.last_column w df) as [target|] eqn:Ht; [|done].
  destruct (Validation.getitem_columns w df _) as [X|] eqn:HX; [|done].
  destruct (Validation.getitem_column w df target) as [y|] eqn:Hy; [|done].
  destruct (Validation.train_test_split w X y)
    as [[[[X_train X_test] y_train] y_test]|] eqn:Hs; [|done].
  injection Hcmp as <-. cbn [Validation.cmp_metrics Validation.best_model].
  exists df, target, y. split; [done|].
  split. { unfold Validation.last_column in Ht. by destruct (last _); [injection Ht as ->|]. }
  split; [done|]. cbv zeta.
  change (Validation.is_numeric_dtype w y && bool_decide (Validation.nunique w y > 10))
    with (Validation._is_regression_problem w y).
  set (is_regression := Validation._is_regression_problem w y).
  set (results := fold_left _ model_ids []).
  destruct (results_fold w X_train X_test y_train y_test is_regression model_ids [])
    as [_ Hres].
  { constructor. }
  { intros ? ? Hin. by apply elem_of_nil in Hin. }
  fold results in Hres.
  assert (Hnames : forall id ms, (id, ms) ∈ results ->
            dom ms = if is_regression then regression_names else classification_names).
  { intros id ms Hin. apply Hres in Hin as [[_ Hc]|Hin]; [|by apply elem_of_nil in Hin].
    by eapply candidate_metrics_names. }
  assert (Hnone : criteria ∉ (if is_regression then regression_names
                              else classification_names) ->
                  Validation.or_none
                    (fst (fold_left (Validation.select_best criteria) results
                            (None, if Validation.higher_is_better criteria
                                   then NegInf else PosInf))) = "none").
  { intros Hc. rewrite select_best_none; [done|].
    intros id ms Hin. apply not_elem_of_dom. by rewrite (Hnames id ms Hin). }
  split; [exact Hnames|]. split; [exact Hnone|].
  intros Hreg ->. apply Hnone. rewrite Hreg. unfold regression_names.
  rewrite !elem_of_union, !elem_of_singleton. intros [[[?|?]|?]|?]; discriminate.
Qed.

Lemma compare_models_metric_names_witness :
  match Validation.compare_models validation_world ["m1"; "m2"; "m3"] "ds1" "r2_score" 0
  with
  | Ok cmp =>
      (forall id ms, (id, ms) ∈ Validation.cmp_metrics cmp -> dom ms = classification_names)
      /\ Validation.best_model cmp = "none"
  | Raise _ => False
  end.
Proof.
  destruct (Validation.compare_models validation_world ["m1"; "m2"; "m3"] "ds1"
              "r2_score" 0) as [cmp|text] eqn:Hcmp; [|by vm_compute in Hcmp].
  destruct (compare_models_metric_names validation_world ["m1"; "m2"; "m3"] "ds1"
              "r2_score" 0 cmp Hcmp) as (df & target & y & Hdf & Ht & Hy & Hn & Hb & _).
  injection Hdf as <-. injection Ht as <-. injection Hy as <-.
  split; [exact Hn|]. apply Hb.
  change ("r2_score" ∉ classification_names). unfold classification_names.
  rewrite !elem_of_union, !elem_of_singleton. intros [[[?|?]|?]|?]; discriminate.
Defined.
